(** * Progression, streaks, projections and snapshot of the RPG productivity app

    A shallow embedding of the TypeScript sources
    ([domain/progression.ts], [domain/streaks.ts], [events/eventService.ts],
    [analytics/projections.ts], [snapshot/buildSnapshot.ts], [data/bootstrap.ts]
    and the store module with [completeTask], [reopenTask] and the two sync
    passes), followed by the properties the specification states about
    them.

    Conventions of the embedding.
    - A JavaScript [number] that the program uses as a count, an amount of
      XP, a level or a number of minutes is a [Z]; on such values
      [Math.round] and [Math.floor] are the identity and are not written.
      Where the source leaves the integers the value is computed exactly:
      stat weights, multipliers and shares are rationals ([Q]) and
      [Math.round] on them is [js_round]; the level curve is computed with
      an integer root; the value that [calculateTaskXp] rounds is a real
      number ([R]).  A double-precision evaluation can differ from the
      exact one only where the exact value is within rounding error of a
      rounding boundary.
    - [undefined], or an absent optional field, is [None].
    - An object used as a map with an order ([Record<string, number>],
      [Partial<Record<StatKey, number>>]) is the list of its entries in
      insertion order; JavaScript lists integer-like keys first, and the
      keys here (category ids, stat names) are not integer-like.
    - A Dexie table is a finite map from the primary key to the row; the
      singleton tables ([character], [streaks]) are an [option].  An
      operation on the store is a function from the store to a result and
      the store it leaves.
    - Reading the clock ([new Date()]) is an explicit argument of the
      operations that do so; one operation reads it once.

    Two further parts embed more of the program ([domain/quests.ts],
    [utils/appUtils.ts], [seed/defaults.ts], first launch and the remaining
    operations of the store) and prove properties that the code itself
    shows. *)

From Stdlib Require Import ZArith List String Ascii Lia QArith Qround Qfield Qminmax Permutation Bool DecimalString Reals Qreals.
From Stdlib Require Import Lra OrderedTypeEx.
From stdpp Require Import gmap strings list fin_maps.

Local Open Scope Z_scope.

(** ** Domain types ([domain/types.ts]) *)

Inductive StatKey : Type :=
  | strength | vitality | intellect | creativity | discipline | social.

Inductive Priority : Type := low | medium | high.

#[global] Instance StatKey_eq_dec : EqDecision StatKey.
Proof. solve_decision. Defined.

#[global] Instance Priority_eq_dec : EqDecision Priority.
Proof. solve_decision. Defined.

(** Every key of [Record<StatKey, number>], in declaration order. *)
Definition all_stats : list StatKey :=
  [strength; vitality; intellect; creativity; discipline; social].

Record CharacterState : Type := mkCharacter {
  level : Z;
  xpCurrent : Z;
  xpLifetime : Z;
  seasonCap : Z;
  prestigeRank : Z;
  legacyPoints : Z;
  stats : StatKey -> Z
}.

(** [StatDelta = Partial<Record<StatKey, number>>]: a key is present or not. *)
Definition StatDelta : Type := StatKey -> option Z.

Definition sd_empty : StatDelta := fun _ => None.

(** [d[k] ?? 0] *)
Definition sd_get (d : StatDelta) (k : StatKey) : Z :=
  match d k with Some v => v | None => 0 end.

(** [d[k] = v] *)
Definition sd_set (d : StatDelta) (k : StatKey) (v : Z) : StatDelta :=
  fun k' => if decide (k' = k) then Some v else d k'.

Definition stats_set (f : StatKey -> Z) (k : StatKey) (v : Z) : StatKey -> Z :=
  fun k' => if decide (k' = k) then v else f k'.

(** ** Progression engine ([domain/progression.ts]) *)

(** *** Integer roots, for the level curve *)

(** Largest [r] in [[lo, hi)] with [r ^ k <= x], by bisection. *)
Fixpoint iroot_search (fuel : nat) (k x lo hi : Z) : Z :=
  match fuel with
  | O => lo
  | S fuel' =>
      if hi - lo <=? 1 then lo
      else
        let mid := (lo + hi) / 2 in
        if mid ^ k <=? x then iroot_search fuel' k x mid hi
        else iroot_search fuel' k x lo mid
  end.

(** [iroot k x] is the integer part of the [k]-th root of [x >= 0]. *)
Definition iroot (k x : Z) : Z :=
  iroot_search (S (Z.to_nat (Z.log2_up (x + 1)))) k x 0 (x + 1).

(** [xpToNext(level) = Math.round(120 + 35 * level + 10 * Math.pow(level, 1.35))].

    The rounded value is computed exactly.  For an integer [level >= 0],
    [Math.round(120 + 35 level + t)] is [120 + 35 level + n] where [n] is
    the largest integer with [n <= t + 1/2], that is with
    [2 n - 1 <= 20 * level ^ (27/20)], that is with
    [2 n - 1 <= iroot 20 (20^20 * level^27)].  No tie can occur
    ([(2n-1)^20] is odd and [20^20 * level^27] is even), so the only gap
    between this definition and the double precision evaluation would be a
    value of [10 * level^1.35] within rounding error of a half-integer;
    there is none for the levels [0 .. 2000].  [Math.pow] of a negative
    level is [NaN]; levels are at least 1 and the model is not meant
    below 0. *)
Definition xpToNext (level : Z) : Z :=
  120 + 35 * level + (iroot 20 (20 ^ 20 * level ^ 27) + 1) / 2.

Arguments xpToNext : simpl never.

(** [dailySoftCap] *)
Definition dailySoftCap (level : Z) : Z := 250 + level * 25.

(** The [while] loop of [applyXp]; it runs at most [seasonCap - level]
    times, which is the fuel [applyXp] gives it. *)
Fixpoint applyXp_loop (fuel : nat) (cap lvl xp : Z) : Z * Z :=
  match fuel with
  | O => (lvl, xp)
  | S fuel' =>
      if (xpToNext lvl <=? xp) && (lvl <? cap)
      then applyXp_loop fuel' cap (lvl + 1) (xp - xpToNext lvl)
      else (lvl, xp)
  end.

Definition applyXp (state : CharacterState) (xpGain : Z) : CharacterState :=
  let '(lvl, xp) :=
    applyXp_loop (Z.to_nat (seasonCap state - level state)) (seasonCap state)
                 (level state) (xpCurrent state + xpGain) in
  {| level := lvl;
     xpCurrent := xp;
     xpLifetime := xpLifetime state + xpGain;
     seasonCap := seasonCap state;
     prestigeRank := prestigeRank state;
     legacyPoints := legacyPoints state;
     stats := stats state |}.

(** The [while] loop of [removeXp]; it runs at most [level - 1] times. *)
Fixpoint removeXp_loop (fuel : nat) (lvl xp : Z) : Z * Z :=
  match fuel with
  | O => (lvl, xp)
  | S fuel' =>
      if (xp <? 0) && (1 <? lvl)
      then removeXp_loop fuel' (lvl - 1) (xp + xpToNext (lvl - 1))
      else (lvl, xp)
  end.

Definition removeXp (state : CharacterState) (xpLoss : Z) : CharacterState :=
  let '(lvl, xp) :=
    removeXp_loop (Z.to_nat (level state - 1)) (level state)
                  (xpCurrent state - Z.max 0 xpLoss) in
  {| level := lvl;
     xpCurrent := if xp <? 0 then 0 else xp;
     xpLifetime := Z.max 0 (xpLifetime state - Z.max 0 xpLoss);
     seasonCap := seasonCap state;
     prestigeRank := prestigeRank state;
     legacyPoints := legacyPoints state;
     stats := stats state |}.

Definition prestige (state : CharacterState) : CharacterState :=
  let legacyGain := Z.max 0 ((level state - 20) / 5) in
  {| level := 1;
     xpCurrent := 0;
     xpLifetime := xpLifetime state;
     seasonCap := seasonCap state;
     prestigeRank := prestigeRank state + 1;
     legacyPoints := legacyPoints state + legacyGain;
     stats := stats state |}.

(** The character created at first launch ([data/bootstrap.ts]). *)
Definition baseCharacter : CharacterState :=
  {| level := 1;
     xpCurrent := 0;
     xpLifetime := 0;
     seasonCap := 60;
     prestigeRank := 0;
     legacyPoints := 0;
     stats := fun _ => 5 |}.

(** The invariant of [CharacterState]. *)
Definition xp_invariant (s : CharacterState) : Prop :=
  level s < seasonCap s -> xpCurrent s < xpToNext (level s).

(** *** Stat gains *)

Record Category : Type := mkCategory {
  category_id : string;
  category_name : string;
  (** [Partial<Record<StatKey, number>>]: the entries, in insertion order *)
  statWeights : list (StatKey * Q);
  xpMultiplier : Q;
  isDefault : bool
}.

(** A stable sort, as [Array.prototype.sort] is: [le a b] says that the
    comparator does not put [b] before [a] ([cmp(a, b) <= 0]). *)
Section StableSort.
Context {A : Type} (le : A -> A -> bool).

Fixpoint insert_sorted (x : A) (l : list A) : list A :=
  match l with
  | [] => [x]
  | y :: l' => if le x y then x :: y :: l' else y :: insert_sorted x l'
  end.

Definition stable_sort (l : list A) : list A :=
  fold_right insert_sorted [] l.
End StableSort.

(** [Math.round] on a rational: the nearest integer, ties towards [+oo]. *)
Definition js_round (q : Q) : Z := Qfloor (q + (1 # 2)).

(** [value > 0] *)
Definition Qpositive (q : Q) : bool := negb (Qle_bool q 0).

Definition normalizeStatWeights (weights : list (StatKey * Q)) : list (StatKey * Q) :=
  let entries := List.filter (fun entry => Qpositive (snd entry)) weights in
  let total := fold_left (fun sum entry => (sum + snd entry)%Q) entries 0%Q in
  if Qle_bool total 0 then []
  else List.map (fun entry => (fst entry, (snd entry / total)%Q)) entries.

Definition priorityMultiplier (p : Priority) : Q :=
  match p with low => 85 # 100 | medium => 1 | high => 115 # 100 end.

(** The [for] loop of [calculateTaskStatGain]: the gains and [allocated]. *)
Definition allocate_step (totalPoints : Z) (acc : StatDelta * Z)
    (entry : StatKey * Q) : StatDelta * Z :=
  let points := Qfloor (inject_Z totalPoints * snd entry) in
  if points <=? 0 then acc
  else (sd_set (fst acc) (fst entry) (sd_get (fst acc) (fst entry) + points),
        snd acc + points).

(** [weights.slice().sort((a, b) => b[1] - a[1])[0]?.[0] ?? "discipline"] *)
Definition primaryStat (weights : list (StatKey * Q)) : StatKey :=
  match stable_sort (fun a b => Qle_bool (snd b) (snd a)) weights with
  | entry :: _ => fst entry
  | [] => discipline
  end.

Definition basePointsOf (xpGain : Z) (priority : Priority) : Z :=
  let scaledPoints := (inject_Z xpGain / 36 * priorityMultiplier priority)%Q in
  Z.max 1 (Z.min 4 (js_round scaledPoints)).

Definition levelBonusOf (levelUps : Z) : Z := Z.max 0 (Z.min 2 levelUps).

Definition calculateTaskStatGain (xpGain : Z) (priority : Priority)
    (category : option Category) (levelUps : Z) : StatDelta :=
  let basePoints := basePointsOf xpGain priority in
  let levelBonus := levelBonusOf levelUps in
  let totalPoints := basePoints + levelBonus in
  let weights :=
    normalizeStatWeights
      (match category with Some c => statWeights c | None => [] end) in
  match weights with
  | [] => sd_set sd_empty discipline totalPoints
  | _ :: _ =>
      let '(statGains, allocated) :=
        fold_left (allocate_step totalPoints) weights (sd_empty, 0) in
      let remainder := totalPoints - allocated in
      if 0 <? remainder
      then
        let primary := primaryStat weights in
        sd_set statGains primary (sd_get statGains primary + remainder)
      else statGains
  end.

(** The entries of a [StatDelta] are visited key by key; the keys of an
    object are distinct, so the visiting order does not matter and the
    declaration order is used. *)
Definition applyStatGains (state : CharacterState) (gains : StatDelta) : CharacterState :=
  let nextStats :=
    fold_left
      (fun next stat =>
         match gains stat with
         | Some delta =>
             if delta <=? 0 then next
             else stats_set next stat (next stat + delta)
         | None => next
         end)
      all_stats (stats state) in
  {| level := level state;
     xpCurrent := xpCurrent state;
     xpLifetime := xpLifetime state;
     seasonCap := seasonCap state;
     prestigeRank := prestigeRank state;
     legacyPoints := legacyPoints state;
     stats := nextStats |}.

Definition revertStatGains (state : CharacterState) (gains : StatDelta) : CharacterState :=
  let nextStats :=
    fold_left
      (fun next stat =>
         match gains stat with
         | Some delta =>
             if delta <=? 0 then next
             else stats_set next stat (Z.max 1 (next stat - delta))
         | None => next
         end)
      all_stats (stats state) in
  {| level := level state;
     xpCurrent := xpCurrent state;
     xpLifetime := xpLifetime state;
     seasonCap := seasonCap state;
     prestigeRank := prestigeRank state;
     legacyPoints := legacyPoints state;
     stats := nextStats |}.

(** The points a [StatDelta] hands out in total. *)
Definition sd_total (d : StatDelta) : Z :=
  fold_right (fun k acc => sd_get d k + acc) 0 all_stats.

(** What the floor-based loop gives stat [k]: the sum of the positive
    [floor(totalPoints * weight)] over the entries of [k]. *)
Definition floorShare (totalPoints : Z) (weights : list (StatKey * Q)) (k : StatKey) : Z :=
  fold_right
    (fun entry acc =>
       let points := Qfloor (inject_Z totalPoints * snd entry) in
       (if decide (fst entry = k) then (if points <=? 0 then 0 else points) else 0) + acc)
    0 weights.

(** The points the floor-based loop hands out overall. *)
Definition allocSum (totalPoints : Z) (weights : list (StatKey * Q)) : Z :=
  fold_right
    (fun entry acc =>
       let points := Qfloor (inject_Z totalPoints * snd entry) in
       (if points <=? 0 then 0 else points) + acc)
    0 weights.

(** Sum of the values of a list of entries. *)
Definition weightSum (entries : list (StatKey * Q)) : Q :=
  fold_right (fun entry acc => (snd entry + acc)%Q) 0%Q entries.

(** ** Calendar days and timestamps ([date-fns], [Date])

    The program writes calendar days with [format(date, "yyyy-MM-dd")] and
    instants with [Date.prototype.toISOString()]
    ([YYYY-MM-DDTHH:mm:ss.sssZ]); these are the two shapes the parsers
    below accept.  Any other text is an Invalid Date ([None]); a
    comparison with its [NaN] time value is false. *)

Definition digitValue (c : ascii) : option Z :=
  let n := Z.of_nat (nat_of_ascii c) in
  if (48 <=? n) && (n <=? 57) then Some (n - 48) else None.

(** The number written by a list of decimal digits. *)
Fixpoint digitsValue (acc : Z) (cs : list ascii) : option Z :=
  match cs with
  | [] => Some acc
  | c :: cs' =>
      match digitValue c with
      | Some d => digitsValue (10 * acc + d) cs'
      | None => None
      end
  end.

Definition isLeapYear (y : Z) : bool :=
  ((y mod 4 =? 0) && negb (y mod 100 =? 0)) || (y mod 400 =? 0).

Definition daysInMonth (y m : Z) : Z :=
  if m =? 2 then (if isLeapYear y then 29 else 28)
  else if (m =? 4) || (m =? 6) || (m =? 9) || (m =? 11) then 30
  else 31.

(** Days from 1970-01-01 to the day [y-m-d] of the proleptic Gregorian
    calendar. *)
Definition daysFromCivil (y m d : Z) : Z :=
  let y' := if m <=? 2 then y - 1 else y in
  let era := y' / 400 in
  let yoe := y' - era * 400 in
  let doy := (153 * (if 2 <? m then m - 3 else m + 9) + 2) / 5 + d - 1 in
  let doe := yoe * 365 + yoe / 4 - yoe / 100 + doy in
  era * 146097 + doe - 719468.

(** The day [(y, m, d)] that lies [z] days after 1970-01-01. *)
Definition civilFromDays (z : Z) : Z * Z * Z :=
  let z' := z + 719468 in
  let era := z' / 146097 in
  let doe := z' - era * 146097 in
  let yoe := (doe - doe / 1460 + doe / 36524 - doe / 146096) / 365 in
  let doy := doe - (365 * yoe + yoe / 4 - yoe / 100) in
  let mp := (5 * doy + 2) / 153 in
  let d := doy - (153 * mp + 2) / 5 + 1 in
  let m := if mp <? 10 then mp + 3 else mp - 9 in
  ((if m <=? 2 then yoe + era * 400 + 1 else yoe + era * 400), m, d).

Definition validDay (y m d : Z) : bool :=
  (1 <=? m) && (m <=? 12) && (1 <=? d) && (d <=? daysInMonth y m).

(** [parseISO] on a calendar day [yyyy-MM-dd]: its day number. *)
Definition parseISO (text : string) : option Z :=
  match list_ascii_of_string text with
  | [y1; y2; y3; y4; "-"%char; m1; m2; "-"%char; d1; d2] =>
      match digitsValue 0 [y1; y2; y3; y4], digitsValue 0 [m1; m2],
            digitsValue 0 [d1; d2] with
      | Some y, Some m, Some d =>
          if validDay y m d then Some (daysFromCivil y m d) else None
      | _, _, _ => None
      end
  | _ => None
  end.

(** [differenceInCalendarDays(later, earlier)]; [None] is [NaN]. *)
Definition differenceInCalendarDays (later earlier : option Z) : option Z :=
  match later, earlier with
  | Some a, Some b => Some (a - b)
  | _, _ => None
  end.

(** [parseISO(text).getTime()] on an instant [YYYY-MM-DDTHH:mm:ss.sssZ]:
    milliseconds since the epoch. *)
Definition parseInstant (text : string) : option Z :=
  match list_ascii_of_string text with
  | [y1; y2; y3; y4; "-"%char; m1; m2; "-"%char; d1; d2; "T"%char;
     h1; h2; ":"%char; n1; n2; ":"%char; s1; s2; "."%char; f1; f2; f3; "Z"%char] =>
      match digitsValue 0 [y1; y2; y3; y4], digitsValue 0 [m1; m2],
            digitsValue 0 [d1; d2], digitsValue 0 [h1; h2],
            digitsValue 0 [n1; n2], digitsValue 0 [s1; s2],
            digitsValue 0 [f1; f2; f3] with
      | Some y, Some m, Some d, Some h, Some n, Some s, Some f =>
          if validDay y m d && (h <=? 23) && (n <=? 59) && (s <=? 59)
          then Some ((((daysFromCivil y m d * 24 + h) * 60 + n) * 60 + s) * 1000 + f)
          else None
      | _, _, _, _, _, _, _ => None
      end
  | _ => None
  end.

Definition digitChar (d : Z) : ascii := ascii_of_nat (Z.to_nat (48 + d mod 10)).

Definition pad2 (n : Z) : string :=
  String (digitChar (n / 10)) (String (digitChar n) EmptyString).

Definition pad4 (n : Z) : string :=
  String (digitChar (n / 1000)) (String (digitChar (n / 100)) (pad2 n)).

(** [format(day, "yyyy-MM-dd")], for the years 0 .. 9999. *)
Definition formatDay (day : Z) : string :=
  let '(y, m, d) := civilFromDays day in
  (pad4 y ++ "-" ++ pad2 m ++ "-" ++ pad2 d)%string.

(** ** Streak tracker ([domain/streaks.ts]) *)

Record StreakState : Type := mkStreak {
  taskDays : Z;
  focusDays : Z;
  lastTaskDay : option string;
  lastFocusDay : option string
}.

(** [!lastDay]: [undefined] and the empty string are falsy. *)
Definition updateDayStreak (current : Z) (lastDay : option string) (today : string) : Z :=
  match lastDay with
  | None => 1
  | Some EmptyString => 1
  | Some last =>
      match differenceInCalendarDays (parseISO today) (parseISO last) with
      | Some delta =>
          if delta =? 0 then current
          else if delta =? 1 then current + 1
          else 1
      | None => 1
      end
  end.

Definition updateTaskStreak (streak : StreakState) (today : string) : StreakState :=
  {| taskDays := updateDayStreak (taskDays streak) (lastTaskDay streak) today;
     focusDays := focusDays streak;
     lastTaskDay := Some today;
     lastFocusDay := lastFocusDay streak |}.

Definition updateFocusStreak (streak : StreakState) (today : string) : StreakState :=
  {| taskDays := taskDays streak;
     focusDays := updateDayStreak (focusDays streak) (lastFocusDay streak) today;
     lastTaskDay := lastTaskDay streak;
     lastFocusDay := Some today |}.

(** The streak row the store starts from:
    [{ id: "main", taskDays: 0, focusDays: 0 }]. *)
Definition emptyStreak : StreakState :=
  {| taskDays := 0; focusDays := 0; lastTaskDay := None; lastFocusDay := None |}.

(** [delta], the calendar-day difference [updateDayStreak] computes. *)
Definition dayDelta (today last : string) : option Z :=
  differenceInCalendarDays (parseISO today) (parseISO last).

(** ** Events and the snapshot builder ([events/types.ts],
    [snapshot/buildSnapshot.ts]) *)

Inductive EventType : Type :=
  | TaskCreated | TaskUpdated | TaskCompleted | TaskReopened | TaskDeleted
  | FocusSessionStarted | FocusSessionEnded | QuestGenerated | QuestCompleted
  | AchievementProgressed | BadgeUnlocked | PerkUnlocked | LevelUp
  | PrestigeTriggered | CategoryCreated | SettingsUpdated.

#[global] Instance EventType_eq_dec : EqDecision EventType.
Proof. solve_decision. Defined.

(** A scalar held by a payload field. *)
Inductive JsValue : Type :=
  | JsString (s : string)
  | JsNumber (n : Z).

(** The payload of an event is opaque to the log: an object, read by
    field name.  A payload that is not an object has no field. *)
Record AppEvent : Type := mkEvent {
  eventId : string;
  schemaVersion : Z;
  eventType : EventType;
  occurredAt : string;
  userId : string;
  payload : gmap string JsValue
}.

Record SnapshotRange : Type := mkRange {
  range_from : string;
  range_to : string
}.

Record DailyAggregate : Type := mkDaily {
  date : string;
  focusMinutes : Z;
  completions : Z;
  xpGained : Z;
  (** [Record<string, number>]: the entries, in insertion order *)
  categoryFocusMinutes : list (string * Z)
}.

Inductive QuestKind : Type := daily | weekly | storyline | boss.
Inductive ObjectiveType : Type := focus_minutes | task_completions | category_balance.
Inductive QuestStatus : Type := active | complete.

#[global] Instance QuestStatus_eq_dec : EqDecision QuestStatus.
Proof. solve_decision. Defined.

Record Reward : Type := mkReward {
  reward_xp : Z;
  reward_currency : option Z;
  reward_cosmeticId : option string
}.

Record Quest : Type := mkQuest {
  quest_id : string;
  quest_kind : QuestKind;
  quest_title : string;
  objectiveType : ObjectiveType;
  objectiveCategoryId : option string;
  target : Z;
  progress : Z;
  reward : Reward;
  expiresAt : option string;
  quest_status : QuestStatus
}.

Record CategoryShare : Type := mkShare {
  share_category : string;
  percentage : Z
}.

Record SocialSnapshot : Type := mkSnapshot {
  snap_level : Z;
  snap_prestigeRank : Z;
  xpToday : Z;
  xpWeek : Z;
  focusMinutesToday : Z;
  focusMinutesWeek : Z;
  completionsToday : Z;
  completionsWeek : Z;
  taskStreak : Z;
  focusStreak : Z;
  topCategoriesWeek : list CategoryShare;
  lastBadgeUnlocked : option JsValue;
  activeQuestProgressPercent : Z
}.

Record SnapshotInput : Type := mkSnapshotInput {
  input_range : SnapshotRange;
  input_character : option CharacterState;
  input_streaks : option StreakState;
  input_daily : list DailyAggregate;
  input_events : list AppEvent;
  input_quests : list Quest
}.

(** [a <= b] on strings, by code units, as [<=] and [>=] compare them. *)
Definition string_leb (a b : string) : bool :=
  match String.compare a b with Gt => false | _ => true end.

Definition isInRange (dateIso : string) (range : SnapshotRange) : bool :=
  match parseInstant dateIso, parseInstant (range_from range),
        parseInstant (range_to range) with
  | Some value, Some lo, Some hi => (lo <=? value) && (value <=? hi)
  | _, _, _ => false
  end.

(** [map[key] = (map[key] ?? 0) + value] on an object used as a map: an
    existing key keeps its place, a new key goes last. *)
Fixpoint record_add (key : string) (value : Z) (map : list (string * Z)) : list (string * Z) :=
  match map with
  | [] => [(key, 0 + value)]
  | (k, v) :: map' =>
      if String.eqb k key then (k, v + value) :: map'
      else (k, v) :: record_add key value map'
  end.

Definition totalCategory (aggregates : list DailyAggregate) : list (string * Z) :=
  fold_left
    (fun map d =>
       fold_left (fun map entry => record_add (fst entry) (snd entry) map)
                 (categoryFocusMinutes d) map)
    aggregates [].

(** [Math.round((minutes / categoryTotalMinutes) * 100)], 0 for an empty total *)
Definition sharePercentage (categoryTotalMinutes minutes : Z) : Z :=
  if categoryTotalMinutes =? 0 then 0
  else js_round (inject_Z minutes / inject_Z categoryTotalMinutes * 100).

Definition topCategories (totalCategoryWeek : list (string * Z)) : list CategoryShare :=
  let categoryTotalMinutes :=
    fold_left (fun sum entry => sum + snd entry) totalCategoryWeek 0 in
  List.map
    (fun entry =>
       {| share_category := fst entry;
          percentage := sharePercentage categoryTotalMinutes (snd entry) |})
    (firstn 3 (stable_sort (fun a b => snd b <=? snd a) totalCategoryWeek)).

(** The most recent [BadgeUnlocked] event of the range: the in-range
    events sorted by [b.occurredAt.localeCompare(a.occurredAt)], first one.
    On timestamps of one shape the locale order is the order of the
    strings. *)
Definition lastBadgeOf (events : list AppEvent) (range : SnapshotRange) : option AppEvent :=
  head
    (stable_sort (fun a b => string_leb (occurredAt b) (occurredAt a))
       (List.filter
          (fun e => bool_decide (eventType e = BadgeUnlocked)
                    && isInRange (occurredAt e) range)
          events)).

Definition questRatio (q : Quest) : Q :=
  Qmin 1 (inject_Z (progress q) / inject_Z (Z.max 1 (target q))).

Definition questProgressPercent (quests : list Quest) : Z :=
  match quests with
  | [] => 0
  | _ :: _ =>
      js_round
        (fold_left (fun sum q => (sum + questRatio q)%Q) quests 0%Q
         * (100 / inject_Z (Z.of_nat (List.length quests))))
  end.

(** [buildSnapshotFromData]; [now] is the calendar day [new Date()] falls
    on. *)
Definition buildSnapshotFromData (now : Z) (input : SnapshotInput) : SocialSnapshot :=
  let today := formatDay now in
  let weekFrom := formatDay (now - 6) in
  let todayAggregate :=
    List.find (fun d => String.eqb (date d) today) (input_daily input) in
  let weekAggregates :=
    List.filter (fun d => string_leb weekFrom (date d) && string_leb (date d) today)
                (input_daily input) in
  let totalCategoryWeek := totalCategory weekAggregates in
  let lastBadge := lastBadgeOf (input_events input) (input_range input) in
  {| snap_level := match input_character input with Some c => level c | None => 1 end;
     snap_prestigeRank :=
       match input_character input with Some c => prestigeRank c | None => 0 end;
     xpToday := match todayAggregate with Some d => xpGained d | None => 0 end;
     xpWeek := fold_left (fun sum d => sum + xpGained d) weekAggregates 0;
     focusMinutesToday :=
       match todayAggregate with Some d => focusMinutes d | None => 0 end;
     focusMinutesWeek := fold_left (fun sum d => sum + focusMinutes d) weekAggregates 0;
     completionsToday :=
       match todayAggregate with Some d => completions d | None => 0 end;
     completionsWeek := fold_left (fun sum d => sum + completions d) weekAggregates 0;
     taskStreak := match input_streaks input with Some s => taskDays s | None => 0 end;
     focusStreak := match input_streaks input with Some s => focusDays s | None => 0 end;
     topCategoriesWeek := topCategories totalCategoryWeek;
     lastBadgeUnlocked :=
       match lastBadge with
       | Some e => payload e !! "achievementId"%string
       | None => None
       end;
     activeQuestProgressPercent := questProgressPercent (input_quests input) |}.

(** *** [JSON.stringify] of a snapshot *)

Definition doubleQuote : ascii := ascii_of_nat 34.
Definition backslash : ascii := ascii_of_nat 92.

Definition hexDigit (n : nat) : ascii :=
  ascii_of_nat (if Nat.ltb n 10 then 48 + n else 87 + n).

(** A code unit inside a JSON string. *)
Definition jsonEscape (c : ascii) : string :=
  let n := nat_of_ascii c in
  if Nat.eqb n 34 then String backslash (String doubleQuote EmptyString)
  else if Nat.eqb n 92 then String backslash (String backslash EmptyString)
  else if Nat.eqb n 8 then String backslash "b"
  else if Nat.eqb n 12 then String backslash "f"
  else if Nat.eqb n 10 then String backslash "n"
  else if Nat.eqb n 13 then String backslash "r"
  else if Nat.eqb n 9 then String backslash "t"
  else if Nat.ltb n 32
       then String backslash
              (String "u" (String "0" (String "0"
                 (String (hexDigit (Nat.div n 16))
                    (String (hexDigit (Nat.modulo n 16)) EmptyString)))))
  else String c EmptyString.

Fixpoint jsonEscapeAll (s : string) : string :=
  match s with
  | EmptyString => EmptyString
  | String c s' => (jsonEscape c ++ jsonEscapeAll s')%string
  end.

Definition jsonString (s : string) : string :=
  (String doubleQuote (jsonEscapeAll s) ++ String doubleQuote EmptyString)%string.

Definition jsonNumber (n : Z) : string := NilZero.string_of_int (Z.to_int n).

Definition jsonValue (v : JsValue) : string :=
  match v with
  | JsString s => jsonString s
  | JsNumber n => jsonNumber n
  end.

Definition jsonField (name value : string) : string :=
  (jsonString name ++ ":" ++ value)%string.

Fixpoint jsonJoin (parts : list string) : string :=
  match parts with
  | [] => EmptyString
  | [p] => p
  | p :: rest => (p ++ "," ++ jsonJoin rest)%string
  end.

Definition jsonShare (s : CategoryShare) : string :=
  ("{" ++ jsonJoin [jsonField "category" (jsonString (share_category s));
                    jsonField "percentage" (jsonNumber (percentage s))] ++ "}")%string.

(** [JSON.stringify(snapshot)]: the fields in the order the object literal
    lists them; an [undefined] field is left out. *)
Definition stringifySnapshot (s : SocialSnapshot) : string :=
  ("{" ++
   jsonJoin
     ([jsonField "level" (jsonNumber (snap_level s));
       jsonField "prestigeRank" (jsonNumber (snap_prestigeRank s));
       jsonField "xpToday" (jsonNumber (xpToday s));
       jsonField "xpWeek" (jsonNumber (xpWeek s));
       jsonField "focusMinutesToday" (jsonNumber (focusMinutesToday s));
       jsonField "focusMinutesWeek" (jsonNumber (focusMinutesWeek s));
       jsonField "completionsToday" (jsonNumber (completionsToday s));
       jsonField "completionsWeek" (jsonNumber (completionsWeek s));
       jsonField "taskStreak" (jsonNumber (taskStreak s));
       jsonField "focusStreak" (jsonNumber (focusStreak s));
       jsonField "topCategoriesWeek"
         ("[" ++ jsonJoin (List.map jsonShare (topCategoriesWeek s)) ++ "]")]
      ++ match lastBadgeUnlocked s with
         | Some v => [jsonField "lastBadgeUnlocked" (jsonValue v)]
         | None => []
         end
      ++ [jsonField "activeQuestProgressPercent"
            (jsonNumber (activeQuestProgressPercent s))])
   ++ "}")%string.

(** [text.includes(needle)] *)
Fixpoint includes (needle text : string) : bool :=
  String.prefix needle text ||
  match text with
  | EmptyString => false
  | String _ text' => includes needle text'
  end.

(** The input of the repository's snapshot test. *)
Definition testCharacter : CharacterState :=
  {| level := 12; xpCurrent := 44; xpLifetime := 1500; seasonCap := 60;
     prestigeRank := 1; legacyPoints := 3;
     stats := fun k =>
       match k with
       | strength => 7 | vitality => 8 | intellect => 9
       | creativity => 6 | discipline => 10 | social => 5
       end |}.

Definition testQuest : Quest :=
  {| quest_id := "q1"; quest_kind := daily; quest_title := "Quest";
     objectiveType := task_completions; objectiveCategoryId := None;
     target := 10; progress := 5;
     reward := {| reward_xp := 50; reward_currency := None; reward_cosmeticId := None |};
     expiresAt := None; quest_status := active |}.

Definition testInput (now : Z) (badgePayload : gmap string JsValue) : SnapshotInput :=
  {| input_range := {| range_from := "2026-02-10T00:00:00.000Z";
                       range_to := "2026-02-14T23:59:59.999Z" |};
     input_character := Some testCharacter;
     input_streaks :=
       Some {| taskDays := 4; focusDays := 3;
               lastTaskDay := Some "2026-02-14"%string;
               lastFocusDay := Some "2026-02-14"%string |};
     input_daily :=
       [{| date := formatDay now; focusMinutes := 90; completions := 6;
           xpGained := 180;
           categoryFocusMinutes := [("learning"%string, 60); ("health"%string, 30)] |}];
     input_events :=
       [{| eventId := "1"; schemaVersion := 1; eventType := BadgeUnlocked;
           occurredAt := "2026-02-13T09:00:00.000Z"; userId := "u1";
           payload := badgePayload |}];
     input_quests := [testQuest] |}.

Definition testPayload : gmap string JsValue :=
  {[ "achievementId"%string := JsString "consistency-path-a-silver";
     "rawTaskTitle"%string := JsString "should-not-be-exported" ]}.

(** Two events that differ at most in payload fields other than
    [achievementId]. *)
Definition sameButOtherPayloadFields (e e' : AppEvent) : Prop :=
  eventId e = eventId e' /\
  schemaVersion e = schemaVersion e' /\
  eventType e = eventType e' /\
  occurredAt e = occurredAt e' /\
  userId e = userId e' /\
  payload e !! "achievementId"%string = payload e' !! "achievementId"%string.

(** Two inputs of the snapshot builder that differ at most in the other
    payload fields of their events. *)
Definition sameButOtherPayloadFieldsInput (i i' : SnapshotInput) : Prop :=
  input_range i = input_range i' /\
  input_character i = input_character i' /\
  input_streaks i = input_streaks i' /\
  input_daily i = input_daily i' /\
  input_quests i = input_quests i' /\
  Forall2 sameButOtherPayloadFields (input_events i) (input_events i').

(** The input with every payload cut down to its [achievementId] field. *)
Definition withoutOtherPayloadFields (i : SnapshotInput) : SnapshotInput :=
  {| input_range := input_range i;
     input_character := input_character i;
     input_streaks := input_streaks i;
     input_daily := input_daily i;
     input_events :=
       List.map
         (fun e =>
            {| eventId := eventId e;
               schemaVersion := schemaVersion e;
               eventType := eventType e;
               occurredAt := occurredAt e;
               userId := userId e;
               payload :=
                 match payload e !! "achievementId"%string with
                 | Some v => {[ "achievementId"%string := v ]}
                 | None => ∅
                 end |})
         (input_events i);
     input_quests := input_quests i |}.

(** Every category bucket of every aggregate holds minutes [>= 0], as
    [upsertDailyAggregate] leaves them (it only adds minutes [> 0]). *)
Definition nonnegativeMinutes (dailies : list DailyAggregate) : Prop :=
  Forall (fun d => Forall (fun entry => 0 <= snd entry) (categoryFocusMinutes d)) dailies.

Definition sumMinutes (entries : list (string * Z)) : Z :=
  fold_right (fun entry acc => snd entry + acc) 0 entries.

Definition percentageSum (shares : list CategoryShare) : Z :=
  fold_right (fun s acc => percentage s + acc) 0 shares.

(** A week whose three categories hold 3, 3 and 2 minutes. *)
Definition roundingInput (now : Z) : SnapshotInput :=
  {| input_range := {| range_from := "2026-02-10T00:00:00.000Z";
                       range_to := "2026-02-14T23:59:59.999Z" |};
     input_character := None;
     input_streaks := None;
     input_daily :=
       [{| date := formatDay now; focusMinutes := 8; completions := 0;
           xpGained := 0;
           categoryFocusMinutes :=
             [("learning"%string, 3); ("health"%string, 3); ("admin"%string, 2)] |}];
     input_events := [];
     input_quests := [] |}.

(** A badge event whose payload repeats the title of the task that earned
    the badge next to the achievement id. *)
Definition echoPayload : gmap string JsValue :=
  {[ "achievementId"%string := JsString "weekly-review";
     "rawTaskTitle"%string := JsString "weekly-review" ]}.

(** The rounded shares of some entries, added up. *)
Definition shareSum (total : Z) (sel : list (string * Z)) : Z :=
  fold_right (fun entry acc => sharePercentage total (snd entry) + acc) 0 sel.

(** *** Task XP *)

Record TaskXpInput : Type := mkTaskXpInput {
  xi_priority : Priority;
  deadlineSoon : bool;
  completedSubtasks : Z;
  xi_estimateMinutes : Z;
  noveltyFactor : option Q;
  sameCategoryCountToday : Z;
  repeatedTitleCount24h : Z;
  dailyXpBefore : Z;
  xi_level : Z;
  categoryMultiplier : option Q
}.

Definition priorityBonusMap (p : Priority) : Z :=
  match p with low => 0 | medium => 8 | high => 16 end.

(** [base] of [calculateTaskXp] *)
Definition taskXpBase (input : TaskXpInput) : Z :=
  20 + priorityBonusMap (xi_priority input)
  + (if deadlineSoon input then 12 else 0)
  + Z.min 10 (completedSubtasks input * 2).

(** The value [calculateTaskXp] rounds, over the real numbers (the source
    computes it in double precision).  The estimate and the two counts are
    not negative. *)
Definition taskXpRaw (input : TaskXpInput) : R :=
  let durationFactor :=
    Rmax 0.6 (Rmin 1.8 (ln (1 + IZR (xi_estimateMinutes input) / 15))) in
  let novelty := match noveltyFactor input with Some f => Q2R f | None => 1%R end in
  let multiplier := match categoryMultiplier input with Some m => Q2R m | None => 1%R end in
  let xp := (IZR (taskXpBase input) * durationFactor * novelty * multiplier)%R in
  let xp := if xi_estimateMinutes input <? 5 then (xp * 0.35)%R else xp in
  let xp := (xp * (1 / (1 + 0.12 * IZR (sameCategoryCountToday input))))%R in
  let xp := (xp * Rpower 0.8 (IZR (repeatedTitleCount24h input)))%R in
  if dailySoftCap (xi_level input) <? dailyXpBefore input then (xp * 0.4)%R else xp.

(** [Math.max(1, Math.round(xp))] *)
Definition calculateTaskXp (input : TaskXpInput) : Z :=
  Z.max 1 (Int_part (taskXpRaw input + / 2)).

(** [calculateFocusXp(workMinutes, streakSessions)] *)
Definition calculateFocusXp (workMinutes streakSessions : Z) : Z :=
  let streakFactor := (1 + Qmin (15 # 100) (inject_Z streakSessions * (3 # 100)))%Q in
  Z.max 1 (js_round (inject_Z workMinutes * (12 # 10) * streakFactor)).

(** ** Entities of the store ([domain/types.ts]) *)

Inductive TaskStatus : Type := todo | done.

#[global] Instance TaskStatus_eq_dec : EqDecision TaskStatus.
Proof. solve_decision. Defined.

Record TaskSubtask : Type := mkSubtask {
  subtask_id : string;
  subtask_title : string;
  subtask_done : bool
}.

Inductive TaskRecurrence : Type :=
  | daily_interval (intervalDays : Z)
  | weekly_days (intervalWeeks : Z) (weekdays : list Z).

(** [Pick<TaskCompletionReward, "xpGain" | "statGains">] *)
Record CompletionReward : Type := mkCompletionReward {
  stored_xpGain : Z;
  stored_statGains : StatDelta
}.

Record TaskCompletionReward : Type := mkTaskCompletionReward {
  xpGain : Z;
  statGains : StatDelta;
  levelBefore : Z;
  levelAfter : Z
}.

Record Task : Type := mkTask {
  task_id : string;
  task_title : string;
  task_categoryId : string;
  task_status : TaskStatus;
  task_priority : Priority;
  deadlineAt : option string;
  recurrenceRule : option string;
  estimateMinutes : Z;
  tags : list string;
  notes : string;
  subtaskIds : list string;
  subtasks : option (list TaskSubtask);
  parentTaskId : option string;
  createdAt : string;
  updatedAt : string;
  completedAt : option string;
  recurrence : option TaskRecurrence;
  completionReward : option CompletionReward
}.

Inductive SessionType : Type := work | break | long_break.

#[global] Instance SessionType_eq_dec : EqDecision SessionType.
Proof. solve_decision. Defined.

Record FocusSession : Type := mkSession {
  session_id : string;
  session_label : option string;
  session_taskId : option string;
  session_categoryId : option string;
  startedAt : string;
  endedAt : option string;
  durationMin : Z;
  rewardMinutes : option Z;
  session_type : SessionType;
  session_completed : bool
}.

Inductive RequirementType : Type := focus_minutes_total | task_streak | tasks_completed.

Record Achievement : Type := mkAchievement {
  achievement_id : string;
  achievement_category : string;
  chain : string;
  tier : string;
  achievement_title : string;
  requirementType : RequirementType;
  requirementValue : Z
}.

Record AchievementProgress : Type := mkProgress {
  progress_id : string;
  progress_value : Z;
  unlockedAt : option string
}.

#[global] Instance AchievementProgress_eq_dec : EqDecision AchievementProgress.
Proof. solve_decision. Defined.

(** ** The store ([data/db.ts])

    One finite map per Dexie table, from the primary key to the row; the
    [character] and [streaks] tables hold the single row ["main"].  The
    event log is kept in the order of its appends. *)
Record Db : Type := mkDb {
  db_character : option CharacterState;
  db_streaks : option StreakState;
  db_tasks : gmap string Task;
  db_categories : gmap string Category;
  db_focusSessions : gmap string FocusSession;
  db_quests : gmap string Quest;
  db_achievements : gmap string Achievement;
  db_achievementProgress : gmap string AchievementProgress;
  db_analyticsDaily : gmap string DailyAggregate;
  db_eventLog : list AppEvent
}.

(** An operation on the store: it reads and writes tables and returns a
    value. *)
Definition Store (A : Type) : Type := Db -> A * Db.

Definition store_ret {A : Type} (a : A) : Store A := fun db => (a, db).

Definition store_bind {A B : Type} (m : Store A) (k : A -> Store B) : Store B :=
  fun db => let '(a, db') := m db in k a db'.

Notation "'let*' x ':=' m 'in' k" := (store_bind m (fun x => k))
  (at level 10, x name, m at level 100, k at level 200).

Notation "m ';;' k" := (store_bind m (fun _ => k))
  (at level 100, k at level 200, right associativity).

(** The rows of a table, as [toArray()] lists them. *)
Definition toArray {V : Type} (table : gmap string V) : list V :=
  (map_to_list table).*2.

(** [table.bulkPut(rows)]: each row goes under its own key, in order. *)
Definition bulkPut {V : Type} (key : V -> string) (rows : list V)
    (table : gmap string V) : gmap string V :=
  fold_left (fun t row => <[key row := row]> t) rows table.

(** [makeId()]: an identifier no row of the table has yet (a random UUID
    in the source). *)
Definition makeId {V : Type} (table : gmap string V) : string :=
  fresh (dom table).

Definition readDb : Store Db := fun db => (db, db).

Definition putCharacter (c : CharacterState) : Store unit := fun db =>
  (tt, mkDb (Some c) (db_streaks db) (db_tasks db) (db_categories db)
            (db_focusSessions db) (db_quests db) (db_achievements db)
            (db_achievementProgress db) (db_analyticsDaily db) (db_eventLog db)).

Definition putStreaks (s : StreakState) : Store unit := fun db =>
  (tt, mkDb (db_character db) (Some s) (db_tasks db) (db_categories db)
            (db_focusSessions db) (db_quests db) (db_achievements db)
            (db_achievementProgress db) (db_analyticsDaily db) (db_eventLog db)).

Definition writeTasks (f : gmap string Task -> gmap string Task) : Store unit := fun db =>
  (tt, mkDb (db_character db) (db_streaks db) (f (db_tasks db)) (db_categories db)
            (db_focusSessions db) (db_quests db) (db_achievements db)
            (db_achievementProgress db) (db_analyticsDaily db) (db_eventLog db)).

Definition writeQuests (f : gmap string Quest -> gmap string Quest) : Store unit := fun db =>
  (tt, mkDb (db_character db) (db_streaks db) (db_tasks db) (db_categories db)
            (db_focusSessions db) (f (db_quests db)) (db_achievements db)
            (db_achievementProgress db) (db_analyticsDaily db) (db_eventLog db)).

Definition writeAchievementProgress
    (f : gmap string AchievementProgress -> gmap string AchievementProgress)
    : Store unit := fun db =>
  (tt, mkDb (db_character db) (db_streaks db) (db_tasks db) (db_categories db)
            (db_focusSessions db) (db_quests db) (db_achievements db)
            (f (db_achievementProgress db)) (db_analyticsDaily db) (db_eventLog db)).

Definition putAnalyticsDaily (a : DailyAggregate) : Store unit := fun db =>
  (tt, mkDb (db_character db) (db_streaks db) (db_tasks db) (db_categories db)
            (db_focusSessions db) (db_quests db) (db_achievements db)
            (db_achievementProgress db) (<[date a := a]> (db_analyticsDaily db))
            (db_eventLog db)).

Definition addEvent (e : AppEvent) : Store unit := fun db =>
  (tt, mkDb (db_character db) (db_streaks db) (db_tasks db) (db_categories db)
            (db_focusSessions db) (db_quests db) (db_achievements db)
            (db_achievementProgress db) (db_analyticsDaily db)
            (db_eventLog db ++ [e])).

(** ** Event log ([events/eventService.ts]) *)

(** [appendEvent(userId, eventType, payload)] at the instant [now] *)
Definition appendEvent (now userId : string) (type : EventType)
    (fields : gmap string JsValue) : Store AppEvent :=
  let* db := readDb in
  let event :=
    {| eventId := fresh (list_to_set (List.map eventId (db_eventLog db)) : gset string);
       schemaVersion := 1;
       eventType := type;
       occurredAt := now;
       userId := userId;
       payload := fields |} in
  addEvent event;;
  store_ret event.

(** A string used as a condition: the empty string is falsy. *)
Definition truthy (s : option string) : bool :=
  match s with
  | None | Some EmptyString => false
  | Some _ => true
  end.

Record AggregateDelta : Type := mkDelta {
  delta_focusMinutes : option Z;
  delta_completions : option Z;
  delta_xpGained : option Z
}.

Definition orZero (v : option Z) : Z := match v with Some z => z | None => 0 end.

(** ** Projections, completion, reversal and the two sync passes
    ([analytics/projections.ts], [events/eventService.ts], [data/store.ts])

    Three functions of the sources stay parameters here.  [dayKey(iso)] is
    [format(new Date(iso), "yyyy-MM-dd")], the calendar day of an instant
    in the time zone of the device.  [nextRecurringDeadline] and
    [recurrenceLabel] are date arithmetic in that time zone and a display
    text; they only shape the task a recurring completion spawns. *)
Section StoreOperations.

Variable dayKey : string -> string.
Variable nextRecurringDeadline : Task -> string -> option string.
Variable recurrenceLabel : Task -> option string.

(** [upsertDailyAggregate(occurredAt, delta, categoryId, categoryFocusMinutes)] *)
Definition upsertDailyAggregate (occurredAt : string) (delta : AggregateDelta)
    (categoryId : option string) (categoryMinutes : Z) : Store unit :=
  let* db := readDb in
  let day := dayKey occurredAt in
  let aggregate :=
    match db_analyticsDaily db !! day with
    | Some existing => existing
    | None =>
        {| date := day; focusMinutes := 0; completions := 0; xpGained := 0;
           categoryFocusMinutes := [] |}
    end in
  putAnalyticsDaily
    {| date := date aggregate;
       focusMinutes := focusMinutes aggregate + orZero (delta_focusMinutes delta);
       completions := completions aggregate + orZero (delta_completions delta);
       xpGained := xpGained aggregate + orZero (delta_xpGained delta);
       categoryFocusMinutes :=
         match categoryId with
         | Some category =>
             if truthy categoryId && (0 <? categoryMinutes)
             then record_add category categoryMinutes (categoryFocusMinutes aggregate)
             else categoryFocusMinutes aggregate
         | None => categoryFocusMinutes aggregate
         end |}.

(** [applyTaskAnalytics(task, xp)] *)
Definition applyTaskAnalytics (task : Task) (xp : Z) : Store unit :=
  upsertDailyAggregate
    (match completedAt task with Some at_ => at_ | None => updatedAt task end)
    {| delta_focusMinutes := None; delta_completions := Some 1;
       delta_xpGained := Some xp |}
    None 0.

(** [applyFocusAnalytics(session, xp)] *)
Definition applyFocusAnalytics (session : FocusSession) (xp : Z) : Store unit :=
  upsertDailyAggregate
    (match endedAt session with Some at_ => at_ | None => startedAt session end)
    {| delta_focusMinutes := Some (durationMin session); delta_completions := None;
       delta_xpGained := Some xp |}
    (session_categoryId session) (durationMin session).

(** The argument [recordTaskCompletion] passes to [calculateTaskXp]: the
    two counts are taken over the stored tasks. *)
Definition taskXpInputOf (db : Db) (today : string) (task : Task)
    (character : CharacterState) : TaskXpInput :=
  let sameCategoryCountToday :=
    List.length
      (List.filter
         (fun t => bool_decide (task_categoryId t = task_categoryId task)
                   && match completedAt t with
                      | Some at_ => String.prefix today at_
                      | None => false
                      end)
         (toArray (db_tasks db))) in
  let repeatedTitleCount24h :=
    List.length
      (List.filter
         (fun t => bool_decide (task_title t = task_title task)
                   && match completedAt t with Some _ => true | None => false end)
         (toArray (db_tasks db))) in
  let category := db_categories db !! task_categoryId task in
  {| xi_priority := task_priority task;
     deadlineSoon := truthy (deadlineAt task);
     completedSubtasks := Z.of_nat (List.length (subtaskIds task));
     xi_estimateMinutes := estimateMinutes task;
     noveltyFactor := None;
     sameCategoryCountToday := Z.of_nat sameCategoryCountToday;
     repeatedTitleCount24h := Z.of_nat repeatedTitleCount24h;
     dailyXpBefore := 0;
     xi_level := level character;
     categoryMultiplier :=
       Some (match category with Some c => xpMultiplier c | None => 1%Q end) |}.

(** [recordTaskCompletion(userId, task)] at the instant [now] *)
Definition recordTaskCompletion (now userId : string) (task : Task)
    : Store (option TaskCompletionReward) :=
  let* db := readDb in
  let streak := match db_streaks db with Some s => s | None => emptyStreak end in
  match db_character db with
  | None => store_ret None
  | Some character =>
      let today := dayKey now in
      let category := db_categories db !! task_categoryId task in
      let xp := calculateTaskXp (taskXpInputOf db today task character) in
      let leveledCharacter := applyXp character xp in
      let levelUps := Z.max 0 (level leveledCharacter - level character) in
      let statGains := calculateTaskStatGain xp (task_priority task) category levelUps in
      let next := applyStatGains leveledCharacter statGains in
      putCharacter next;;
      putStreaks (updateTaskStreak streak today);;
      (let* _ :=
         appendEvent now userId TaskCompleted
           {[ "taskId"%string := JsString (task_id task);
              "xp"%string := JsNumber xp;
              "categoryId"%string := JsString (task_categoryId task) ]} in
       applyTaskAnalytics task xp);;
      store_ret
        (Some {| xpGain := xp; statGains := statGains;
                 levelBefore := level character; levelAfter := level next |})
  end.

(** [recordFocusSessionEnd(userId, session)] at the instant [now] *)
Definition recordFocusSessionEnd (now userId : string) (session : FocusSession)
    : Store unit :=
  if bool_decide (session_type session = work) then
    let* db := readDb in
    let streak := match db_streaks db with Some s => s | None => emptyStreak end in
    match db_character db with
    | None => store_ret tt
    | Some character =>
        let xp := calculateFocusXp (durationMin session) (focusDays streak) in
        putCharacter (applyXp character xp);;
        putStreaks (updateFocusStreak streak (dayKey now));;
        (let* _ :=
           appendEvent now userId FocusSessionEnded
             ({[ "sessionId"%string := JsString (session_id session);
                 "minutes"%string := JsNumber (durationMin session);
                 "xp"%string := JsNumber xp ]}
              ∪ match session_taskId session with
                | Some t => {[ "taskId"%string := JsString t ]}
                | None => ∅
                end
              ∪ match session_categoryId session with
                | Some c => {[ "categoryId"%string := JsString c ]}
                | None => ∅
                end) in
         applyFocusAnalytics session xp)
    end
  else store_ret tt.

(** *** Quest sync *)

(** What a sync pass recomputes from the task and session tables. *)
Record SyncTotals : Type := mkTotals {
  completedTaskCount : Z;
  completedFocusMinutes : Z;
  completedByCategory : gmap string Z
}.

Definition syncTotalsOf (db : Db) : SyncTotals :=
  let completedTasks :=
    List.filter (fun task => bool_decide (task_status task = done))
                (toArray (db_tasks db)) in
  {| completedTaskCount := Z.of_nat (List.length completedTasks);
     completedFocusMinutes :=
       fold_left (fun sum session => sum + durationMin session)
         (List.filter (fun session => bool_decide (session_type session = work))
                      (toArray (db_focusSessions db)))
         0;
     completedByCategory :=
       fold_left
         (fun acc task =>
            <[task_categoryId task :=
                match acc !! task_categoryId task with Some n => n | None => 0 end + 1]> acc)
         completedTasks ∅ |}.

Definition questRawProgress (totals : SyncTotals) (quest : Quest) : Z :=
  match objectiveType quest with
  | task_completions => completedTaskCount totals
  | focus_minutes => completedFocusMinutes totals
  | category_balance =>
      if truthy (objectiveCategoryId quest)
      then match objectiveCategoryId quest with
           | Some category =>
               match completedByCategory totals !! category with
               | Some n => n
               | None => 0
               end
           | None => 0
           end
      else Z.of_nat (size (completedByCategory totals))
  end.

(** [{ ...quest, progress, status }] *)
Definition withProgress (quest : Quest) (p : Z) (s : QuestStatus) : Quest :=
  {| quest_id := quest_id quest;
     quest_kind := quest_kind quest;
     quest_title := quest_title quest;
     objectiveType := objectiveType quest;
     objectiveCategoryId := objectiveCategoryId quest;
     target := target quest;
     progress := p;
     reward := reward quest;
     expiresAt := expiresAt quest;
     quest_status := s |}.

(** One turn of the loop over the quests: the row to write, if any. *)
Definition questUpdate (totals : SyncTotals) (quest : Quest) : option Quest :=
  let rawProgress := questRawProgress totals quest in
  let p := Z.min (target quest) rawProgress in
  let s := if target quest <=? p then complete else active in
  if negb (p =? progress quest) || negb (bool_decide (s = quest_status quest))
  then Some (withProgress quest p s)
  else None.

(** [updates], the rows [syncQuestProgress] writes *)
Definition questUpdates (db : Db) : list Quest :=
  omap (questUpdate (syncTotalsOf db)) (toArray (db_quests db)).

Definition syncQuestProgress : Store (list Quest) :=
  let* db := readDb in
  let quests := toArray (db_quests db) in
  let updates := questUpdates db in
  match updates with
  | [] => store_ret quests
  | _ :: _ =>
      writeQuests (bulkPut quest_id updates);;
      let* db' := readDb in
      store_ret (toArray (db_quests db'))
  end.

(** *** Achievement sync *)

(** [toProgressRecord(rows)] *)
Definition toProgressRecord (rows : list AchievementProgress)
    : gmap string AchievementProgress :=
  fold_left (fun acc row => <[progress_id row := row]> acc) rows ∅.

Definition achievementValue (db : Db) (achievement : Achievement) : Z :=
  match requirementType achievement with
  | tasks_completed =>
      Z.of_nat
        (List.length
           (List.filter (fun task => bool_decide (task_status task = done))
                        (toArray (db_tasks db))))
  | focus_minutes_total =>
      fold_left (fun sum session => sum + durationMin session)
        (List.filter (fun session => bool_decide (session_type session = work))
                     (toArray (db_focusSessions db)))
        0
  | task_streak => match db_streaks db with Some s => taskDays s | None => 0 end
  end.

(** One turn of the loop over the achievements: the row to write, if any. *)
Definition achievementRow (now : string) (db : Db)
    (progressMap : gmap string AchievementProgress) (achievement : Achievement)
    : option AchievementProgress :=
  let value := achievementValue db achievement in
  let existing := progressMap !! achievement_id achievement in
  let fresh_unlock :=
    if requirementValue achievement <=? value then Some now else None in
  let unlocked :=
    match existing with
    | Some row =>
        match unlockedAt row with
        | Some at_ => Some at_
        | None => fresh_unlock
        end
    | None => fresh_unlock
    end in
  let row := {| progress_id := achievement_id achievement;
                progress_value := value;
                unlockedAt := unlocked |} in
  match existing with
  | None => Some row
  | Some old =>
      if negb (progress_value old =? value)
         || negb (bool_decide (unlockedAt old = unlocked))
      then Some row
      else None
  end.

(** [nextRows], the rows [syncAchievementProgress] writes *)
Definition achievementRows (now : string) (db : Db) : list AchievementProgress :=
  omap (achievementRow now db (toProgressRecord (toArray (db_achievementProgress db))))
       (toArray (db_achievements db)).

Definition syncAchievementProgress (now : string)
    : Store (gmap string AchievementProgress) :=
  let* db := readDb in
  let nextRows := achievementRows now db in
  match nextRows with
  | [] => store_ret tt
  | _ :: _ => writeAchievementProgress (bulkPut progress_id nextRows)
  end;;
  let* db' := readDb in
  store_ret (toProgressRecord (toArray (db_achievementProgress db'))).

(** *** Completing and reopening a task *)

Definition withCompletion (task : Task) (s : TaskStatus) (completed : option string)
    (updated : string) (stored : option CompletionReward) : Task :=
  {| task_id := task_id task;
     task_title := task_title task;
     task_categoryId := task_categoryId task;
     task_status := s;
     task_priority := task_priority task;
     deadlineAt := deadlineAt task;
     recurrenceRule := recurrenceRule task;
     estimateMinutes := estimateMinutes task;
     tags := tags task;
     notes := notes task;
     subtaskIds := subtaskIds task;
     subtasks := subtasks task;
     parentTaskId := parentTaskId task;
     createdAt := createdAt task;
     updatedAt := updated;
     completedAt := completed;
     recurrence := recurrence task;
     completionReward := stored |}.

(** The subtasks of the next occurrence: fresh ids, nothing done. *)
Definition cloneSubtasks (original : list TaskSubtask) : list TaskSubtask :=
  List.map
    (fun pair => {| subtask_id := fst pair;
                    subtask_title := subtask_title (snd pair);
                    subtask_done := false |})
    (List.combine
       (fresh_list (List.length original)
          (list_to_set (List.map subtask_id original) : gset string))
       original).

(** The task a recurring completion spawns. *)
Definition nextOccurrence (completedTask : Task) (now newId : string) : Task :=
  let clonedSubtasks :=
    cloneSubtasks (match subtasks completedTask with Some l => l | None => [] end) in
  {| task_id := newId;
     task_title := task_title completedTask;
     task_categoryId := task_categoryId completedTask;
     task_status := todo;
     task_priority := task_priority completedTask;
     deadlineAt := nextRecurringDeadline completedTask now;
     recurrenceRule := recurrenceLabel completedTask;
     estimateMinutes := estimateMinutes completedTask;
     tags := tags completedTask;
     notes := notes completedTask;
     subtaskIds := List.map subtask_id clonedSubtasks;
     subtasks := Some clonedSubtasks;
     parentTaskId := parentTaskId completedTask;
     createdAt := now;
     updatedAt := now;
     completedAt := None;
     recurrence := recurrence completedTask;
     completionReward := None |}.

(** A completed task with a recurrence rule spawns its next occurrence,
    under a fresh id ([db.tasks.add]). *)
Definition spawnNextOccurrence (completedTask : Task) (now : string) : Store unit :=
  match recurrence completedTask with
  | Some _ =>
      let* db := readDb in
      writeTasks
        (insert (makeId (db_tasks db))
                (nextOccurrence completedTask now (makeId (db_tasks db))))
  | None => store_ret tt
  end.

(** The two sync passes that [completeTask] and [reopenTask] start
    together at their end.  They write different tables and neither reads
    what the other writes; they run one after the other here.  Refreshing
    the in-memory copy of the tables ([set]) is not part of the store. *)
Definition refreshProjections (now : string) : Store unit :=
  syncQuestProgress;;
  syncAchievementProgress now;;
  store_ret tt.

(** [completeTask(taskId)] at the instant [now]; [profile] is the user id
    of the loaded profile, if one is loaded. *)
Definition completeTask (now : string) (profile : option string) (taskId : string)
    : Store (option TaskCompletionReward) :=
  match profile with
  | None => store_ret None
  | Some userId =>
      let* db := readDb in
      match db_tasks db !! taskId with
      | None => store_ret None
      | Some task =>
          if bool_decide (task_status task = done) then store_ret None
          else
            let updated := withCompletion task done (Some now) now (completionReward task) in
            let* reward := recordTaskCompletion now userId updated in
            let stored :=
              match reward with
              | Some r =>
                  if 0 <? xpGain r
                  then Some {| stored_xpGain := xpGain r; stored_statGains := statGains r |}
                  else None
              | None => None
              end in
            let completedTask := withCompletion updated done (Some now) now stored in
            writeTasks (insert (task_id completedTask) completedTask);;
            spawnNextOccurrence completedTask now;;
            refreshProjections now;;
            store_ret reward
      end
  end.

(** [reopenTask(taskId)] at the instant [now] *)
Definition reopenTask (now : string) (profile : option string) (taskId : string)
    : Store unit :=
  match profile with
  | None => store_ret tt
  | Some userId =>
      let* db := readDb in
      match db_tasks db !! taskId with
      | None => store_ret tt
      | Some task =>
          if negb (bool_decide (task_status task = done)) then store_ret tt
          else
            match completionReward task with
            | Some stored =>
                match db_character db with
                | Some character =>
                    putCharacter
                      (revertStatGains (removeXp character (stored_xpGain stored))
                                       (stored_statGains stored))
                | None => store_ret tt
                end
            | None => store_ret tt
            end;;
            writeTasks
              (insert (task_id task) (withCompletion task todo None now None));;
            match completedAt task with
            | Some at_ =>
                if truthy (completedAt task)
                then
                  upsertDailyAggregate at_
                    {| delta_focusMinutes := None;
                       delta_completions := Some (-1);
                       delta_xpGained :=
                         Some (match completionReward task with
                               | Some stored =>
                                   if stored_xpGain stored =? 0 then 0
                                   else - stored_xpGain stored
                               | None => 0
                               end) |}
                    None 0
                else store_ret tt
            | None => store_ret tt
            end;;
            (let* _ :=
               appendEvent now userId TaskReopened
                 {[ "taskId"%string := JsString taskId ]} in
             store_ret tt);;
            refreshProjections now
      end
  end.

End StoreOperations.

(** The counters of a calendar day; a day without a row counts 0. *)
Definition completionsOn (db : Db) (day : string) : Z :=
  match db_analyticsDaily db !! day with Some a => completions a | None => 0 end.

Definition xpGainedOn (db : Db) (day : string) : Z :=
  match db_analyticsDaily db !! day with Some a => xpGained a | None => 0 end.

(** A table is keyed by the id of its rows. *)
Definition keyedBy {V : Type} (key : V -> string) (table : gmap string V) : Prop :=
  forall k row, table !! k = Some row -> key row = k.

(** The row of a quest after a sync pass: rewritten, or left as it is. *)
Definition questSynced (totals : SyncTotals) (quest : Quest) : Quest :=
  match questUpdate totals quest with
  | Some updated => updated
  | None => quest
  end.

(** The progress row a sync pass computes for an achievement, written or
    found already there. *)
Definition achievementSynced (now : string) (db : Db)
    (progressMap : gmap string AchievementProgress) (achievement : Achievement)
    : AchievementProgress :=
  let value := achievementValue db achievement in
  let fresh_unlock :=
    if requirementValue achievement <=? value then Some now else None in
  {| progress_id := achievement_id achievement;
     progress_value := value;
     unlockedAt :=
       match progressMap !! achievement_id achievement with
       | Some row =>
           match unlockedAt row with
           | Some at_ => Some at_
           | None => fresh_unlock
           end
       | None => fresh_unlock
       end |}.

(** The first run of the two passes, quests first. *)
Definition syncOnce (now : string) (db : Db) : Db :=
  (syncAchievementProgress now (syncQuestProgress db).2).2.

(** *** A small store, for concrete runs *)

(** [dayKey] on a device whose time zone is UTC: the date part of the
    instant. *)
Definition utcDayKey (iso : string) : string := String.substring 0 10 iso.

Definition healthCategory : Category :=
  {| category_id := "health"; category_name := "Health";
     statWeights := [(vitality, 8 # 10); (discipline, 2 # 10)];
     xpMultiplier := 11 # 10; isDefault := true |}.

(** A task with two open subtasks. *)
Definition sampleTask : Task :=
  {| task_id := "t1"; task_title := "Water plants"; task_categoryId := "health";
     task_status := todo; task_priority := medium;
     deadlineAt := None; recurrenceRule := None; estimateMinutes := 30;
     tags := []; notes := "balcony first";
     subtaskIds := ["s1"; "s2"]%string;
     subtasks :=
       Some [ {| subtask_id := "s1"; subtask_title := "fill can"; subtask_done := false |};
              {| subtask_id := "s2"; subtask_title := "pour"; subtask_done := false |} ];
     parentTaskId := None;
     createdAt := "2026-02-09T07:00:00.000Z";
     updatedAt := "2026-02-09T07:00:00.000Z";
     completedAt := None;
     recurrence := Some (daily_interval 1);
     completionReward := None |}.

(** A task of the same title, completed forty days earlier. *)
Definition staleTask : Task :=
  {| task_id := "t0"; task_title := "Water plants"; task_categoryId := "health";
     task_status := done; task_priority := medium;
     deadlineAt := None; recurrenceRule := None; estimateMinutes := 30;
     tags := []; notes := EmptyString;
     subtaskIds := []; subtasks := None; parentTaskId := None;
     createdAt := "2026-01-01T07:00:00.000Z";
     updatedAt := "2026-01-01T08:00:00.000Z";
     completedAt := Some "2026-01-01T08:00:00.000Z"%string;
     recurrence := None;
     completionReward := None |}.

Definition sampleAchievement : Achievement :=
  {| achievement_id := "a1"; achievement_category := "consistency";
     chain := "path-a"; tier := "bronze"; achievement_title := "First steps";
     requirementType := tasks_completed; requirementValue := 1 |}.

Definition sampleDb : Db :=
  {| db_character := Some baseCharacter;
     db_streaks := None;
     db_tasks := {[ "t1"%string := sampleTask; "t0"%string := staleTask ]};
     db_categories := {[ "health"%string := healthCategory ]};
     db_focusSessions := ∅;
     db_quests := {[ "q1"%string := testQuest ]};
     db_achievements := {[ "a1"%string := sampleAchievement ]};
     db_achievementProgress := ∅;
     db_analyticsDaily := ∅;
     db_eventLog := [] |}.

(** After the specification's words: the stored completions of tasks
    titled [title] whose completion instant lies within the 24 hours
    before [now]. *)
Definition sameTitleCompletionsWithin24h (db : Db) (title now : string) : Z :=
  Z.of_nat
    (List.length
       (List.filter
          (fun t =>
             bool_decide (task_title t = title)
             && match completedAt t with
                | Some at_ =>
                    match parseInstant at_, parseInstant now with
                    | Some a, Some n => (n - 24 * 60 * 60 * 1000 <=? a) && (a <=? n)
                    | _, _ => false
                    end
                | None => false
                end)
          (toArray (db_tasks db)))).

(** After the specification's words: the subtasks of the task that are
    marked done. *)
Definition doneSubtaskCount (task : Task) : Z :=
  Z.of_nat
    (List.length
       (List.filter subtask_done
          (match subtasks task with Some l => l | None => [] end))).

(** A character as the application keeps it: level at least 1, current XP
    not negative and below the threshold of the level (below the season
    cap), every stat at least 1. *)
Definition characterOk (c : CharacterState) : Prop :=
  1 <= level c /\ 0 <= xpCurrent c /\ xp_invariant c /\ forall k, 1 <= stats c k.

(** The character row of the store, if there is one, is well formed. *)
Definition storeCharacterOk (db : Db) : Prop :=
  forall c, db_character db = Some c -> characterOk c.

(** An operation on the store that keeps the character well formed. *)
Definition keepsCharacterOk {A : Type} (m : Store A) : Prop :=
  forall db, storeCharacterOk db -> storeCharacterOk (m db).2.

(** * Further parts of the program *)

(** ** Helpers for the properties of the progression engine *)

(** The XP that [count] levels cost, from level [from] upwards:
    [xpToNext from + xpToNext (from + 1) + ...]. *)
Fixpoint xpOfLevels (count : nat) (from : Z) : Z :=
  match count with
  | O => 0
  | S count' => xpToNext from + xpOfLevels count' (from + 1)
  end.

(** The XP it costs to rise from level [from] to level [to]. *)
Definition xpBetween (from to : Z) : Z := xpOfLevels (Z.to_nat (to - from)) from.

(** All six stats of a character, added up. *)
Definition statTotal (stats : StatKey -> Z) : Z :=
  fold_right (fun k acc => stats k + acc) 0 all_stats.

(** An input of [calculateTaskXp] with other values of the two
    anti-grinding counts. *)
Definition withCounts (input : TaskXpInput) (sameCategory repeatedTitle : Z) : TaskXpInput :=
  {| xi_priority := xi_priority input;
     deadlineSoon := deadlineSoon input;
     completedSubtasks := completedSubtasks input;
     xi_estimateMinutes := xi_estimateMinutes input;
     noveltyFactor := noveltyFactor input;
     sameCategoryCountToday := sameCategory;
     repeatedTitleCount24h := repeatedTitle;
     dailyXpBefore := dailyXpBefore input;
     xi_level := xi_level input;
     categoryMultiplier := categoryMultiplier input |}.

(** A factor of the XP formula that is absent or not negative. *)
Definition factorNonnegative (f : option Q) : Prop :=
  match f with Some q => (0 <= q)%Q | None => True end.

(** Every entry of a [StatDelta] is a positive number of points. *)
Definition positiveEntries (d : StatDelta) : Prop :=
  forall k v, d k = Some v -> 0 < v.

(** ** Quest generator ([domain/quests.ts]) *)

Record QuestSignals : Type := mkSignals {
  last14Days : list DailyAggregate;
  neglectedStats : list StatKey
}.

(** A stat key as the string it is in the source. *)
Definition statName (k : StatKey) : string :=
  match k with
  | strength => "strength"
  | vitality => "vitality"
  | intellect => "intellect"
  | creativity => "creativity"
  | discipline => "discipline"
  | social => "social"
  end.

Definition generateDailyQuests (signals : QuestSignals) : list Quest :=
  let totalFocus :=
    fold_left (fun sum d => sum + focusMinutes d) (last14Days signals) 0 in
  let avgFocus :=
    (inject_Z totalFocus
     / inject_Z (Z.max 1 (Z.of_nat (List.length (last14Days signals)))))%Q in
  [ {| quest_id := "dq-focus"; quest_kind := daily;
       quest_title := "Shadow Concentration";
       objectiveType := focus_minutes; objectiveCategoryId := None;
       target := Z.max 25 (js_round (avgFocus * (8 # 10)));
       progress := 0;
       reward := {| reward_xp := 55; reward_currency := None; reward_cosmeticId := None |};
       expiresAt := None; quest_status := active |};
    {| quest_id := "dq-complete"; quest_kind := daily;
       quest_title := "Clear the Gate";
       objectiveType := task_completions; objectiveCategoryId := None;
       target := 3;
       progress := 0;
       reward := {| reward_xp := 45; reward_currency := None; reward_cosmeticId := None |};
       expiresAt := None; quest_status := active |};
    {| quest_id := "dq-balance"; quest_kind := daily;
       quest_title :=
         ("Reinforce " ++
          statName (match neglectedStats signals with
                    | first :: _ => first
                    | [] => discipline
                    end))%string;
       objectiveType := category_balance; objectiveCategoryId := None;
       target := 1;
       progress := 0;
       reward := {| reward_xp := 60; reward_currency := None; reward_cosmeticId := None |};
       expiresAt := None; quest_status := active |} ].

Definition generateWeeklyQuests : list Quest :=
  [ {| quest_id := "wq-focus-200"; quest_kind := weekly;
       quest_title := "Deep Work Marathon";
       objectiveType := focus_minutes; objectiveCategoryId := None;
       target := 200;
       progress := 0;
       reward := {| reward_xp := 300; reward_currency := Some 120;
                    reward_cosmeticId := None |};
       expiresAt := None; quest_status := active |};
    {| quest_id := "wq-complete-20"; quest_kind := weekly;
       quest_title := "Hunter's Sweep";
       objectiveType := task_completions; objectiveCategoryId := None;
       target := 20;
       progress := 0;
       reward := {| reward_xp := 280; reward_currency := None;
                    reward_cosmeticId := Some "frame-carbon"%string |};
       expiresAt := None; quest_status := active |} ].

(** ** Helpers of the views ([utils/appUtils.ts]) *)

(** [inputDateFromISO(iso)]: the date part of a stored deadline. *)
Definition inputDateFromISO (iso : option string) : string :=
  match iso with
  | None | Some EmptyString => EmptyString
  | Some text => String.substring 0 10 text
  end.

(** [isoFromInputDate(value)]: the deadline stored for a date input. *)
Definition isoFromInputDate (value : string) : option string :=
  match value with
  | EmptyString => None
  | _ => Some (value ++ "T18:00:00.000Z")%string
  end.

(** [progressPercent(value, target)], on whole numbers. *)
Definition progressPercent (value target : Z) : Z :=
  if target <=? 0 then 0
  else Z.max 0 (Z.min 100 (js_round (inject_Z value / inject_Z target * 100))).

Definition heatLevel (minutes : Z) : Z :=
  if minutes <=? 0 then 0
  else if minutes <? 20 then 1
  else if minutes <? 45 then 2
  else if minutes <? 90 then 3
  else 4.

(** [taskInFilter(task, filter)].  [isToday] stands for
    [isToday(parseISO(deadline))], which reads the clock and the time zone
    of the device. *)
Definition taskInFilter (isToday : string -> bool) (task : Task) (filter : string) : bool :=
  let isDone := bool_decide (task_status task = done) in
  let dueToday := match deadlineAt task with Some at_ => isToday at_ | None => false end in
  if String.eqb filter "completed" then isDone
  else if String.eqb filter "active" then negb isDone
  else if String.eqb filter "today"
       then negb isDone && (if truthy (deadlineAt task) then dueToday else true)
  else if String.eqb filter "upcoming"
       then negb isDone && truthy (deadlineAt task) && negb dueToday
  else true.

(** ** Read-only projections ([analytics/projections.ts]) *)

(** [completionRateOnFocusDays()], on the rows of [analyticsDaily]. *)
Definition completionRateOnFocusDays (db : Db) : Z :=
  let all := toArray (db_analyticsDaily db) in
  let focusDays := List.filter (fun d => 0 <? focusMinutes d) all in
  match focusDays with
  | [] => 0
  | _ :: _ =>
      let completionDays := List.filter (fun d => 0 <? completions d) focusDays in
      js_round (inject_Z (Z.of_nat (List.length completionDays))
                / inject_Z (Z.of_nat (List.length focusDays)) * 100)
  end.

(** A streak counter that has a last day counts at least one day. *)
Definition streakCounted (count : Z) (lastDay : option string) : Prop :=
  truthy lastDay = true -> 1 <= count.

(** ** Seed data ([seed/defaults.ts]) *)

Definition defaultCategories : list Category :=
  [ {| category_id := "training"; category_name := "Training";
       statWeights := [(strength, 6 # 10); (vitality, 4 # 10)];
       xpMultiplier := 1; isDefault := true |};
    {| category_id := "learning"; category_name := "Learning";
       statWeights := [(intellect, 8 # 10); (discipline, 2 # 10)];
       xpMultiplier := 105 # 100; isDefault := true |};
    {| category_id := "creativity"; category_name := "Creativity";
       statWeights := [(creativity, 8 # 10); (intellect, 2 # 10)];
       xpMultiplier := 105 # 100; isDefault := true |};
    {| category_id := "social"; category_name := "Social";
       statWeights := [(social, 8 # 10); (discipline, 2 # 10)];
       xpMultiplier := 1; isDefault := true |};
    {| category_id := "health"; category_name := "Health";
       statWeights := [(vitality, 8 # 10); (discipline, 2 # 10)];
       xpMultiplier := 11 # 10; isDefault := true |};
    {| category_id := "admin"; category_name := "Admin";
       statWeights := [(discipline, 7 # 10); (intellect, 3 # 10)];
       xpMultiplier := 95 # 100; isDefault := true |} ].

Definition categoryChains : list string :=
  ["consistency"; "deep_work"; "balance"; "mastery"; "exploration"; "recovery";
   "social"; "health"]%string.

Definition tiers : list string := ["bronze"; "silver"; "gold"; "legendary"]%string.

(** [text.toUpperCase()], on the letters a .. z. *)
Definition upperChar (c : ascii) : ascii :=
  let n := nat_of_ascii c in
  if Nat.leb 97 n && Nat.leb n 122 then ascii_of_nat (n - 32) else c.

Fixpoint toUpperCase (text : string) : string :=
  match text with
  | EmptyString => EmptyString
  | String c rest => String (upperChar c) (toUpperCase rest)
  end.

(** [text.replace("_", " ")]: the first underscore becomes a space. *)
Fixpoint replaceUnderscore (text : string) : string :=
  match text with
  | EmptyString => EmptyString
  | String c rest =>
      if Ascii.eqb c "_" then String " " rest else String c (replaceUnderscore rest)
  end.

Definition defaultAchievements : list Achievement :=
  flat_map
    (fun category =>
       flat_map
         (fun chain =>
            imap
              (fun index tier =>
                 {| achievement_id := (category ++ "-" ++ chain ++ "-" ++ tier)%string;
                    achievement_category := category;
                    chain := chain;
                    tier := tier;
                    achievement_title :=
                      (replaceUnderscore category ++ " " ++ toUpperCase chain ++ " "
                       ++ toUpperCase tier)%string;
                    requirementType :=
                      if String.eqb category "deep_work" then focus_minutes_total
                      else if String.eqb category "consistency" then task_streak
                      else tasks_completed;
                    requirementValue := nth index [10; 40; 120; 300] 0 |})
              tiers)
         ["path-a"; "path-b"]%string)
    categoryChains.

Definition defaultQuestTemplates : list Quest :=
  [ {| quest_id := "story-ch1"; quest_kind := storyline;
       quest_title := "Chapter 1: Awakening";
       objectiveType := task_completions; objectiveCategoryId := None;
       target := 15; progress := 0;
       reward := {| reward_xp := 500; reward_currency := None;
                    reward_cosmeticId := Some "title-awakened"%string |};
       expiresAt := None; quest_status := active |};
    {| quest_id := "boss-project-ascension"; quest_kind := boss;
       quest_title := "Boss Fight: Project Ascension (5 phases)";
       objectiveType := task_completions; objectiveCategoryId := None;
       target := 25; progress := 0;
       reward := {| reward_xp := 800; reward_currency := None;
                    reward_cosmeticId := Some "frame-neon-aegis"%string |};
       expiresAt := None; quest_status := active |} ].

(** ** First launch ([data/bootstrap.ts]) and the other operations of the
    store ([data/store.ts])

    The [settings] and [userProfile] tables are not part of the model; the
    steps that fill them touch no other table. *)

Definition writeCategories (f : gmap string Category -> gmap string Category)
    : Store unit := fun db =>
  (tt, mkDb (db_character db) (db_streaks db) (db_tasks db) (f (db_categories db))
            (db_focusSessions db) (db_quests db) (db_achievements db)
            (db_achievementProgress db) (db_analyticsDaily db) (db_eventLog db)).

Definition writeAchievements (f : gmap string Achievement -> gmap string Achievement)
    : Store unit := fun db =>
  (tt, mkDb (db_character db) (db_streaks db) (db_tasks db) (db_categories db)
            (db_focusSessions db) (db_quests db) (f (db_achievements db))
            (db_achievementProgress db) (db_analyticsDaily db) (db_eventLog db)).

Definition writeFocusSessions
    (f : gmap string FocusSession -> gmap string FocusSession) : Store unit := fun db =>
  (tt, mkDb (db_character db) (db_streaks db) (db_tasks db) (db_categories db)
            (f (db_focusSessions db)) (db_quests db) (db_achievements db)
            (db_achievementProgress db) (db_analyticsDaily db) (db_eventLog db)).

(** [if ((await table.count()) === 0) await table.bulkAdd(rows)]; the
    seed rows have distinct keys, so adding them to an empty table
    succeeds and is [bulkPut]. *)
Definition seedTable {V : Type} (key : V -> string) (rows : list V)
    (table : gmap string V) : gmap string V :=
  if Nat.eqb (size table) 0 then bulkPut key rows table else table.

Definition bootstrapData : Store unit :=
  writeCategories (seedTable category_id defaultCategories);;
  writeAchievements (seedTable achievement_id defaultAchievements);;
  writeQuests (seedTable quest_id defaultQuestTemplates);;
  (let* db := readDb in
   match db_character db with
   | None => putCharacter baseCharacter
   | Some _ => store_ret tt
   end);;
  (let* db := readDb in
   match db_streaks db with
   | None => putStreaks emptyStreak
   | Some _ => store_ret tt
   end).

(** [init()], up to the loading of the in-memory copy. *)
Definition init (now : string) : Store unit :=
  bootstrapData;;
  syncQuestProgress;;
  syncAchievementProgress now;;
  store_ret tt.

(** [{ ...input, id, status: "todo", createdAt: now, updatedAt: now }] *)
Definition newTask (input : Task) (newId now : string) : Task :=
  {| task_id := newId;
     task_title := task_title input;
     task_categoryId := task_categoryId input;
     task_status := todo;
     task_priority := task_priority input;
     deadlineAt := deadlineAt input;
     recurrenceRule := recurrenceRule input;
     estimateMinutes := estimateMinutes input;
     tags := tags input;
     notes := notes input;
     subtaskIds := subtaskIds input;
     subtasks := subtasks input;
     parentTaskId := parentTaskId input;
     createdAt := now;
     updatedAt := now;
     completedAt := completedAt input;
     recurrence := recurrence input;
     completionReward := completionReward input |}.

(** [createTask(input)]; the four fields that [TaskCreateInput] omits are
    not read from [input]. *)
Definition createTask (now : string) (profile : option string) (input : Task)
    : Store unit :=
  match profile with
  | None => store_ret tt
  | Some userId =>
      let* db := readDb in
      let task := newTask input (makeId (db_tasks db)) now in
      writeTasks (insert (task_id task) task);;
      let* _ :=
        appendEvent now userId TaskCreated
          {[ "taskId"%string := JsString (task_id task);
             "categoryId"%string := JsString (task_categoryId task) ]} in
      store_ret tt
  end.

(** [deleteTask(taskId)] *)
Definition deleteTask (now : string) (profile : option string) (taskId : string)
    : Store unit :=
  match profile with
  | None => store_ret tt
  | Some userId =>
      let* db := readDb in
      match db_tasks db !! taskId with
      | None => store_ret tt
      | Some _ =>
          writeTasks (delete taskId);;
          (let* _ :=
             appendEvent now userId TaskDeleted
               {[ "taskId"%string := JsString taskId ]} in
           store_ret tt);;
          refreshProjections now
      end
  end.

Record CustomQuestInput : Type := mkQuestInput {
  cq_title : string;
  cq_kind : QuestKind;
  cq_objectiveType : ObjectiveType;
  cq_target : Q;
  cq_rewardXp : Q;
  cq_objectiveCategoryId : option string
}.

(** An objective type as the string it is in the source. *)
Definition objectiveName (o : ObjectiveType) : string :=
  match o with
  | focus_minutes => "focus_minutes"
  | task_completions => "task_completions"
  | category_balance => "category_balance"
  end.

(** The row [createQuest] adds. *)
Definition customQuest (questInput : CustomQuestInput) (newId : string) : Quest :=
  {| quest_id := newId;
     quest_kind := cq_kind questInput;
     quest_title := cq_title questInput;
     objectiveType := cq_objectiveType questInput;
     objectiveCategoryId := cq_objectiveCategoryId questInput;
     target := Z.max 1 (js_round (cq_target questInput));
     progress := 0;
     reward := {| reward_xp := Z.max 1 (js_round (cq_rewardXp questInput));
                  reward_currency := None; reward_cosmeticId := None |};
     expiresAt := None;
     quest_status := active |}.

(** [createQuest(questInput)] *)
Definition createQuest (now : string) (profile : option string)
    (questInput : CustomQuestInput) : Store unit :=
  match profile with
  | None => store_ret tt
  | Some userId =>
      let* db := readDb in
      let quest := customQuest questInput (makeId (db_quests db)) in
      writeQuests (insert (quest_id quest) quest);;
      (let* _ :=
         appendEvent now userId QuestGenerated
           {[ "questId"%string := JsString (quest_id quest);
              "objectiveType"%string := JsString (objectiveName (objectiveType quest));
              "target"%string := JsNumber (target quest) ]} in
       store_ret tt);;
      let* _ := syncQuestProgress in
      store_ret tt
  end.

(** [Partial<Quest>]: the fields a patch sets.  The [id] of a patch is
    overridden and is left out; an optional field can be set to
    [undefined]. *)
Record QuestPatch : Type := mkQuestPatch {
  patch_kind : option QuestKind;
  patch_title : option string;
  patch_objectiveType : option ObjectiveType;
  patch_objectiveCategoryId : option (option string);
  patch_target : option Q;
  patch_progress : option Z;
  patch_reward : option Reward;
  patch_expiresAt : option (option string);
  patch_status : option QuestStatus
}.

Definition orElse {A : Type} (patched : option A) (current : A) : A :=
  match patched with Some v => v | None => current end.

(** [{ ...quest, ...patch, id: quest.id,
       target: Math.max(1, Math.round((patch.target ?? quest.target) || 1)) }] *)
Definition patchedQuest (quest : Quest) (patch : QuestPatch) : Quest :=
  let wanted := orElse (patch_target patch) (inject_Z (target quest)) in
  {| quest_id := quest_id quest;
     quest_kind := orElse (patch_kind patch) (quest_kind quest);
     quest_title := orElse (patch_title patch) (quest_title quest);
     objectiveType := orElse (patch_objectiveType patch) (objectiveType quest);
     objectiveCategoryId :=
       orElse (patch_objectiveCategoryId patch) (objectiveCategoryId quest);
     target := Z.max 1 (js_round (if Qeq_bool wanted 0 then 1%Q else wanted));
     progress := orElse (patch_progress patch) (progress quest);
     reward := orElse (patch_reward patch) (reward quest);
     expiresAt := orElse (patch_expiresAt patch) (expiresAt quest);
     quest_status := orElse (patch_status patch) (quest_status quest) |}.

(** [updateQuest(questId, patch)] *)
Definition updateQuest (now : string) (profile : option string) (questId : string)
    (patch : QuestPatch) : Store unit :=
  match profile with
  | None => store_ret tt
  | Some userId =>
      let* db := readDb in
      match db_quests db !! questId with
      | None => store_ret tt
      | Some quest =>
          let updated := patchedQuest quest patch in
          writeQuests (insert (quest_id updated) updated);;
          if bool_decide (quest_status updated = complete)
          then
            let* _ :=
              appendEvent now userId QuestCompleted
                {[ "questId"%string := JsString (quest_id updated) ]} in
            store_ret tt
          else store_ret tt
      end
  end.

(** [resetLifetimeXp()] *)
Definition resetLifetimeXp : Store unit :=
  let* db := readDb in
  match db_character db with
  | None => store_ret tt
  | Some character =>
      putCharacter
        {| level := level character;
           xpCurrent := xpCurrent character;
           xpLifetime := 0;
           seasonCap := seasonCap character;
           prestigeRank := prestigeRank character;
           legacyPoints := legacyPoints character;
           stats := stats character |}
  end.

(** [addFocusSession(session, options)]; [applyRewards] is
    [options?.applyRewards].  [db.focusSessions.add] rejects a session
    whose id is taken: the promise is rejected ([None]) and nothing is
    written. *)
Definition addFocusSession (dayKey : string -> string) (now : string)
    (profile : option string) (session : FocusSession) (applyRewards : option bool)
    : Store (option unit) :=
  match profile with
  | None => store_ret (Some tt)
  | Some userId =>
      let* db := readDb in
      match db_focusSessions db !! session_id session with
      | Some _ => store_ret None
      | None =>
          writeFocusSessions (insert (session_id session) session);;
          match applyRewards with
          | Some false =>
              (if bool_decide (session_type session = work)
               then
                 upsertDailyAggregate dayKey
                   (match endedAt session with
                    | Some at_ => at_
                    | None => startedAt session
                    end)
                   {| delta_focusMinutes := Some (durationMin session);
                      delta_completions := None; delta_xpGained := None |}
                   (session_categoryId session) (durationMin session)
               else store_ret tt);;
              store_ret (Some tt)
          | _ =>
              recordFocusSessionEnd dayKey now userId session;;
              refreshProjections now;;
              store_ret (Some tt)
          end
      end
  end.

(** ** Invariants of the store *)

(** Every table is keyed by the id of its rows. *)
Definition storeKeyed (db : Db) : Prop :=
  keyedBy task_id (db_tasks db) /\
  keyedBy category_id (db_categories db) /\
  keyedBy session_id (db_focusSessions db) /\
  keyedBy quest_id (db_quests db) /\
  keyedBy achievement_id (db_achievements db) /\
  keyedBy progress_id (db_achievementProgress db) /\
  keyedBy date (db_analyticsDaily db).

(** The ids of the logged events, in the order of the log. *)
Definition eventIds (db : Db) : list string := List.map eventId (db_eventLog db).

(** What an operation may do to the event log: keep every event in its
    place, add events at the end, and keep the ids distinct. *)
Definition logExtended (before after : Db) : Prop :=
  NoDup (eventIds before) ->
  (exists added, db_eventLog after = db_eventLog before ++ added) /\
  NoDup (eventIds after).

(** An operation all of whose runs are steps of the relation [R]. *)
Definition respects {A : Type} (R : Db -> Db -> Prop) (m : Store A) : Prop :=
  forall db, R db (m db).2.

(** A property of the store that an operation re-establishes. *)
Definition keepsProperty (P : Db -> Prop) (before after : Db) : Prop :=
  P before -> P after.

(** An operation that keeps every table keyed. *)
Definition keepsKeyed {A : Type} (m : Store A) : Prop :=
  respects (keepsProperty storeKeyed) m.

(** An operation that only adds to the event log. *)
Definition extendsLog {A : Type} (m : Store A) : Prop :=
  respects logExtended m.

(** A part of the store that a step leaves as it was. *)
Definition sameOn {T : Type} (part : Db -> T) (before after : Db) : Prop :=
  part after = part before.

(** Every stored quest has a target of at least 1. *)
Definition questTargetsOk (db : Db) : Prop :=
  forall k quest, db_quests db !! k = Some quest -> 1 <= target quest.

(** What every operation of the store keeps: the tables keyed, the
    character well formed, the quest targets positive. *)
Definition storeWellFormed (db : Db) : Prop :=
  storeKeyed db /\ storeCharacterOk db /\ questTargetsOk db.

(** An operation that keeps the store well formed. *)
Definition keepsWellFormed {A : Type} (m : Store A) : Prop :=
  respects (keepsProperty storeWellFormed) m.

(** The empty store of a first launch. *)
Definition emptyDb : Db :=
  {| db_character := None; db_streaks := None; db_tasks := ∅; db_categories := ∅;
     db_focusSessions := ∅; db_quests := ∅; db_achievements := ∅;
     db_achievementProgress := ∅; db_analyticsDaily := ∅; db_eventLog := [] |}.

(** More counters of a calendar day; a day without a row counts 0. *)
Definition focusMinutesOn (db : Db) (day : string) : Z :=
  match db_analyticsDaily db !! day with Some a => focusMinutes a | None => 0 end.

(** The minutes in the category buckets of a day, added up. *)
Definition categoryMinutesOn (db : Db) (day : string) : Z :=
  match db_analyticsDaily db !! day with
  | Some a => sumMinutes (categoryFocusMinutes a)
  | None => 0
  end.

(** [map[key]] on an object used as a map; [None] is [undefined]. *)
Fixpoint record_get (key : string) (map : list (string * Z)) : option Z :=
  match map with
  | [] => None
  | (k, v) :: map' => if String.eqb k key then Some v else record_get key map'
  end.

(** The bucket of one category on a day: [categoryFocusMinutes[category]]
    of the row of the day, [None] without a row or without the key. *)
Definition categoryBucketOn (db : Db) (day category : string) : option Z :=
  match db_analyticsDaily db !! day with
  | Some a => record_get category (categoryFocusMinutes a)
  | None => None
  end.

(** [session.endedAt ?? session.startedAt] *)
Definition sessionInstant (session : FocusSession) : string :=
  match endedAt session with Some at_ => at_ | None => startedAt session end.

(** A finished 25-minute work session. *)
Definition sampleSession : FocusSession :=
  {| session_id := "f1"; session_label := None; session_taskId := Some "t1"%string;
     session_categoryId := Some "health"%string;
     startedAt := "2026-02-10T08:00:00.000Z";
     endedAt := Some "2026-02-10T08:25:00.000Z"%string;
     durationMin := 25; rewardMinutes := None;
     session_type := work; session_completed := true |}.

(** What a sync pass makes of a quest row: progress and status are
    recomputed from the totals. *)
Definition questResynced (totals : SyncTotals) (quest : Quest) : Quest :=
  let p := Z.min (target quest) (questRawProgress totals quest) in
  withProgress quest p (if target quest <=? p then complete else active).

(** * Properties *)

(** ** The level curve and the XP loops *)

Example xpToNext_1 : xpToNext 1 = 165.
Proof. vm_compute. reflexivity. Qed.

Example xpToNext_2 : xpToNext 2 = 215.
Proof. vm_compute. reflexivity. Qed.

Example applyXp_overflow :
  let s := applyXp baseCharacter (xpToNext 1 + 10) in
  level s = 2 /\ xpCurrent s = 10.
Proof. vm_compute. split; reflexivity. Qed.

Lemma iroot_search_lower fuel k x lo hi :
  lo <= iroot_search fuel k x lo hi.
Proof.
  revert lo hi. induction fuel as [|fuel IH]; intros lo hi; cbn [iroot_search]; [lia|].
  destruct (hi - lo <=? 1) eqn:Hgap; [lia|].
  apply Z.leb_gt in Hgap.
  assert (Hmid : lo <= (lo + hi) / 2) by (apply Z.div_le_lower_bound; lia).
  destruct (((lo + hi) / 2) ^ k <=? x).
  - etransitivity; [exact Hmid | apply IH].
  - apply IH.
Qed.

Lemma xpToNext_lower l : 0 <= l -> 120 <= xpToNext l.
Proof.
  intros Hl. unfold xpToNext, iroot.
  pose proof (iroot_search_lower
                (S (Z.to_nat (Z.log2_up (20 ^ 20 * l ^ 27 + 1)))) 20
                (20 ^ 20 * l ^ 27) 0 (20 ^ 20 * l ^ 27 + 1)) as Hr.
  assert (0 <= (iroot_search
                  (S (Z.to_nat (Z.log2_up (20 ^ 20 * l ^ 27 + 1)))) 20
                  (20 ^ 20 * l ^ 27) 0 (20 ^ 20 * l ^ 27 + 1) + 1) / 2)
    by (apply Z.div_pos; lia).
  lia.
Qed.

(** *** The integer root is the integer part of the root *)

Lemma iroot_search_spec fuel k x lo hi :
  0 <= lo < hi -> lo ^ k <= x < hi ^ k -> hi - lo <= 2 ^ Z.of_nat fuel ->
  let r := iroot_search fuel k x lo hi in
  r ^ k <= x < (r + 1) ^ k.
Proof.
  revert lo hi. induction fuel as [|fuel IH]; intros lo hi Hrange Hbracket Hwidth;
    cbn [iroot_search].
  - cbn in Hwidth. cbv zeta. replace (lo + 1) with hi by lia. exact Hbracket.
  - destruct (hi - lo <=? 1) eqn:Hgap.
    + apply Z.leb_le in Hgap. cbv zeta. replace (lo + 1) with hi by lia. exact Hbracket.
    + apply Z.leb_gt in Hgap.
      rewrite Nat2Z.inj_succ, Z.pow_succ_r in Hwidth by lia.
      assert (Hlow : 2 * ((lo + hi) / 2) <= lo + hi) by (apply Z.mul_div_le; lia).
      assert (Hhigh : lo + hi < 2 * ((lo + hi) / 2) + 2).
      { pose proof (Z.mod_pos_bound (lo + hi) 2 ltac:(lia)).
        pose proof (Z.div_mod (lo + hi) 2 ltac:(lia)). lia. }
      assert (Hmid : lo < (lo + hi) / 2 < hi) by lia.
      destruct (((lo + hi) / 2) ^ k <=? x) eqn:Hcmp.
      * apply Z.leb_le in Hcmp. apply IH; lia.
      * apply Z.leb_gt in Hcmp. apply IH; lia.
Qed.

Lemma iroot_spec k x :
  1 <= k -> 0 <= x -> iroot k x ^ k <= x < (iroot k x + 1) ^ k.
Proof.
  intros Hk Hx. unfold iroot. apply iroot_search_spec.
  - lia.
  - split.
    + rewrite Z.pow_0_l by lia. exact Hx.
    + assert (x + 1 <= (x + 1) ^ k).
      { replace (x + 1) with ((x + 1) ^ 1) at 1 by apply Z.pow_1_r.
        apply Z.pow_le_mono_r; lia. }
      lia.
  - rewrite Nat2Z.inj_succ, Z2Nat.id by apply Z.log2_up_nonneg.
    rewrite Z.pow_succ_r by apply Z.log2_up_nonneg.
    destruct (Z.eq_dec x 0) as [->|Hne].
    + apply Z.leb_le. reflexivity.
    + pose proof (Z.log2_up_spec (x + 1) ltac:(lia)) as [_ Hup]. lia.
Qed.

(** [xpToNext level] is the integer nearest to
    [120 + 35 level + 10 level^1.35]: with [n] what it adds to
    [120 + 35 level], [n - 1/2 <= 10 level^(27/20) < n + 1/2], stated on
    the 20th powers of the doubled sides. *)
Lemma xpToNext_rounds level :
  1 <= level ->
  let n := xpToNext level - (120 + 35 * level) in
  1 <= n /\
  (2 * n - 1) ^ 20 <= 20 ^ 20 * level ^ 27 < (2 * n + 1) ^ 20.
Proof.
  intros Hl n.
  assert (Hn : n = (iroot 20 (20 ^ 20 * level ^ 27) + 1) / 2).
  { subst n. unfold xpToNext. lia. }
  assert (Hpow : 1 <= level ^ 27).
  { apply Z.le_trans with (1 ^ 27); [|apply Z.pow_le_mono_l; lia].
    rewrite Z.pow_1_l by lia. apply Z.le_refl. }
  assert (Hx : 20 ^ 20 <= 20 ^ 20 * level ^ 27).
  { apply Z.le_mul_diag_r; [reflexivity | exact Hpow]. }
  assert (Hx0 : 0 <= 20 ^ 20 * level ^ 27).
  { apply Z.le_trans with (20 ^ 20); [discriminate | exact Hx]. }
  pose proof (iroot_spec 20 (20 ^ 20 * level ^ 27) ltac:(discriminate) Hx0) as [Hlo Hhi].
  assert (Hs0 : 0 <= iroot 20 (20 ^ 20 * level ^ 27)) by apply iroot_search_lower.
  revert Hn Hx Hlo Hhi Hs0. clear Hpow Hx0.
  generalize (iroot 20 (20 ^ 20 * level ^ 27)) as s.
  generalize (20 ^ 20 * level ^ 27) as X.
  intros X s Hn Hx Hlo Hhi Hs0.
  assert (Hs : 20 <= s).
  { destruct (Z_lt_le_dec s 20) as [Hlt|]; [exfalso|assumption].
    assert (Hle : (s + 1) ^ 20 <= 20 ^ 20).
    { apply Z.pow_le_mono_l. split; [apply Z.le_le_succ_r; exact Hs0|].
      apply Zlt_le_succ. exact Hlt. }
    apply (Z.lt_irrefl X).
    apply Z.lt_le_trans with ((s + 1) ^ 20); [exact Hhi|].
    apply Z.le_trans with (20 ^ 20); assumption. }
  assert (Hdiv : 2 * n <= s + 1 < 2 * n + 2).
  { rewrite Hn.
    pose proof (Z.mod_pos_bound (s + 1) 2 ltac:(reflexivity)) as Hmod.
    pose proof (Z.div_mod (s + 1) 2 ltac:(discriminate)) as Hdm.
    revert Hmod Hdm. generalize ((s + 1) / 2) as q. generalize ((s + 1) mod 2) as m.
    intros m q Hmod Hdm. lia. }
  clear Hn. split; [|split].
  - clear Hlo Hhi Hx. lia.
  - apply Z.le_trans with (s ^ 20); [|exact Hlo].
    apply Z.pow_le_mono_l. clear Hlo Hhi Hx. lia.
  - apply Z.lt_le_trans with ((s + 1) ^ 20); [exact Hhi|].
    apply Z.pow_le_mono_l. clear Hlo Hhi Hx. lia.
Qed.

(** The loop of [applyXp] really exits: with the fuel [applyXp] gives it,
    the loop condition is false in the state it returns. *)
Lemma applyXp_loop_exit fuel cap lvl xp l' x' :
  cap - lvl <= Z.of_nat fuel ->
  applyXp_loop fuel cap lvl xp = (l', x') ->
  x' < xpToNext l' \/ cap <= l'.
Proof.
  revert lvl xp. induction fuel as [|fuel IH]; intros lvl xp Hfuel Hrun; simpl in Hrun.
  - inversion Hrun; subst. right. lia.
  - destruct ((xpToNext lvl <=? xp) && (lvl <? cap)) eqn:Hc.
    + apply (IH (lvl + 1) (xp - xpToNext lvl)); [lia | exact Hrun].
    + inversion Hrun; subst.
      apply andb_false_iff in Hc as [Hc | Hc].
      * left. apply Z.leb_gt in Hc. exact Hc.
      * right. apply Z.ltb_ge in Hc. exact Hc.
Qed.

Lemma applyXp_loop_level fuel cap lvl xp l' x' :
  applyXp_loop fuel cap lvl xp = (l', x') -> lvl <= l'.
Proof.
  revert lvl xp. induction fuel as [|fuel IH]; intros lvl xp Hrun; simpl in Hrun.
  - inversion Hrun; lia.
  - destruct ((xpToNext lvl <=? xp) && (lvl <? cap)).
    + apply IH in Hrun. lia.
    + inversion Hrun; lia.
Qed.

(** What the loop of [removeXp] returns: the level stays within
    [1 .. lvl], a negative balance is only left at level 1 (the loop has
    exited), and either nothing happened or the balance is below the
    threshold of the level reached. *)
Lemma removeXp_loop_spec fuel lvl xp l' x' :
  1 <= lvl ->
  lvl - 1 <= Z.of_nat fuel ->
  removeXp_loop fuel lvl xp = (l', x') ->
  1 <= l' <= lvl /\ (x' < 0 -> l' = 1) /\
  ((l' = lvl /\ x' = xp) \/ (l' < lvl /\ x' < xpToNext l')).
Proof.
  revert lvl xp. induction fuel as [|fuel IH]; intros lvl xp Hl Hfuel Hrun; simpl in Hrun.
  - inversion Hrun; subst. split; [lia|]. split; [lia|].
    left; split; reflexivity.
  - destruct ((xp <? 0) && (1 <? lvl)) eqn:Hc.
    + apply andb_true_iff in Hc as [Hneg Hgt].
      apply Z.ltb_lt in Hneg. apply Z.ltb_lt in Hgt.
      apply IH in Hrun; [|lia|lia].
      destruct Hrun as (Hrange & Hexit & Hcase).
      split; [lia|]. split; [exact Hexit|].
      right. destruct Hcase as [[-> ->] | [Hlt Hx]]; [|lia].
      split; [lia|]. replace (lvl - 1 + 1 - 1) with (lvl - 1) in * by lia. lia.
    + inversion Hrun; subst.
      apply andb_false_iff in Hc.
      split; [lia|]. split.
      * intros Hneg. destruct Hc as [Hc | Hc]; apply Z.ltb_ge in Hc; lia.
      * left; split; reflexivity.
Qed.

Lemma applyXp_invariant s g : xp_invariant (applyXp s g).
Proof.
  unfold xp_invariant, applyXp.
  destruct (applyXp_loop _ _ _ _) as [l' x'] eqn:Hrun. simpl.
  apply applyXp_loop_exit in Hrun; [|lia]. lia.
Qed.

Lemma removeXp_invariant s loss :
  xp_invariant s -> 1 <= level s -> xp_invariant (removeXp s loss).
Proof.
  unfold xp_invariant, removeXp. intros Hinv Hl.
  destruct (removeXp_loop _ _ _) as [l' x'] eqn:Hrun. simpl.
  apply removeXp_loop_spec in Hrun; [|lia|lia].
  destruct Hrun as (Hrange & Hexit & Hcase). intros Hcap.
  destruct (x' <? 0) eqn:Hneg.
  - apply Z.ltb_lt in Hneg. rewrite (Hexit Hneg). rewrite xpToNext_1. lia.
  - destruct Hcase as [[-> ->] | [_ Hx]]; lia.
Qed.

Lemma prestige_invariant s : xp_invariant (prestige s).
Proof.
  unfold xp_invariant, prestige. cbn [level xpCurrent seasonCap]. intros _.
  rewrite xpToNext_1. lia.
Qed.

(** C6: the invariant [xpCurrent < xpToNext(level)] whenever
    [level < seasonCap] holds of the bootstrap character and, from a state
    that satisfies it with [level >= 1] and [xpCurrent >= 0], holds of the
    state returned by [applyXp] (any gain [>= 0]), by [removeXp] (any
    loss) and by [prestige]. *)
Theorem xp_invariant_established_and_preserved
    (s : CharacterState) (xpGain xpLoss : Z) :
  xp_invariant s -> 1 <= level s -> 0 <= xpCurrent s -> 0 <= xpGain ->
  xp_invariant baseCharacter /\
  xp_invariant (applyXp s xpGain) /\
  xp_invariant (removeXp s xpLoss) /\
  xp_invariant (prestige s).
Proof.
  intros Hinv Hl _ _. split; [|split; [|split]].
  - unfold xp_invariant, baseCharacter. cbn [level xpCurrent seasonCap].
    intros _. rewrite xpToNext_1. lia.
  - apply applyXp_invariant.
  - apply removeXp_invariant; assumption.
  - apply prestige_invariant.
Qed.

Lemma xp_invariant_established_and_preserved_witness :
  xp_invariant baseCharacter /\
  xp_invariant (applyXp baseCharacter 400) /\
  xp_invariant (removeXp baseCharacter 30) /\
  xp_invariant (prestige baseCharacter).
Proof.
  apply (xp_invariant_established_and_preserved baseCharacter 400 30).
  - unfold xp_invariant. intros _. vm_compute. reflexivity.
  - simpl. lia.
  - simpl. lia.
  - lia.
Defined.

(** C9: [prestige] resets level and current XP, adds one prestige rank and
    [max(0, floor((level - 20) / 5))] legacy points computed from the level
    before the reset, and leaves stats, lifetime XP and the season cap
    alone; at level 40 with rank 1 and 2 legacy points it gives rank 2 and
    6 legacy points. *)
Theorem prestige_frame :
  (forall s : CharacterState,
     level (prestige s) = 1 /\
     xpCurrent (prestige s) = 0 /\
     prestigeRank (prestige s) = prestigeRank s + 1 /\
     legacyPoints (prestige s) = legacyPoints s + Z.max 0 ((level s - 20) / 5) /\
     stats (prestige s) = stats s /\
     xpLifetime (prestige s) = xpLifetime s /\
     seasonCap (prestige s) = seasonCap s) /\
  (let s40 := {| level := 40; xpCurrent := 80; xpLifetime := 5000;
                 seasonCap := 60; prestigeRank := 1; legacyPoints := 2;
                 stats := fun _ => 10 |} in
   level (prestige s40) = 1 /\
   prestigeRank (prestige s40) = 2 /\
   legacyPoints (prestige s40) = 6).
Proof.
  split.
  - intros s. unfold prestige. simpl. repeat split; reflexivity.
  - simpl. repeat split; reflexivity.
Qed.

(** ** Stat gains *)

(** Decide the equalities between stat keys that a goal tests. *)
Ltac stat_decide :=
  repeat match goal with
         | |- context [decide (?a = ?b)] =>
             destruct (decide (a = b)); try discriminate; try congruence
         end.

Lemma sd_total_set d k v :
  sd_total (sd_set d k v) = sd_total d - sd_get d k + v.
Proof.
  unfold sd_total, sd_get, sd_set, all_stats.
  destruct k; cbn [fold_right]; stat_decide; lia.
Qed.

Lemma sd_get_set d k v k' :
  sd_get (sd_set d k v) k' = if decide (k' = k) then v else sd_get d k'.
Proof. unfold sd_get, sd_set. destruct (decide (k' = k)); reflexivity. Qed.

Lemma sd_total_empty : sd_total sd_empty = 0.
Proof. reflexivity. Qed.

Lemma allocate_fold T ws sg al :
  let r := fold_left (allocate_step T) ws (sg, al) in
  snd r = al + allocSum T ws /\
  (forall k, sd_get (fst r) k = sd_get sg k + floorShare T ws k).
Proof.
  revert sg al. induction ws as [|[s w] ws IH]; intros sg al; cbn [fold_left].
  - cbn. split; [lia | intros k; lia].
  - destruct (IH (fst (allocate_step T (sg, al) (s, w)))
                 (snd (allocate_step T (sg, al) (s, w)))) as [Hal Hsg].
    rewrite <- surjective_pairing in Hal, Hsg.
    cbv zeta in *. rewrite Hal. split.
    + unfold allocate_step, allocSum. cbn [fold_right fst snd].
      destruct (Qfloor (inject_Z T * w) <=? 0); cbn [snd]; lia.
    + intros k. rewrite Hsg.
      unfold allocate_step, floorShare. cbn [fold_right fst snd].
      destruct (Qfloor (inject_Z T * w) <=? 0); cbn [fst].
      * destruct (decide (s = k)); lia.
      * rewrite sd_get_set.
        destruct (decide (k = s)) as [->|Hne].
        -- destruct (decide (s = s)); [lia | congruence].
        -- destruct (decide (s = k)); [congruence | lia].
Qed.

Lemma floorShare_total T ws :
  fold_right (fun k acc => floorShare T ws k + acc) 0 all_stats = allocSum T ws.
Proof.
  induction ws as [|[s w] ws IH]; [reflexivity|].
  unfold all_stats in *. cbn [fold_right] in *.
  unfold floorShare, allocSum in *. cbn [fold_right fst snd] in *.
  rewrite <- IH. destruct s; stat_decide; lia.
Qed.

Lemma weight_fold_left entries init :
  (fold_left (fun sum entry => sum + snd entry) entries init == init + weightSum entries)%Q.
Proof.
  revert init. induction entries as [|e entries IH]; intros init; cbn [fold_left weightSum fold_right].
  - ring.
  - rewrite IH. fold (weightSum entries). ring.
Qed.

Lemma weightSum_nonneg entries :
  (forall e, In e entries -> (0 < snd e)%Q) -> (0 <= weightSum entries)%Q.
Proof.
  induction entries as [|e entries IH]; intros Hpos; cbn [weightSum fold_right].
  - apply Qle_refl.
  - fold (weightSum entries).
    replace 0%Q with (0 + 0)%Q by reflexivity.
    apply Qplus_le_compat.
    + apply Qlt_le_weak, Hpos. left; reflexivity.
    + apply IH. intros e' He'. apply Hpos. right; exact He'.
Qed.

(** The floors never hand out more than the points there are. *)
Lemma allocSum_normalized_bound T total entries :
  0 <= T -> (0 < total)%Q ->
  (forall e, In e entries -> (0 < snd e)%Q) ->
  (inject_Z (allocSum T (List.map (fun e => (fst e, (snd e / total)%Q)) entries))
   <= inject_Z T * (weightSum entries / total))%Q.
Proof.
  intros HT Htotal. induction entries as [|e entries IH]; intros Hpos.
  - cbn. unfold Qdiv. rewrite Qmult_0_l, Qmult_0_r. apply Qle_refl.
  - cbn [List.map allocSum fold_right weightSum fst snd].
    fold (weightSum entries).
    fold (allocSum T (List.map (fun e => (fst e, (snd e / total)%Q)) entries)).
    assert (Hsplit : (inject_Z T * ((snd e + weightSum entries) / total)
                      == inject_Z T * (snd e / total)
                         + inject_Z T * (weightSum entries / total))%Q).
    { field. intros Hz. rewrite Hz in Htotal. exact (Qlt_irrefl _ Htotal). }
    rewrite Hsplit. rewrite inject_Z_plus.
    apply Qplus_le_compat.
    + assert (Hnn : (0 <= inject_Z T * (snd e / total))%Q).
      { apply Qmult_le_0_compat.
        - change 0%Q with (inject_Z 0). rewrite <- Zle_Qle. exact HT.
        - apply Qlt_le_weak. unfold Qdiv. apply Qmult_lt_0_compat.
          + apply Hpos. left; reflexivity.
          + apply Qinv_lt_0_compat. exact Htotal. }
      destruct (Qfloor (inject_Z T * (snd e / total)) <=? 0).
      * exact Hnn.
      * apply Qfloor_le.
    + apply IH. intros e' He'. apply Hpos. right; exact He'.
Qed.

Lemma normalizeStatWeights_alloc_le T weights :
  0 <= T -> allocSum T (normalizeStatWeights weights) <= T.
Proof.
  intros HT. unfold normalizeStatWeights.
  set (entries := List.filter (fun entry => Qpositive (snd entry)) weights).
  set (total := fold_left (fun sum entry => (sum + snd entry)%Q) entries 0%Q).
  destruct (Qle_bool total 0) eqn:Hle; [cbn; exact HT|].
  assert (Htotal : (0 < total)%Q).
  { apply Qnot_le_lt. intros H. apply Qle_bool_iff in H. congruence. }
  assert (Hpos : forall e, In e entries -> (0 < snd e)%Q).
  { intros e He. apply List.filter_In in He as [_ He].
    unfold Qpositive in He. apply negb_true_iff in He.
    apply Qnot_le_lt. intros H. apply Qle_bool_iff in H. congruence. }
  pose proof (allocSum_normalized_bound T total entries HT Htotal Hpos) as Hb.
  assert (Hsum : (weightSum entries == total)%Q).
  { unfold total. rewrite weight_fold_left. ring. }
  rewrite Hsum in Hb.
  assert (Hone : (inject_Z T * (total / total) == inject_Z T)%Q).
  { field. intros Hz. rewrite Hz in Htotal. exact (Qlt_irrefl _ Htotal). }
  rewrite Hone in Hb. rewrite Zle_Qle. exact Hb.
Qed.

(** The head of the sorted weights is an entry of largest weight. *)
Lemma primary_is_heaviest (weights : list (StatKey * Q)) :
  match stable_sort (fun a b => Qle_bool (snd b) (snd a)) weights with
  | [] => weights = []
  | h :: _ => In h weights /\ forall e, In e weights -> (snd e <= snd h)%Q
  end.
Proof.
  induction weights as [|x l IH]; [reflexivity|].
  cbn [stable_sort fold_right].
  fold (stable_sort (fun a b : StatKey * Q => Qle_bool (snd b) (snd a)) l).
  destruct (stable_sort (fun a b : StatKey * Q => Qle_bool (snd b) (snd a)) l)
    as [|h t]; cbn [insert_sorted].
  - subst l. split; [left; reflexivity|].
    intros e [<-|[]]. apply Qle_refl.
  - destruct IH as [Hin Hmax].
    destruct (Qle_bool (snd h) (snd x)) eqn:Hle.
    + apply Qle_bool_iff in Hle. split; [left; reflexivity|].
      intros e [<-|He]; [apply Qle_refl|].
      eapply Qle_trans; [apply Hmax; exact He | exact Hle].
    + split; [right; exact Hin|].
      intros e [<-|He]; [|apply Hmax; exact He].
      apply Qlt_le_weak, Qnot_le_lt. intros H.
      apply Qle_bool_iff in H. congruence.
Qed.

Lemma basePointsOf_range xpGain priority : 1 <= basePointsOf xpGain priority <= 4.
Proof. unfold basePointsOf. lia. Qed.

Lemma levelBonusOf_range levelUps : 0 <= levelBonusOf levelUps <= 2.
Proof. unfold levelBonusOf. lia. Qed.

Example statGain_learning :
  let learning :=
    {| category_id := "learning"; category_name := "Learning";
       statWeights := [(intellect, 8 # 10); (discipline, 2 # 10)];
       xpMultiplier := 105 # 100; isDefault := true |} in
  let gains := calculateTaskStatGain 120 high (Some learning) 1 in
  List.map gains all_stats = [None; None; Some 4; None; Some 1; None] /\
  sd_total gains = 5.
Proof. vm_compute. split; reflexivity. Qed.

Example statGain_no_category :
  List.map (calculateTaskStatGain 20 low None 0) all_stats
  = [None; None; None; None; Some 1; None].
Proof. vm_compute. reflexivity. Qed.

(** The gains of [calculateTaskStatGain] in terms of the weights the
    function works with, the result of [normalizeStatWeights]. *)
Lemma calculateTaskStatGain_distribution
    (xpGain : Z) (priority : Priority) (category : option Category) (levelUps : Z) :
  let basePoints :=
    Z.max 1 (Z.min 4 (js_round (inject_Z xpGain / 36 * priorityMultiplier priority))) in
  let levelBonus := Z.max 0 (Z.min 2 levelUps) in
  let totalPoints := basePoints + levelBonus in
  let weights :=
    normalizeStatWeights (match category with Some c => statWeights c | None => [] end) in
  let gains := calculateTaskStatGain xpGain priority category levelUps in
  sd_total gains = totalPoints /\
  1 <= sd_total gains <= 6 /\
  (weights = [] ->
   forall k, gains k = if decide (k = discipline) then Some totalPoints else None) /\
  (weights <> [] ->
   exists primary w,
     In (primary, w) weights /\
     (forall e, In e weights -> (snd e <= w)%Q) /\
     forall k,
       sd_get gains k =
       floorShare totalPoints weights k +
       (if decide (k = primary) then totalPoints - allocSum totalPoints weights else 0)).
Proof.
  intros basePoints levelBonus totalPoints weights gains.
  assert (Hbase : 1 <= basePoints <= 4) by (subst basePoints; lia).
  assert (Hbonus : 0 <= levelBonus <= 2) by (subst levelBonus; lia).
  assert (Htot : sd_total gains = totalPoints).
  { subst gains. unfold calculateTaskStatGain.
    fold basePoints. change (basePointsOf xpGain priority) with basePoints.
    change (levelBonusOf levelUps) with levelBonus.
    fold totalPoints. fold weights.
    destruct weights as [|e ws] eqn:Hw.
    - rewrite sd_total_set. cbn. lia.
    - rewrite <- Hw.
      pose proof (allocate_fold totalPoints weights sd_empty 0) as Hfold.
      destruct (fold_left (allocate_step totalPoints) weights (sd_empty, 0))
        as [statGains allocated].
      cbv zeta in Hfold. cbn [fst snd] in Hfold. destruct Hfold as [Hal Hsg].
      assert (Hsum : sd_total statGains = allocated).
      { rewrite Hal, Z.add_0_l, <- floorShare_total.
        unfold sd_total, all_stats. cbn [fold_right].
        rewrite !Hsg. cbn. lia. }
      destruct (0 <? totalPoints - allocated) eqn:Hrem.
      + rewrite sd_total_set. lia.
      + apply Z.ltb_ge in Hrem.
        assert (allocated <= totalPoints).
        { rewrite Hal, Z.add_0_l. subst weights.
          apply normalizeStatWeights_alloc_le. lia. }
        lia. }
  split; [exact Htot|]. split; [lia|]. split.
  - intros Hw k. subst gains. unfold calculateTaskStatGain.
    change (basePointsOf xpGain priority) with basePoints.
    change (levelBonusOf levelUps) with levelBonus.
    fold totalPoints. fold weights. rewrite Hw.
    unfold sd_set, sd_empty. reflexivity.
  - intros Hw.
    pose proof (primary_is_heaviest weights) as Hprim.
    destruct (stable_sort (fun a b : StatKey * Q => Qle_bool (snd b) (snd a)) weights)
      as [|[p w] rest] eqn:Hsort; [contradiction|].
    destruct Hprim as [Hin Hmax]. exists p, w.
    split; [exact Hin|]. split; [exact Hmax|].
    intros k. subst gains. unfold calculateTaskStatGain.
    change (basePointsOf xpGain priority) with basePoints.
    change (levelBonusOf levelUps) with levelBonus.
    fold totalPoints. fold weights.
    destruct weights as [|e ws] eqn:Hweq; [contradiction|]. rewrite <- Hweq in *.
    pose proof (allocate_fold totalPoints weights sd_empty 0) as Hfold.
    destruct (fold_left (allocate_step totalPoints) weights (sd_empty, 0))
      as [statGains allocated].
    cbv zeta in Hfold. cbn [fst snd] in Hfold. destruct Hfold as [Hal Hsg].
    rewrite Z.add_0_l in Hal. subst allocated.
    assert (Hle : allocSum totalPoints weights <= totalPoints).
    { subst weights. apply normalizeStatWeights_alloc_le. lia. }
    destruct (0 <? totalPoints - allocSum totalPoints weights) eqn:Hrem.
    + rewrite sd_get_set. unfold primaryStat. rewrite Hsort. cbn [fst].
      rewrite !Hsg. unfold sd_get, sd_empty.
      destruct (decide (k = p)) as [->|]; lia.
    + apply Z.ltb_ge in Hrem. rewrite Hsg. unfold sd_get, sd_empty.
      destruct (decide (k = p)); lia.
Qed.

(** What [normalizeStatWeights] returns, read off the weights given: nothing
    when no weight is positive, and otherwise the positive entries, each
    divided by their sum. *)
Lemma normalizeStatWeights_unusable (given : list (StatKey * Q)) :
  (forall entry, In entry given -> (snd entry <= 0)%Q) -> normalizeStatWeights given = [].
Proof.
  intros Hall. unfold normalizeStatWeights.
  assert (Hnil : List.filter (fun entry => Qpositive (snd entry)) given = []).
  { induction given as [|x given IH]; [reflexivity|]. cbn [List.filter].
    assert (Hx : Qpositive (snd x) = false).
    { unfold Qpositive. apply negb_false_iff. apply Qle_bool_iff. apply Hall. left. reflexivity. }
    rewrite Hx. apply IH. intros entry Hentry. apply Hall. right. exact Hentry. }
  rewrite Hnil. reflexivity.
Qed.

Lemma usable_positive (given : list (StatKey * Q)) (entry : StatKey * Q) :
  In entry (List.filter (fun entry => Qpositive (snd entry)) given) ->
  In entry given /\ (0 < snd entry)%Q.
Proof.
  intros Hin. apply List.filter_In in Hin as [Hin Hpos]. split; [exact Hin|].
  unfold Qpositive in Hpos. apply negb_true_iff in Hpos.
  apply Qnot_le_lt. intros Hle. apply Qle_bool_iff in Hle. congruence.
Qed.

Lemma usable_total_positive (given : list (StatKey * Q)) :
  (exists entry, In entry given /\ (0 < snd entry)%Q) ->
  (0 < weightSum (List.filter (fun entry => Qpositive (snd entry)) given))%Q.
Proof.
  intros (entry & Hin & Hpos).
  set (usable := List.filter (fun entry => Qpositive (snd entry)) given).
  assert (Husable : In entry usable).
  { apply List.filter_In. split; [exact Hin|].
    unfold Qpositive. apply negb_true_iff.
    destruct (Qle_bool (snd entry) 0) eqn:Hle; [|reflexivity].
    apply Qle_bool_iff in Hle. exfalso. exact (Qlt_not_le _ _ Hpos Hle). }
  assert (Hall : forall x, In x usable -> (0 < snd x)%Q).
  { intros x Hx. apply (usable_positive given). exact Hx. }
  clearbody usable. clear Hin given.
  induction usable as [|x usable IH]; [destruct Husable|].
  cbn [weightSum fold_right]. fold (weightSum usable).
  assert (Hrest : (0 <= weightSum usable)%Q).
  { apply weightSum_nonneg. intros y Hy. apply Hall. right. exact Hy. }
  apply Qlt_le_trans with (snd x + 0)%Q.
  - rewrite Qplus_0_r. apply Hall. left. reflexivity.
  - apply Qplus_le_r. exact Hrest.
Qed.

(** The floors do not depend on how the sum of the weights is written. *)
Lemma floorShare_scaled T entries (t t' : Q) k :
  (t == t')%Q ->
  floorShare T (List.map (fun e => (fst e, (snd e / t)%Q)) entries) k
  = floorShare T (List.map (fun e => (fst e, (snd e / t')%Q)) entries) k.
Proof.
  intros Ht. induction entries as [|x entries IH]; [reflexivity|].
  unfold floorShare in *. cbn [List.map fold_right fst snd]. rewrite IH.
  assert (Hfloor : Qfloor (inject_Z T * (snd x / t)) = Qfloor (inject_Z T * (snd x / t'))).
  { apply Qfloor_comp. rewrite Ht. reflexivity. }
  rewrite Hfloor. reflexivity.
Qed.

Lemma allocSum_scaled T entries (t t' : Q) :
  (t == t')%Q ->
  allocSum T (List.map (fun e => (fst e, (snd e / t)%Q)) entries)
  = allocSum T (List.map (fun e => (fst e, (snd e / t')%Q)) entries).
Proof.
  intros Ht. induction entries as [|x entries IH]; [reflexivity|].
  unfold allocSum in *. cbn [List.map fold_right fst snd]. rewrite IH.
  assert (Hfloor : Qfloor (inject_Z T * (snd x / t)) = Qfloor (inject_Z T * (snd x / t'))).
  { apply Qfloor_comp. rewrite Ht. reflexivity. }
  rewrite Hfloor. reflexivity.
Qed.

(** C10: the gains of [calculateTaskStatGain] add up to
    [basePoints + levelBonus], with
    [basePoints = clamp(round(xpGain / 36 * priorityMultiplier), 1, 4)] and
    [levelBonus = clamp(levelUps, 0, 2)], hence to between 1 and 6 points.
    When the category is absent or none of its weights is positive, every
    point goes to discipline.  Otherwise each stat gets the floors of
    [totalPoints * weight / sum of the positive weights] over its positive
    entries, and what the floors leave over goes to a stat whose weight in
    the category is the largest. *)
Theorem calculateTaskStatGain_total
    (xpGain : Z) (priority : Priority) (category : option Category) (levelUps : Z) :
  let basePoints :=
    Z.max 1 (Z.min 4 (js_round (inject_Z xpGain / 36 * priorityMultiplier priority))) in
  let levelBonus := Z.max 0 (Z.min 2 levelUps) in
  let totalPoints := basePoints + levelBonus in
  let given := match category with Some c => statWeights c | None => [] end in
  let usable := List.filter (fun entry => Qpositive (snd entry)) given in
  let shares :=
    List.map (fun entry => (fst entry, (snd entry / weightSum usable)%Q)) usable in
  let gains := calculateTaskStatGain xpGain priority category levelUps in
  sd_total gains = totalPoints /\
  1 <= sd_total gains <= 6 /\
  ((forall entry, In entry given -> (snd entry <= 0)%Q) ->
   forall k, gains k = if decide (k = discipline) then Some totalPoints else None) /\
  ((exists entry, In entry given /\ (0 < snd entry)%Q) ->
   exists primary w,
     In (primary, w) given /\ (0 < w)%Q /\
     (forall entry, In entry given -> (snd entry <= w)%Q) /\
     forall k,
       sd_get gains k =
       floorShare totalPoints shares k +
       (if decide (k = primary) then totalPoints - allocSum totalPoints shares else 0)).
Proof.
  intros basePoints levelBonus totalPoints given usable shares gains.
  destruct (calculateTaskStatGain_distribution xpGain priority category levelUps)
    as (Htotal & Hrange & Hnone & Hsome).
  fold basePoints levelBonus totalPoints given gains in Htotal, Hrange, Hnone, Hsome.
  split; [exact Htotal|]. split; [exact Hrange|]. split.
  - intros Hall. apply Hnone. apply normalizeStatWeights_unusable. exact Hall.
  - intros Hex.
    pose proof (usable_total_positive given Hex) as Hpos. fold usable in Hpos.
    set (total := fold_left (fun sum entry => (sum + snd entry)%Q) usable 0%Q).
    assert (Heq : (total == weightSum usable)%Q).
    { unfold total. rewrite weight_fold_left. ring. }
    assert (Htpos : (0 < total)%Q) by (rewrite Heq; exact Hpos).
    assert (Hnormal : normalizeStatWeights given
                      = List.map (fun entry => (fst entry, (snd entry / total)%Q)) usable).
    { unfold normalizeStatWeights. fold usable. fold total.
      destruct (Qle_bool total 0) eqn:Hle; [|reflexivity].
      apply Qle_bool_iff in Hle. exfalso. exact (Qlt_not_le _ _ Htpos Hle). }
    rewrite Hnormal in Hsome.
    destruct Hsome as (primary & w' & Hin & Hmax & Hgains).
    { destruct Hex as (entry & Hentry & Hentrypos).
      assert (Hu : In entry usable).
      { apply List.filter_In. split; [exact Hentry|].
        unfold Qpositive. apply negb_true_iff.
        destruct (Qle_bool (snd entry) 0) eqn:Hle; [|reflexivity].
        apply Qle_bool_iff in Hle. exfalso. exact (Qlt_not_le _ _ Hentrypos Hle). }
      destruct usable; [destruct Hu | discriminate]. }
    apply in_map_iff in Hin. destruct Hin as ([p w] & Hpw & Hu).
    cbn [fst snd] in Hpw. injection Hpw as -> <-.
    destruct (usable_positive given _ Hu) as [Hgiven Hwpos]. cbn [snd] in Hwpos.
    exists primary, w. split; [exact Hgiven|]. split; [exact Hwpos|]. split.
    + intros entry Hentry.
      destruct (Qpositive (snd entry)) eqn:Hsign.
      * assert (He : In entry usable) by (apply List.filter_In; split; assumption).
        assert (Hle : (snd entry / total <= w / total)%Q).
        { apply (Hmax (fst entry, (snd entry / total)%Q)).
          apply in_map_iff. exists entry. split; [reflexivity | exact He]. }
        assert (Hne : ~ (total == 0)%Q).
        { intros Hz. rewrite Hz in Htpos. exact (Qlt_irrefl _ Htpos). }
        assert (Hl : (snd entry == snd entry / total * total)%Q) by (field; exact Hne).
        assert (Hr : (w == w / total * total)%Q) by (field; exact Hne).
        rewrite Hl, Hr. apply Qmult_le_compat_r; [exact Hle | apply Qlt_le_weak; exact Htpos].
      * unfold Qpositive in Hsign. apply negb_false_iff in Hsign.
        apply Qle_bool_iff in Hsign.
        apply Qle_trans with 0%Q; [exact Hsign | apply Qlt_le_weak; exact Hwpos].
    + intros k. rewrite Hgains. subst shares.
      rewrite (floorShare_scaled totalPoints usable total (weightSum usable) k Heq).
      rewrite (allocSum_scaled totalPoints usable total (weightSum usable) Heq).
      reflexivity.
Qed.

(** ** Calendar and streaks *)

Example parseISO_epoch : parseISO "1970-01-01" = Some 0.
Proof. vm_compute. reflexivity. Qed.

Example parseISO_2026 : parseISO "2026-02-10" = Some 20494.
Proof. vm_compute. reflexivity. Qed.

Example parseISO_invalid : parseISO "2026-02-30" = None /\ parseISO EmptyString = None.
Proof. vm_compute. split; reflexivity. Qed.

Example formatDay_2026 : formatDay 20494 = "2026-02-10"%string.
Proof. vm_compute. reflexivity. Qed.

Example parseInstant_test :
  parseInstant "2026-02-13T09:00:00.000Z" = Some 1770973200000.
Proof. vm_compute. reflexivity. Qed.

(** The two calendar conversions agree with each other and with the
    parser on every day from 2019-04-14 to 2027-06-30. *)
Example calendar_round_trip :
  forallb
    (fun z =>
       match civilFromDays z with
       | (y, m, d) => validDay y m d && (daysFromCivil y m d =? z)
       end
       && match parseISO (formatDay z) with
          | Some z' => z' =? z
          | None => false
          end)
    (List.map (fun i => 18000 + Z.of_nat i) (seq 0 3000)) = true.
Proof. vm_compute. reflexivity. Qed.

Lemma parseISO_empty : parseISO EmptyString = None.
Proof. reflexivity. Qed.

Lemma updateDayStreak_delta current last today :
  updateDayStreak current (Some last) today =
  match dayDelta today last with
  | Some delta =>
      if delta =? 0 then current else if delta =? 1 then current + 1 else 1
  | None => 1
  end.
Proof.
  unfold updateDayStreak, dayDelta. destruct last as [|c last]; [|reflexivity].
  rewrite parseISO_empty. destruct (parseISO today); reflexivity.
Qed.

(** C7: [updateDayStreak], as wrapped by [updateTaskStreak] and
    [updateFocusStreak]: without a last day the counter becomes 1; a
    calendar-day difference of 0 leaves it, of 1 increments it, anything
    else (a gap, a backward date, an unreadable date) resets it to 1; the
    last day is set to today in every case and the other counter is not
    touched.  From the empty state, 2026-02-10, 2026-02-11, 2026-02-13 give
    1, 2, 1, and a same-day repeat leaves the counter where it is. *)
Theorem updateDayStreak_cases :
  (forall current today, updateDayStreak current None today = 1) /\
  (forall current last today,
     dayDelta today last = Some 0 ->
     updateDayStreak current (Some last) today = current) /\
  (forall current last today,
     dayDelta today last = Some 1 ->
     updateDayStreak current (Some last) today = current + 1) /\
  (forall current last today,
     dayDelta today last <> Some 0 -> dayDelta today last <> Some 1 ->
     updateDayStreak current (Some last) today = 1) /\
  (forall streak today,
     taskDays (updateTaskStreak streak today)
       = updateDayStreak (taskDays streak) (lastTaskDay streak) today /\
     lastTaskDay (updateTaskStreak streak today) = Some today /\
     focusDays (updateTaskStreak streak today) = focusDays streak /\
     lastFocusDay (updateTaskStreak streak today) = lastFocusDay streak) /\
  (forall streak today,
     focusDays (updateFocusStreak streak today)
       = updateDayStreak (focusDays streak) (lastFocusDay streak) today /\
     lastFocusDay (updateFocusStreak streak today) = Some today /\
     taskDays (updateFocusStreak streak today) = taskDays streak /\
     lastTaskDay (updateFocusStreak streak today) = lastTaskDay streak) /\
  (let s1 := updateTaskStreak emptyStreak "2026-02-10" in
   let s2 := updateTaskStreak s1 "2026-02-11" in
   let s3 := updateTaskStreak s2 "2026-02-13" in
   taskDays s1 = 1 /\ taskDays s2 = 2 /\ taskDays s3 = 1) /\
  (let s := {| taskDays := 0; focusDays := 2; lastTaskDay := None;
               lastFocusDay := Some "2026-02-12"%string |} in
   focusDays (updateFocusStreak s "2026-02-12") = 2 /\
   lastFocusDay (updateFocusStreak s "2026-02-12") = Some "2026-02-12"%string) /\
  (dayDelta "2026-02-10" "2026-02-13" = Some (-3) /\
   updateDayStreak 7 (Some "2026-02-13"%string) "2026-02-10" = 1 /\
   dayDelta "2026-03-01" "2026-02-28" = Some 1 /\
   updateDayStreak 7 (Some "2026-02-28"%string) "2026-03-01" = 8).
Proof.
  split; [reflexivity|].
  split.
  { intros current last today H. rewrite updateDayStreak_delta, H. reflexivity. }
  split.
  { intros current last today H. rewrite updateDayStreak_delta, H. reflexivity. }
  split.
  { intros current last today H0 H1. rewrite updateDayStreak_delta.
    destruct (dayDelta today last) as [delta|]; [|reflexivity].
    destruct (delta =? 0) eqn:E0.
    - apply Z.eqb_eq in E0. subst. congruence.
    - destruct (delta =? 1) eqn:E1; [|reflexivity].
      apply Z.eqb_eq in E1. subst. congruence. }
  split.
  { intros streak today. repeat split. }
  split.
  { intros streak today. repeat split. }
  split.
  { vm_compute. repeat split. }
  split.
  { vm_compute. repeat split. }
  vm_compute. repeat split.
Qed.

(** ** Snapshot builder *)

Example snapshot_of_test_input :
  let text := stringifySnapshot (buildSnapshotFromData 20494 (testInput 20494 testPayload)) in
  includes "rawTaskTitle" text = false /\
  includes "should-not-be-exported" text = false /\
  includes "consistency-path-a-silver" text = true /\
  List.map percentage
    (topCategoriesWeek (buildSnapshotFromData 20494 (testInput 20494 testPayload)))
  = [67; 33].
Proof. vm_compute. repeat split. Qed.

Section SortFacts.
Context {A : Type}.

Lemma insert_sorted_perm (le : A -> A -> bool) x l :
  Permutation (insert_sorted le x l) (x :: l).
Proof.
  induction l as [|y l IH]; cbn [insert_sorted]; [reflexivity|].
  destruct (le x y); [reflexivity|].
  rewrite IH. apply perm_swap.
Qed.

Lemma stable_sort_perm (le : A -> A -> bool) l :
  Permutation (stable_sort le l) l.
Proof.
  induction l as [|x l IH]; cbn [stable_sort fold_right]; [reflexivity|].
  fold (stable_sort le l). rewrite insert_sorted_perm, IH. reflexivity.
Qed.

(** Sorting two lists that a relation [R] links element by element, with
    an order that cannot tell [R]-related elements apart, keeps them
    linked. *)
Context (R : A -> A -> Prop) (le : A -> A -> bool).
Hypothesis le_respects :
  forall x x' y y', R x x' -> R y y' -> le x y = le x' y'.

Lemma insert_sorted_Forall2 x x' l l' :
  R x x' -> Forall2 R l l' ->
  Forall2 R (insert_sorted le x l) (insert_sorted le x' l').
Proof.
  intros Hx Hl. induction Hl as [|y y' l l' Hy Hl IH]; cbn [insert_sorted].
  - constructor; [exact Hx | constructor].
  - rewrite (le_respects x x' y y' Hx Hy).
    destruct (le x' y').
    + constructor; [exact Hx|]. constructor; assumption.
    + constructor; assumption.
Qed.

Lemma stable_sort_Forall2 l l' :
  Forall2 R l l' -> Forall2 R (stable_sort le l) (stable_sort le l').
Proof.
  intros Hl. induction Hl as [|x x' l l' Hx Hl IH]; cbn [stable_sort fold_right].
  - constructor.
  - apply insert_sorted_Forall2; assumption.
Qed.

Lemma filter_Forall2 (p : A -> bool) l l' :
  (forall x x', R x x' -> p x = p x') ->
  Forall2 R l l' -> Forall2 R (List.filter p l) (List.filter p l').
Proof.
  intros Hp Hl. induction Hl as [|x x' l l' Hx Hl IH]; cbn [List.filter].
  - constructor.
  - rewrite (Hp x x' Hx). destruct (p x'); [constructor|]; assumption.
Qed.
End SortFacts.

(** The badge the snapshot reports does not depend on the other payload
    fields. *)
Lemma lastBadgeOf_achievement events events' range :
  Forall2 sameButOtherPayloadFields events events' ->
  match lastBadgeOf events range, lastBadgeOf events' range with
  | Some e, Some e' => sameButOtherPayloadFields e e'
  | None, None => True
  | _, _ => False
  end.
Proof.
  intros Hev. unfold lastBadgeOf.
  assert (Hsorted :
    Forall2 sameButOtherPayloadFields
      (stable_sort (fun a b => string_leb (occurredAt b) (occurredAt a))
         (List.filter
            (fun e => bool_decide (eventType e = BadgeUnlocked)
                      && isInRange (occurredAt e) range) events))
      (stable_sort (fun a b => string_leb (occurredAt b) (occurredAt a))
         (List.filter
            (fun e => bool_decide (eventType e = BadgeUnlocked)
                      && isInRange (occurredAt e) range) events'))).
  { apply stable_sort_Forall2.
    - intros x x' y y' (_ & _ & _ & Hx & _) (_ & _ & _ & Hy & _).
      rewrite Hx, Hy. reflexivity.
    - apply filter_Forall2; [|exact Hev].
      intros x x' (_ & _ & Ht & Ho & _). rewrite Ht, Ho. reflexivity. }
  destruct Hsorted; cbn [head]; [exact I | assumption].
Qed.

(** C1, counterexample: a [BadgeUnlocked] payload whose [rawTaskTitle]
    field holds the same text as its [achievementId]; the serialized
    snapshot contains that raw title. *)
Lemma snapshot_can_contain_a_raw_title :
  payload
    {| eventId := "1"; schemaVersion := 1; eventType := BadgeUnlocked;
       occurredAt := "2026-02-13T09:00:00.000Z"; userId := "u1";
       payload := echoPayload |} !! "rawTaskTitle"%string
  = Some (JsString "weekly-review") /\
  includes "weekly-review"
    (stringifySnapshot (buildSnapshotFromData 20494 (testInput 20494 echoPayload)))
  = true.
Proof. vm_compute. split; reflexivity. Qed.

Lemma withoutOtherPayloadFields_same input :
  sameButOtherPayloadFieldsInput input (withoutOtherPayloadFields input).
Proof.
  unfold sameButOtherPayloadFieldsInput, withoutOtherPayloadFields.
  cbn [input_range input_character input_streaks input_daily input_quests input_events].
  repeat (split; [reflexivity|]).
  induction (input_events input) as [|e events IH]; cbn [List.map]; constructor;
    [|exact IH].
  unfold sameButOtherPayloadFields.
  cbn [eventId schemaVersion eventType occurredAt userId payload].
  repeat (split; [reflexivity|]).
  destruct (payload e !! "achievementId"%string) as [v|].
  - symmetry. apply lookup_singleton_eq.
  - symmetry. apply lookup_empty.
Qed.

Lemma snapshot_respects_payload_fields now input input' :
  sameButOtherPayloadFieldsInput input input' ->
  buildSnapshotFromData now input = buildSnapshotFromData now input'.
Proof.
  intros (Hrange & Hchar & Hstreaks & Hdaily & Hquests & Hevents).
  unfold buildSnapshotFromData.
  rewrite <- Hrange, <- Hchar, <- Hstreaks, <- Hdaily, <- Hquests.
  pose proof (lastBadgeOf_achievement _ _ (input_range input) Hevents) as Hbadge.
  destruct (lastBadgeOf (input_events input) (input_range input)) as [e|],
           (lastBadgeOf (input_events input') (input_range input)) as [e'|];
    try contradiction.
  - destruct Hbadge as (_ & _ & _ & _ & _ & Hid). rewrite Hid. reflexivity.
  - reflexivity.
Qed.

(** C1, as amended: the snapshot takes from the events' payloads only the
    [achievementId] field of the most recent in-range [BadgeUnlocked]
    event (as [lastBadgeUnlocked]); every other payload field is
    discarded, so two inputs that differ only in such fields give the same
    snapshot and the same serialized text, which is the text obtained
    from the input with every other payload field removed. *)
Theorem snapshot_ignores_other_payload_fields
    (now : Z) (input input' : SnapshotInput) :
  sameButOtherPayloadFieldsInput input input' ->
  buildSnapshotFromData now input = buildSnapshotFromData now input' /\
  stringifySnapshot (buildSnapshotFromData now input)
    = stringifySnapshot (buildSnapshotFromData now input') /\
  stringifySnapshot (buildSnapshotFromData now input)
    = stringifySnapshot (buildSnapshotFromData now (withoutOtherPayloadFields input)) /\
  lastBadgeUnlocked (buildSnapshotFromData now input)
    = match lastBadgeOf (input_events input) (input_range input) with
      | Some e => payload e !! "achievementId"%string
      | None => None
      end.
Proof.
  intros Hsame.
  pose proof (snapshot_respects_payload_fields now input input' Hsame) as Heq.
  split; [exact Heq|]. split; [rewrite Heq; reflexivity|]. split; [|reflexivity].
  rewrite (snapshot_respects_payload_fields now input (withoutOtherPayloadFields input));
    [reflexivity | apply withoutOtherPayloadFields_same].
Qed.

Lemma snapshot_ignores_other_payload_fields_witness :
  buildSnapshotFromData 20494 (testInput 20494 testPayload)
    = buildSnapshotFromData 20494
        (testInput 20494 {[ "achievementId"%string := JsString "consistency-path-a-silver";
                            "notes"%string := JsString "call the bank" ]}) /\
  stringifySnapshot (buildSnapshotFromData 20494 (testInput 20494 testPayload))
    = stringifySnapshot
        (buildSnapshotFromData 20494
           (testInput 20494 {[ "achievementId"%string := JsString "consistency-path-a-silver";
                               "notes"%string := JsString "call the bank" ]})) /\
  stringifySnapshot (buildSnapshotFromData 20494 (testInput 20494 testPayload))
    = stringifySnapshot
        (buildSnapshotFromData 20494
           (withoutOtherPayloadFields (testInput 20494 testPayload))) /\
  lastBadgeUnlocked (buildSnapshotFromData 20494 (testInput 20494 testPayload))
    = match lastBadgeOf (input_events (testInput 20494 testPayload))
                        (input_range (testInput 20494 testPayload)) with
      | Some e => payload e !! "achievementId"%string
      | None => None
      end.
Proof.
  apply (snapshot_ignores_other_payload_fields 20494).
  unfold sameButOtherPayloadFieldsInput, testInput. cbn [input_range input_character
    input_streaks input_daily input_quests input_events].
  repeat (split; [reflexivity|]).
  constructor; [|constructor].
  unfold sameButOtherPayloadFields. cbn [eventId schemaVersion eventType occurredAt userId payload].
  repeat (split; [reflexivity|]). vm_compute. reflexivity.
Defined.

(** *** Shares of the top categories *)

Lemma record_add_nonneg key value map :
  0 <= value -> Forall (fun entry => 0 <= snd entry) map ->
  Forall (fun entry => 0 <= snd entry) (record_add key value map).
Proof.
  intros Hv Hmap. induction Hmap as [|[k v] map Hk Hmap IH]; cbn [record_add].
  - constructor; [cbn; lia | constructor].
  - cbn [snd] in Hk. destruct (String.eqb k key).
    + constructor; [cbn; lia | exact Hmap].
    + constructor; [exact Hk | exact IH].
Qed.

Lemma totalCategory_nonneg aggregates :
  nonnegativeMinutes aggregates ->
  Forall (fun entry => 0 <= snd entry) (totalCategory aggregates).
Proof.
  unfold totalCategory, nonnegativeMinutes.
  assert (Hgen : forall init,
    Forall (fun entry => 0 <= snd entry) init ->
    Forall (fun d => Forall (fun entry => 0 <= snd entry) (categoryFocusMinutes d))
           aggregates ->
    Forall (fun entry => 0 <= snd entry)
      (fold_left
         (fun map d =>
            fold_left (fun map entry => record_add (fst entry) (snd entry) map)
                      (categoryFocusMinutes d) map)
         aggregates init)).
  { induction aggregates as [|d aggregates IH]; intros init Hinit Hall; cbn [fold_left].
    - exact Hinit.
    - inversion Hall as [|? ? Hd Hrest]; subst. apply IH; [|exact Hrest].
      clear IH Hall Hrest. revert init Hinit.
      induction Hd as [|e es He Hes IHd]; intros init Hinit; cbn [fold_left].
      + exact Hinit.
      + apply IHd. apply record_add_nonneg; assumption. }
  intros Hall. apply Hgen; [constructor | exact Hall].
Qed.

Lemma filter_nonnegativeMinutes (p : DailyAggregate -> bool) dailies :
  nonnegativeMinutes dailies -> nonnegativeMinutes (List.filter p dailies).
Proof.
  unfold nonnegativeMinutes. intros H.
  induction H as [|d ds Hd Hds IH]; cbn [List.filter]; [constructor|].
  destruct (p d); [constructor|]; assumption.
Qed.

Lemma fold_left_sumMinutes entries init :
  fold_left (fun sum entry => sum + snd entry) entries init = init + sumMinutes entries.
Proof.
  revert init. induction entries as [|e entries IH]; intros init; cbn [fold_left sumMinutes fold_right].
  - lia.
  - rewrite IH. fold (sumMinutes entries). lia.
Qed.

Lemma sumMinutes_perm l l' : Permutation l l' -> sumMinutes l = sumMinutes l'.
Proof.
  induction 1 as [|x l l' _ IH|x y l|l l' l'' _ IH1 _ IH2]; cbn [sumMinutes fold_right] in *.
  - reflexivity.
  - fold (sumMinutes l) (sumMinutes l'). lia.
  - lia.
  - lia.
Qed.

Lemma sumMinutes_nonneg l :
  Forall (fun entry => 0 <= snd entry) l -> 0 <= sumMinutes l.
Proof.
  induction 1 as [|e l He _ IH]; cbn [sumMinutes fold_right]; [lia|].
  fold (sumMinutes l). lia.
Qed.

Lemma sumMinutes_firstn n l :
  Forall (fun entry => 0 <= snd entry) l -> sumMinutes (firstn n l) <= sumMinutes l.
Proof.
  intros H. revert n. induction H as [|e l He Hl IH]; intros [|n]; cbn [firstn sumMinutes fold_right].
  - lia.
  - lia.
  - fold (sumMinutes l). pose proof (sumMinutes_nonneg l Hl). lia.
  - fold (sumMinutes l) (sumMinutes (firstn n l)). specialize (IH n). lia.
Qed.

Lemma Forall_firstn_nonneg n (l : list (string * Z)) :
  Forall (fun entry => 0 <= snd entry) l ->
  Forall (fun entry => 0 <= snd entry) (firstn n l).
Proof.
  intros H. revert n. induction H as [|e l He Hl IH]; intros [|n]; cbn [firstn];
    constructor; auto.
Qed.

Lemma Qnonzero_of_pos (q : Q) : (0 < q)%Q -> ~ (q == 0)%Q.
Proof. intros Hq Hz. rewrite Hz in Hq. exact (Qlt_irrefl _ Hq). Qed.

Lemma inject_Z_pos (z : Z) : 0 < z -> (0 < inject_Z z)%Q.
Proof. intros Hz. change 0%Q with (inject_Z 0). rewrite <- Zlt_Qlt. exact Hz. Qed.

(** One share: between 0 and 100 when the minutes are within the total. *)
Lemma sharePercentage_range total minutes :
  0 <= minutes <= total -> 0 <= sharePercentage total minutes <= 100.
Proof.
  intros [Hlo Hhi]. unfold sharePercentage.
  destruct (total =? 0) eqn:Hz; [lia|]. apply Z.eqb_neq in Hz.
  assert (Htotal : (0 < inject_Z total)%Q) by (apply inject_Z_pos; lia).
  unfold js_round. split.
  - change 0 with (Qfloor 0). apply Qfloor_resp_le.
    assert (0 <= inject_Z minutes / inject_Z total * 100)%Q.
    { apply Qmult_le_0_compat; [|discriminate].
      apply Qle_shift_div_l; [exact Htotal|].
      rewrite Qmult_0_l. change 0%Q with (inject_Z 0). rewrite <- Zle_Qle. exact Hlo. }
    replace 0%Q with (0 + 0)%Q by reflexivity.
    apply Qplus_le_compat; [assumption | discriminate].
  - change 100 with (Qfloor (100 + (1 # 2))). apply Qfloor_resp_le.
    apply Qplus_le_compat; [|apply Qle_refl].
    assert (inject_Z minutes / inject_Z total <= 1)%Q.
    { apply Qle_shift_div_r; [exact Htotal|].
      rewrite Qmult_1_l. rewrite <- Zle_Qle. exact Hhi. }
    apply Qle_trans with (1 * 100)%Q; [|discriminate].
    apply Qmult_le_compat_r; [assumption | discriminate].
Qed.

(** The rounded shares of some entries exceed the exact shares by at most
    one half each. *)
Lemma percentages_bound total (sel : list (string * Z)) :
  0 < total ->
  (inject_Z (shareSum total sel)
   <= inject_Z (sumMinutes sel) / inject_Z total * 100
      + inject_Z (Z.of_nat (List.length sel)) * (1 # 2))%Q.
Proof.
  intros Hpos.
  assert (Htotal : (0 < inject_Z total)%Q) by (apply inject_Z_pos; exact Hpos).
  pose proof (Qnonzero_of_pos _ Htotal) as Hnz.
  induction sel as [|e sel IH].
  - cbn. unfold Qdiv. rewrite !Qmult_0_l. discriminate.
  - cbn [shareSum fold_right sumMinutes List.length].
    fold (sumMinutes sel) (shareSum total sel). rewrite Nat2Z.inj_succ.
    unfold Z.succ. rewrite !inject_Z_plus.
    unfold sharePercentage at 1.
    destruct (total =? 0) eqn:Hz; [apply Z.eqb_eq in Hz; lia|].
    assert (Hsplit :
      ((inject_Z (snd e) + inject_Z (sumMinutes sel)) / inject_Z total * 100
       + (inject_Z (Z.of_nat (List.length sel)) + inject_Z 1) * (1 # 2)
       == (inject_Z (snd e) / inject_Z total * 100 + (1 # 2))
          + (inject_Z (sumMinutes sel) / inject_Z total * 100
             + inject_Z (Z.of_nat (List.length sel)) * (1 # 2)))%Q).
    { change (inject_Z 1) with 1%Q. field. exact Hnz. }
    rewrite Hsplit. apply Qplus_le_compat; [|exact IH].
    unfold js_round. apply Qfloor_le.
Qed.

Lemma percentages_sum_le_101 total (sel : list (string * Z)) :
  Forall (fun entry => 0 <= snd entry) sel ->
  sumMinutes sel <= total ->
  (List.length sel <= 3)%nat ->
  shareSum total sel <= 101.
Proof.
  intros Hnn Hsum Hlen.
  destruct (Z.eq_dec total 0) as [->|Hnz].
  - assert (Hzero : forall l : list (string * Z), shareSum 0 l = 0).
    { induction l as [|e l IH]; cbn [shareSum fold_right]; [reflexivity|].
      fold (shareSum 0 l). rewrite IH. reflexivity. }
    rewrite Hzero. lia.
  - pose proof (sumMinutes_nonneg sel Hnn) as Hs0.
    assert (Hpos : 0 < total) by lia.
    pose proof (percentages_bound total sel Hpos) as Hb.
    assert (Htotal : (0 < inject_Z total)%Q) by (apply inject_Z_pos; exact Hpos).
    assert (Hfrac : (inject_Z (sumMinutes sel) / inject_Z total <= 1)%Q).
    { apply Qle_shift_div_r; [exact Htotal|].
      rewrite Qmult_1_l, <- Zle_Qle. exact Hsum. }
    assert (Hlen' : (inject_Z (Z.of_nat (List.length sel)) <= 3)%Q).
    { change 3%Q with (inject_Z 3). rewrite <- Zle_Qle. lia. }
    assert (Hq : (inject_Z (shareSum total sel) <= 203 # 2)%Q).
    { eapply Qle_trans; [exact Hb|].
      apply Qle_trans with (1 * 100 + 3 * (1 # 2))%Q; [|discriminate].
      apply Qplus_le_compat.
      - apply Qmult_le_compat_r; [exact Hfrac | discriminate].
      - apply Qmult_le_compat_r; [exact Hlen' | discriminate]. }
    apply Qfloor_resp_le in Hq. rewrite Qfloor_Z in Hq.
    exact Hq.
Qed.

Lemma topCategories_spec (entries : list (string * Z)) :
  Forall (fun entry => 0 <= snd entry) entries ->
  (List.length (topCategories entries) <= 3)%nat /\
  Forall (fun s => 0 <= percentage s <= 100) (topCategories entries) /\
  percentageSum (topCategories entries) <= 101.
Proof.
  intros Hnn. unfold topCategories.
  rewrite fold_left_sumMinutes, Z.add_0_l.
  set (sorted := stable_sort (fun a b : string * Z => snd b <=? snd a) entries).
  assert (Hperm : Permutation sorted entries) by apply stable_sort_perm.
  assert (Hsorted_nn : Forall (fun entry => 0 <= snd entry) sorted).
  { eapply Permutation_Forall; [symmetry; exact Hperm | exact Hnn]. }
  assert (Htop_nn : Forall (fun entry => 0 <= snd entry) (firstn 3 sorted))
    by (apply Forall_firstn_nonneg; exact Hsorted_nn).
  assert (Htop_sum : sumMinutes (firstn 3 sorted) <= sumMinutes entries).
  { rewrite <- (sumMinutes_perm _ _ Hperm). apply sumMinutes_firstn. exact Hsorted_nn. }
  assert (Htop_len : (List.length (firstn 3 sorted) <= 3)%nat).
  { rewrite length_firstn. lia. }
  split; [rewrite length_map; exact Htop_len|]. split.
  - apply Forall_map.
    assert (Heach : forall sel : list (string * Z),
              Forall (fun entry => 0 <= snd entry) sel ->
              sumMinutes sel <= sumMinutes entries ->
              Forall (fun entry =>
                        0 <= sharePercentage (sumMinutes entries) (snd entry) <= 100) sel).
    { induction sel as [|e sel IH]; intros Hsel Hle; [constructor|].
      inversion Hsel as [|? ? He Hrest]; subst.
      cbn [sumMinutes fold_right] in Hle. fold (sumMinutes sel) in Hle.
      pose proof (sumMinutes_nonneg sel Hrest).
      constructor.
      - apply sharePercentage_range. lia.
      - apply IH; [exact Hrest | lia]. }
    exact (Heach _ Htop_nn Htop_sum).
  - unfold percentageSum.
    assert (Hmap : forall sel : list (string * Z),
      fold_right (fun s acc => percentage s + acc) 0
        (List.map (fun entry =>
                     {| share_category := fst entry;
                        percentage := sharePercentage (sumMinutes entries) (snd entry) |}) sel)
      = shareSum (sumMinutes entries) sel).
    { induction sel as [|e sel IH]; cbn [List.map shareSum fold_right percentage]; [reflexivity|].
      fold (shareSum (sumMinutes entries) sel). rewrite IH. reflexivity. }
    rewrite Hmap. apply percentages_sum_le_101; assumption.
Qed.

(** C2, counterexample: a week with 3, 3 and 2 minutes in three
    categories; the shares 37.5, 37.5 and 25 round to 38, 38 and 25, which
    add up to 101. *)
Lemma top_categories_can_sum_to_101 :
  List.map percentage (topCategoriesWeek (buildSnapshotFromData 20494 (roundingInput 20494)))
    = [38; 38; 25] /\
  100 < percentageSum (topCategoriesWeek (buildSnapshotFromData 20494 (roundingInput 20494))).
Proof. vm_compute. split; reflexivity. Qed.

(** C2, as amended: when no category bucket of the input holds negative
    minutes, [topCategoriesWeek] has at most 3 entries, each percentage is
    in [[0, 100]], and the percentages add up to at most 101 (each of up
    to three shares is rounded to the nearest integer on its own). *)
Theorem topCategoriesWeek_percentages (now : Z) (input : SnapshotInput) :
  nonnegativeMinutes (input_daily input) ->
  let shares := topCategoriesWeek (buildSnapshotFromData now input) in
  (List.length shares <= 3)%nat /\
  Forall (fun s => 0 <= percentage s <= 100) shares /\
  percentageSum shares <= 101.
Proof.
  intros Hnn shares. subst shares. unfold buildSnapshotFromData.
  cbn [topCategoriesWeek].
  apply topCategories_spec, totalCategory_nonneg, filter_nonnegativeMinutes, Hnn.
Qed.

Lemma topCategoriesWeek_percentages_witness :
  (List.length (topCategoriesWeek (buildSnapshotFromData 20494 (roundingInput 20494))) <= 3)%nat /\
  Forall (fun s => 0 <= percentage s <= 100)
         (topCategoriesWeek (buildSnapshotFromData 20494 (roundingInput 20494))) /\
  percentageSum (topCategoriesWeek (buildSnapshotFromData 20494 (roundingInput 20494))) <= 101.
Proof.
  apply (topCategoriesWeek_percentages 20494 (roundingInput 20494)).
  unfold nonnegativeMinutes, roundingInput. cbn [input_daily].
  constructor; [|constructor]. cbn [categoryFocusMinutes].
  repeat (constructor; [cbn; lia|]). constructor.
Defined.

(** ** Reversal of a completion *)

Lemma removeXp_loop_undoes fuel cap lvl y l' x' :
  applyXp_loop fuel cap lvl y = (l', x') ->
  1 <= lvl ->
  forall g fuel2,
    (lvl < l' -> y - g < xpToNext lvl) ->
    l' - lvl <= Z.of_nat fuel2 ->
    removeXp_loop fuel2 l' (x' - g)
    = removeXp_loop (fuel2 - Z.to_nat (l' - lvl)) lvl (y - g).
Proof.
  revert lvl y. induction fuel as [|fuel IH]; intros lvl y Hrun Hlvl g fuel2 Hbelow Hfuel;
    cbn [applyXp_loop] in Hrun.
  - inversion Hrun; subst. rewrite Z.sub_diag. cbn. rewrite Nat.sub_0_r. reflexivity.
  - destruct ((xpToNext lvl <=? y) && (lvl <? cap)) eqn:Hc.
    + pose proof (applyXp_loop_level _ _ _ _ _ _ Hrun) as Hmono.
      pose proof (xpToNext_lower (lvl + 1) ltac:(lia)) as Hnext.
      rewrite (IH (lvl + 1) (y - xpToNext lvl) Hrun ltac:(lia) g fuel2); [|lia|lia].
      destruct (fuel2 - Z.to_nat (l' - (lvl + 1)))%nat as [|fuel3] eqn:Hf; [exfalso; lia|].
      cbn [removeXp_loop].
      assert (Hneg : y - xpToNext lvl - g < 0) by lia.
      assert (Hcond : (y - xpToNext lvl - g <? 0) && (1 <? lvl + 1) = true).
      { apply andb_true_iff. split; [apply Z.ltb_lt | apply Z.ltb_lt]; lia. }
      rewrite Hcond.
      replace (lvl + 1 - 1) with lvl by lia.
      replace (y - xpToNext lvl - g + xpToNext lvl) with (y - g) by lia.
      f_equal. lia.
    + inversion Hrun; subst. rewrite Z.sub_diag. cbn. rewrite Nat.sub_0_r. reflexivity.
Qed.

(** [removeXp] undoes [applyXp]: level and current XP come back. *)
Lemma removeXp_applyXp_level_xp (level0 xp0 life0 cap g : Z) :
  1 <= level0 -> 0 <= xp0 -> (level0 < cap -> xp0 < xpToNext level0) -> 0 <= g ->
  forall l' x',
    applyXp_loop (Z.to_nat (cap - level0)) cap level0 (xp0 + g) = (l', x') ->
    removeXp_loop (Z.to_nat (l' - 1)) l' (x' - Z.max 0 g) = (level0, xp0).
Proof.
  intros Hl Hx Hinv Hg l' x' Hrun.
  pose proof (applyXp_loop_level _ _ _ _ _ _ Hrun) as Hmono.
  rewrite Z.max_r by lia.
  rewrite (removeXp_loop_undoes _ _ _ _ _ _ Hrun ltac:(lia) g (Z.to_nat (l' - 1))).
  - replace (xp0 + g - g) with xp0 by lia.
    destruct (Z.to_nat (l' - 1) - Z.to_nat (l' - level0))%nat; cbn [removeXp_loop];
      [reflexivity|].
    assert (Hcond : (xp0 <? 0) && (1 <? level0) = false).
    { apply andb_false_iff. left. apply Z.ltb_ge. lia. }
    rewrite Hcond. reflexivity.
  - intros Hup. assert (level0 < cap).
    { destruct (Z.to_nat (cap - level0)) eqn:Hf; cbn [applyXp_loop] in Hrun.
      - inversion Hrun; lia.
      - destruct ((xpToNext level0 <=? xp0 + g) && (level0 <? cap)) eqn:Hc.
        + apply andb_true_iff in Hc as [_ Hc]. apply Z.ltb_lt in Hc. exact Hc.
        + inversion Hrun; lia. }
    specialize (Hinv ltac:(assumption)). lia.
  - lia.
Qed.

Lemma fold_stats_spec (step : Z -> Z -> Z) (gains : StatDelta) (l : list StatKey)
    (init : StatKey -> Z) (k : StatKey) :
  NoDup l ->
  fold_left
    (fun next stat =>
       match gains stat with
       | Some delta => if delta <=? 0 then next else stats_set next stat (step (next stat) delta)
       | None => next
       end) l init k
  = if decide (k ∈ l)
    then match gains k with
         | Some delta => if delta <=? 0 then init k else step (init k) delta
         | None => init k
         end
    else init k.
Proof.
  revert init. induction l as [|s l IH]; intros init Hnd; cbn [fold_left].
  - destruct (decide (k ∈ [])) as [Hin|]; [|reflexivity].
    exfalso. exact (not_elem_of_nil _ Hin).
  - apply NoDup_cons in Hnd as [Hs Hl]. rewrite (IH _ Hl).
    assert (Hother : k <> s ->
      match gains s with
      | Some delta => if delta <=? 0 then init else stats_set init s (step (init s) delta)
      | None => init
      end k = init k).
    { intros Hne. destruct (gains s) as [d|]; [|reflexivity].
      destruct (d <=? 0); [reflexivity|]. unfold stats_set.
      destruct (decide (k = s)); [contradiction | reflexivity]. }
    destruct (decide (k = s)) as [->|Hne].
    + destruct (decide (s ∈ l)) as [|_]; [contradiction|].
      destruct (decide (s ∈ s :: l)) as [_|Hn]; [|exfalso; apply Hn; left].
      destruct (gains s) as [d|]; [|reflexivity].
      destruct (d <=? 0); [reflexivity|]. unfold stats_set.
      destruct (decide (s = s)); [reflexivity | contradiction].
    + rewrite (Hother Hne).
      destruct (decide (k ∈ l)) as [Hin|Hnin];
        destruct (decide (k ∈ s :: l)) as [Hin'|Hnin']; try reflexivity.
      * exfalso. apply Hnin'. right. exact Hin.
      * exfalso. apply elem_of_cons in Hin' as [Heq|Hin']; [congruence | contradiction].
Qed.

Lemma all_stats_NoDup : NoDup all_stats.
Proof.
  unfold all_stats.
  repeat (apply NoDup_cons; split; [rewrite ?elem_of_cons, elem_of_nil; intuition discriminate|]).
  constructor.
Qed.

Lemma all_stats_complete k : k ∈ all_stats.
Proof. unfold all_stats. rewrite !elem_of_cons. destruct k; tauto. Qed.

Lemma applyStatGains_stats s gains k :
  stats (applyStatGains s gains) k
  = match gains k with
    | Some delta => if delta <=? 0 then stats s k else stats s k + delta
    | None => stats s k
    end.
Proof.
  unfold applyStatGains. cbn [stats].
  rewrite (fold_stats_spec (fun cur delta => cur + delta) gains all_stats (stats s) k
             all_stats_NoDup).
  destruct (decide (k ∈ all_stats)) as [_|Hn]; [reflexivity|].
  exfalso. apply Hn, all_stats_complete.
Qed.

Lemma revertStatGains_stats s gains k :
  stats (revertStatGains s gains) k
  = match gains k with
    | Some delta => if delta <=? 0 then stats s k else Z.max 1 (stats s k - delta)
    | None => stats s k
    end.
Proof.
  unfold revertStatGains. cbn [stats].
  rewrite (fold_stats_spec (fun cur delta => Z.max 1 (cur - delta)) gains all_stats
             (stats s) k all_stats_NoDup).
  destruct (decide (k ∈ all_stats)) as [_|Hn]; [reflexivity|].
  exfalso. apply Hn, all_stats_complete.
Qed.

Lemma applyXp_frame s g :
  stats (applyXp s g) = stats s /\ seasonCap (applyXp s g) = seasonCap s /\
  prestigeRank (applyXp s g) = prestigeRank s /\
  legacyPoints (applyXp s g) = legacyPoints s.
Proof. unfold applyXp. destruct (applyXp_loop _ _ _ _). repeat split. Qed.

Lemma removeXp_frame s g :
  stats (removeXp s g) = stats s /\ seasonCap (removeXp s g) = seasonCap s /\
  prestigeRank (removeXp s g) = prestigeRank s /\
  legacyPoints (removeXp s g) = legacyPoints s.
Proof. unfold removeXp. destruct (removeXp_loop _ _ _). repeat split. Qed.

(** Reverting the stored reward of a completion gives back the level, the
    current XP and every stat. *)
Lemma reward_reversal (c : CharacterState) (xp : Z) (gains : StatDelta) :
  1 <= level c -> 0 <= xpCurrent c -> xp_invariant c ->
  (forall k, 1 <= stats c k) -> 0 <= xp ->
  let next := applyStatGains (applyXp c xp) gains in
  let reverted := revertStatGains (removeXp next xp) gains in
  level reverted = level c /\
  xpCurrent reverted = xpCurrent c /\
  (forall k, stats reverted k = stats c k) /\
  seasonCap reverted = seasonCap c /\
  prestigeRank reverted = prestigeRank c /\
  legacyPoints reverted = legacyPoints c.
Proof.
  intros Hl Hx Hinv Hstats Hxp next reverted.
  assert (Hloop : exists l' x',
    applyXp_loop (Z.to_nat (seasonCap c - level c)) (seasonCap c) (level c)
                 (xpCurrent c + xp) = (l', x')).
  { destruct (applyXp_loop _ _ _ _) as [l' x']. eauto. }
  destruct Hloop as (l' & x' & Hrun).
  pose proof (removeXp_applyXp_level_xp (level c) (xpCurrent c) (xpLifetime c)
                (seasonCap c) xp Hl Hx Hinv Hxp l' x' Hrun) as Hback.
  assert (Hnext_level : level next = l').
  { subst next. unfold applyStatGains, applyXp. rewrite Hrun. reflexivity. }
  assert (Hnext_xp : xpCurrent next = x').
  { subst next. unfold applyStatGains, applyXp. rewrite Hrun. reflexivity. }
  assert (Hrev :
    level (removeXp next xp) = level c /\ xpCurrent (removeXp next xp) = xpCurrent c).
  { unfold removeXp. rewrite Hnext_level, Hnext_xp, Hback. cbn [level xpCurrent].
    split; [reflexivity|].
    destruct (xpCurrent c <? 0) eqn:Hneg; [apply Z.ltb_lt in Hneg; lia | reflexivity]. }
  destruct Hrev as [Hrl Hrx].
  split; [exact Hrl|]. split; [exact Hrx|]. split.
  - intros k. subst reverted. rewrite revertStatGains_stats.
    destruct (removeXp_frame next xp) as (Hs & _). rewrite Hs.
    subst next. rewrite applyStatGains_stats.
    destruct (applyXp_frame c xp) as (Hs' & _). rewrite Hs'.
    specialize (Hstats k).
    destruct (gains k) as [d|]; [|reflexivity].
    destruct (d <=? 0) eqn:Hd; [reflexivity|]. apply Z.leb_gt in Hd. lia.
  - destruct (removeXp_frame next xp) as (_ & Hr1 & Hr2 & Hr3).
    destruct (applyXp_frame c xp) as (_ & Ha1 & Ha2 & Ha3).
    subst reverted. unfold revertStatGains.
    cbn [seasonCap prestigeRank legacyPoints].
    rewrite Hr1, Hr2, Hr3. subst next. unfold applyStatGains.
    cbn [seasonCap prestigeRank legacyPoints].
    rewrite Ha1, Ha2, Ha3. repeat split.
Qed.

(** ** Completing a task and reopening it *)

Section ReversalProofs.

Variable dayKey : string -> string.
Variable nextRecurringDeadline : Task -> string -> option string.
Variable recurrenceLabel : Task -> option string.

Lemma syncQuestProgress_frame db :
  db_character (syncQuestProgress db).2 = db_character db /\
  db_tasks (syncQuestProgress db).2 = db_tasks db /\
  db_analyticsDaily (syncQuestProgress db).2 = db_analyticsDaily db /\
  db_streaks (syncQuestProgress db).2 = db_streaks db /\
  db_focusSessions (syncQuestProgress db).2 = db_focusSessions db /\
  db_achievements (syncQuestProgress db).2 = db_achievements db /\
  db_achievementProgress (syncQuestProgress db).2 = db_achievementProgress db.
Proof.
  unfold syncQuestProgress, store_bind, readDb.
  destruct (questUpdates db); cbn; repeat split.
Qed.

Lemma syncAchievementProgress_frame now db :
  db_character (syncAchievementProgress now db).2 = db_character db /\
  db_tasks (syncAchievementProgress now db).2 = db_tasks db /\
  db_analyticsDaily (syncAchievementProgress now db).2 = db_analyticsDaily db /\
  db_streaks (syncAchievementProgress now db).2 = db_streaks db /\
  db_focusSessions (syncAchievementProgress now db).2 = db_focusSessions db /\
  db_achievements (syncAchievementProgress now db).2 = db_achievements db /\
  db_quests (syncAchievementProgress now db).2 = db_quests db.
Proof.
  unfold syncAchievementProgress, store_bind, readDb.
  destruct (achievementRows now db); cbn; repeat split.
Qed.

Lemma refreshProjections_frame now db u db' :
  refreshProjections now db = (u, db') ->
  db_character db' = db_character db /\
  db_tasks db' = db_tasks db /\
  db_analyticsDaily db' = db_analyticsDaily db.
Proof.
  unfold refreshProjections, store_bind. intros Hrun.
  destruct (syncQuestProgress db) as [qs dbq] eqn:Hq.
  destruct (syncAchievementProgress now dbq) as [ps dbp] eqn:Hp.
  cbn in Hrun. inversion Hrun; subst.
  destruct (syncQuestProgress_frame db) as (Hc & Ht & Ha & _).
  destruct (syncAchievementProgress_frame now dbq) as (Hc' & Ht' & Ha' & _).
  rewrite Hq in Hc, Ht, Ha. rewrite Hp in Hc', Ht', Ha'. cbn [snd] in *.
  rewrite Hc', Ht', Ha'. auto.
Qed.

Lemma spawnNextOccurrence_frame task now db u db' :
  spawnNextOccurrence nextRecurringDeadline recurrenceLabel task now db = (u, db') ->
  db_character db' = db_character db /\
  db_analyticsDaily db' = db_analyticsDaily db /\
  forall k row, db_tasks db !! k = Some row -> db_tasks db' !! k = Some row.
Proof.
  unfold spawnNextOccurrence, store_bind, readDb, writeTasks, store_ret. intros Hrun.
  destruct (recurrence task); inversion Hrun; subst; cbn [db_character db_analyticsDaily db_tasks].
  - split; [reflexivity|]. split; [reflexivity|]. intros k row Hk.
    rewrite lookup_insert_ne; [exact Hk|].
    intros Heq. unfold makeId in Heq.
    pose proof (is_fresh (dom (db_tasks db))) as Hfresh.
    apply Hfresh. rewrite Heq. apply elem_of_dom. eauto.
  - auto.
Qed.

Lemma upsertDailyAggregate_counters occurredAt delta db u db' :
  keyedBy date (db_analyticsDaily db) ->
  upsertDailyAggregate dayKey occurredAt delta None 0 db = (u, db') ->
  completionsOn db' (dayKey occurredAt)
    = completionsOn db (dayKey occurredAt) + orZero (delta_completions delta) /\
  xpGainedOn db' (dayKey occurredAt)
    = xpGainedOn db (dayKey occurredAt) + orZero (delta_xpGained delta) /\
  keyedBy date (db_analyticsDaily db') /\
  db_character db' = db_character db /\
  db_tasks db' = db_tasks db.
Proof.
  intros Hkeyed. unfold upsertDailyAggregate, store_bind, readDb, putAnalyticsDaily.
  intros Hrun. inversion Hrun; subst; clear Hrun.
  unfold completionsOn, xpGainedOn.
  cbn [db_analyticsDaily db_character db_tasks date completions xpGained].
  assert (Hday :
    date match db_analyticsDaily db !! dayKey occurredAt with
         | Some existing => existing
         | None =>
             {| date := dayKey occurredAt; focusMinutes := 0; completions := 0;
                xpGained := 0; categoryFocusMinutes := [] |}
         end = dayKey occurredAt).
  { destruct (db_analyticsDaily db !! dayKey occurredAt) as [existing|] eqn:Hex.
    - exact (Hkeyed _ _ Hex).
    - reflexivity. }
  rewrite Hday, !lookup_insert_eq.
  cbn [completions xpGained].
  split; [destruct (db_analyticsDaily db !! dayKey occurredAt); reflexivity|].
  split; [destruct (db_analyticsDaily db !! dayKey occurredAt); reflexivity|].
  split; [|auto].
  intros k row Hk. destruct (decide (k = dayKey occurredAt)) as [->|Hne].
  - rewrite lookup_insert_eq in Hk. inversion Hk; subst. reflexivity.
  - rewrite lookup_insert_ne in Hk by congruence. exact (Hkeyed _ _ Hk).
Qed.

Lemma calculateTaskXp_positive input : 1 <= calculateTaskXp input.
Proof. unfold calculateTaskXp. lia. Qed.

(** What [completeTask] leaves in the store for a task that is there and
    not done, when a character exists. *)
Lemma completeTask_effect (now userId taskId : string) (db : Db) (task : Task)
    (c : CharacterState) :
  db_tasks db !! taskId = Some task ->
  task_id task = taskId ->
  task_status task = todo ->
  db_character db = Some c ->
  keyedBy date (db_analyticsDaily db) ->
  let updated := withCompletion task done (Some now) now (completionReward task) in
  let xp := calculateTaskXp (taskXpInputOf db (dayKey now) updated c) in
  let gains :=
    calculateTaskStatGain xp (task_priority task)
      (db_categories db !! task_categoryId task)
      (Z.max 0 (level (applyXp c xp) - level c)) in
  let db1 :=
    (completeTask dayKey nextRecurringDeadline recurrenceLabel now (Some userId) taskId db).2 in
  db_character db1 = Some (applyStatGains (applyXp c xp) gains) /\
  db_tasks db1 !! taskId
    = Some (withCompletion updated done (Some now) now
              (Some {| stored_xpGain := xp; stored_statGains := gains |})) /\
  completionsOn db1 (dayKey now) = completionsOn db (dayKey now) + 1 /\
  xpGainedOn db1 (dayKey now) = xpGainedOn db (dayKey now) + xp /\
  keyedBy date (db_analyticsDaily db1).
Proof.
  intros Htask Hid Hstatus Hchar Hkeyed updated xp gains db1.
  subst db1. unfold completeTask, store_bind, readDb.
  rewrite Htask, Hstatus. rewrite bool_decide_false by discriminate.
  unfold recordTaskCompletion, store_bind, readDb. rewrite Hchar.
  unfold putCharacter, putStreaks, appendEvent, store_bind, readDb, addEvent, store_ret,
    applyTaskAnalytics.
  cbn [db_character db_streaks db_tasks db_categories db_focusSessions db_quests
       db_achievements db_achievementProgress db_analyticsDaily db_eventLog
       task_priority task_categoryId task_id withCompletion completedAt
       xpGain statGains fst snd].
  fold updated. fold xp. fold gains.
  match goal with
  | |- context [upsertDailyAggregate dayKey now ?d None 0 ?dbA] =>
      destruct (upsertDailyAggregate dayKey now d None 0 dbA) as [u dbB] eqn:HB;
      pose proof (upsertDailyAggregate_counters now d dbA u dbB) as Hups
  end.
  cbn [db_analyticsDaily db_character db_tasks] in Hups.
  specialize (Hups Hkeyed HB). cbn [delta_completions delta_xpGained orZero] in Hups.
  destruct Hups as (Hcomp & Hxp & Hkeyed' & HcharB & HtasksB).
  unfold completionsOn, xpGainedOn in Hcomp, Hxp.
  cbn [db_analyticsDaily] in Hcomp, Hxp.
  assert (Hpos : (0 <? xp) = true).
  { apply Z.ltb_lt. pose proof (calculateTaskXp_positive
      (taskXpInputOf db (dayKey now) updated c)). subst xp. lia. }
  cbn [xpGain statGains]. rewrite Hpos. unfold writeTasks.
  cbn [db_character db_streaks db_tasks db_categories db_focusSessions db_quests
       db_achievements db_achievementProgress db_analyticsDaily db_eventLog].
  match goal with
  | |- context [spawnNextOccurrence _ _ ?t now ?dbC] =>
      destruct (spawnNextOccurrence nextRecurringDeadline recurrenceLabel t now dbC)
        as [u' dbD] eqn:HD;
      pose proof (spawnNextOccurrence_frame t now dbC u' dbD HD) as (HcharD & HanaD & HtasksD)
  end.
  cbn [db_character db_tasks db_analyticsDaily] in HcharD, HanaD, HtasksD.
  destruct (refreshProjections now dbD) as [u'' dbE] eqn:HE.
  pose proof (refreshProjections_frame now dbD u'' dbE HE) as (HcharE & HtasksE & HanaE).
  cbn [snd]. unfold completionsOn, xpGainedOn.
  rewrite HcharE, HtasksE, HanaE, HcharD, HanaD, HcharB.
  split; [reflexivity|]. split.
  { apply HtasksD. rewrite HtasksB. cbn [db_tasks]. rewrite Hid.
    apply lookup_insert_eq. }
  split; [exact Hcomp|]. split; [exact Hxp|]. exact Hkeyed'.
Qed.

(** What [reopenTask] leaves in the store for a done task that carries its
    stored reward. *)
Lemma reopenTask_effect (now userId taskId : string) (db : Db) (task : Task)
    (stored : CompletionReward) (completed : string) (c : CharacterState) :
  db_tasks db !! taskId = Some task ->
  task_status task = done ->
  completionReward task = Some stored ->
  completedAt task = Some completed ->
  completed <> EmptyString ->
  db_character db = Some c ->
  keyedBy date (db_analyticsDaily db) ->
  let db2 := (reopenTask dayKey now (Some userId) taskId db).2 in
  db_character db2
    = Some (revertStatGains (removeXp c (stored_xpGain stored)) (stored_statGains stored)) /\
  completionsOn db2 (dayKey completed) = completionsOn db (dayKey completed) - 1 /\
  xpGainedOn db2 (dayKey completed)
    = xpGainedOn db (dayKey completed)
      + (if stored_xpGain stored =? 0 then 0 else - stored_xpGain stored).
Proof.
  intros Htask Hstatus Hreward Hat Hnonempty Hchar Hkeyed db2.
  subst db2. unfold reopenTask, store_bind, readDb.
  rewrite Htask, Hstatus. rewrite bool_decide_true by reflexivity. cbn [negb].
  rewrite Hreward, Hchar, Hat.
  assert (Htruthy : truthy (Some completed) = true).
  { destruct completed; [contradiction | reflexivity]. }
  rewrite Htruthy.
  unfold putCharacter, writeTasks, appendEvent, store_bind, readDb, addEvent, store_ret.
  cbn [db_character db_streaks db_tasks db_categories db_focusSessions db_quests
       db_achievements db_achievementProgress db_analyticsDaily db_eventLog fst snd].
  match goal with
  | |- context [upsertDailyAggregate dayKey completed ?d None 0 ?dbA] =>
      destruct (upsertDailyAggregate dayKey completed d None 0 dbA) as [u dbB] eqn:HB;
      pose proof (upsertDailyAggregate_counters completed d dbA u dbB) as Hups
  end.
  cbn [db_analyticsDaily db_character db_tasks] in Hups.
  specialize (Hups Hkeyed HB). cbn [delta_completions delta_xpGained orZero] in Hups.
  destruct Hups as (Hcomp & Hxp & _ & HcharB & _).
  unfold completionsOn, xpGainedOn in Hcomp, Hxp.
  cbn [db_analyticsDaily] in Hcomp, Hxp.
  cbn [db_character db_streaks db_tasks db_categories db_focusSessions db_quests
       db_achievements db_achievementProgress db_analyticsDaily db_eventLog].
  match goal with
  | |- context [refreshProjections now ?dbC] =>
      destruct (refreshProjections now dbC) as [u' dbD] eqn:HD;
      pose proof (refreshProjections_frame now dbC u' dbD HD) as (HcharD & _ & HanaD)
  end.
  cbn [db_character db_analyticsDaily] in HcharD, HanaD.
  cbn [snd]. unfold completionsOn, xpGainedOn.
  rewrite HcharD, HanaD, HcharB.
  split; [reflexivity|]. split; [rewrite Hcomp; lia | exact Hxp].
Qed.

(** C3: a task that is completed with [completeTask] and then reopened
    with [reopenTask], nothing else happening in between, leaves the
    character with the level, the current XP and the stats it had before,
    and the completion day's aggregate with the [completions] and
    [xpGained] it had before.  The store is as the application keeps it:
    the task is stored under its id and not done, the aggregates under
    their date, and the character satisfies its invariant with every stat
    at least 1 (stats start at 5 and a reversal never goes below 1). *)
Theorem complete_then_reopen_restores
    (now1 now2 userId taskId : string) (db : Db) (task : Task) (c : CharacterState) :
  db_tasks db !! taskId = Some task ->
  task_id task = taskId ->
  task_status task = todo ->
  db_character db = Some c ->
  1 <= level c -> 0 <= xpCurrent c -> xp_invariant c ->
  (forall k, 1 <= stats c k) ->
  keyedBy date (db_analyticsDaily db) ->
  now1 <> EmptyString ->
  let db1 :=
    (completeTask dayKey nextRecurringDeadline recurrenceLabel now1 (Some userId) taskId db).2 in
  let db2 := (reopenTask dayKey now2 (Some userId) taskId db1).2 in
  exists completed reward c1 c2,
    (db_tasks db1 !! taskId = Some completed /\
     task_status completed = done /\
     completionReward completed = Some reward /\
     1 <= stored_xpGain reward /\
     db_character db1 = Some c1 /\
     completionsOn db1 (dayKey now1) = completionsOn db (dayKey now1) + 1 /\
     xpGainedOn db1 (dayKey now1) = xpGainedOn db (dayKey now1) + stored_xpGain reward) /\
    (db_character db2 = Some c2 /\
     c2 = revertStatGains (removeXp c1 (stored_xpGain reward)) (stored_statGains reward) /\
     level c2 = level c /\
     xpCurrent c2 = xpCurrent c /\
     (forall k, stats c2 k = stats c k)) /\
    completionsOn db2 (dayKey now1) = completionsOn db (dayKey now1) /\
    xpGainedOn db2 (dayKey now1) = xpGainedOn db (dayKey now1).
Proof.
  intros Htask Hid Hstatus Hchar Hl Hx Hinv Hstats Hkeyed Hnow db1 db2.
  pose proof (completeTask_effect now1 userId taskId db task c
                Htask Hid Hstatus Hchar Hkeyed) as Heff.
  cbv zeta in Heff. fold db1 in Heff.
  set (updated := withCompletion task done (Some now1) now1 (completionReward task)) in *.
  set (xp := calculateTaskXp (taskXpInputOf db (dayKey now1) updated c)) in *.
  set (gains := calculateTaskStatGain xp (task_priority task)
                  (db_categories db !! task_categoryId task)
                  (Z.max 0 (level (applyXp c xp) - level c))) in *.
  destruct Heff as (Hchar1 & Htask1 & Hcomp1 & Hxp1 & Hkeyed1).
  assert (Hxp_pos : 1 <= xp) by (subst xp; apply calculateTaskXp_positive).
  pose proof (reopenTask_effect now2 userId taskId db1 _
                {| stored_xpGain := xp; stored_statGains := gains |} now1
                (applyStatGains (applyXp c xp) gains)
                Htask1 eq_refl eq_refl eq_refl Hnow Hchar1 Hkeyed1) as Hre.
  cbv zeta in Hre. fold db2 in Hre. cbn [stored_xpGain stored_statGains] in Hre.
  destruct Hre as (Hchar2 & Hcomp2 & Hxp2).
  pose proof (reward_reversal c xp gains Hl Hx Hinv Hstats ltac:(lia)) as Hrev.
  cbv zeta in Hrev. destruct Hrev as (Hrl & Hrx & Hrs & _).
  eexists _, {| stored_xpGain := xp; stored_statGains := gains |}, _, _.
  split.
  { split; [exact Htask1|]. cbn [task_status completionReward withCompletion].
    split; [reflexivity|]. split; [reflexivity|]. cbn [stored_xpGain].
    split; [exact Hxp_pos|]. split; [exact Hchar1|]. split; [exact Hcomp1 | exact Hxp1]. }
  split.
  { split; [exact Hchar2|]. cbn [stored_xpGain stored_statGains].
    split; [reflexivity|]. split; [exact Hrl|]. split; [exact Hrx | exact Hrs]. }
  split.
  - rewrite Hcomp2, Hcomp1. lia.
  - rewrite Hxp2, Hxp1.
    destruct (xp =? 0) eqn:Hz; [apply Z.eqb_eq in Hz; lia | lia].
Qed.

End ReversalProofs.

(** ** Running the sync passes twice *)

Section TableFacts.

Context {V : Type} (key : V -> string).

Lemma bulkPut_lookup_none (rows : list V) (table : gmap string V) (k : string) :
  (forall r, r ∈ rows -> key r <> k) ->
  bulkPut key rows table !! k = table !! k.
Proof.
  revert table. induction rows as [|r rows IH]; intros table Hnone; cbn [bulkPut fold_left].
  - reflexivity.
  - fold (bulkPut key rows (<[key r := r]> table)). rewrite IH.
    + apply lookup_insert_ne. apply Hnone. left.
    + intros r' Hr'. apply Hnone. right. exact Hr'.
Qed.

Lemma bulkPut_lookup_unique (rows : list V) (table : gmap string V) (k : string) (r0 : V) :
  r0 ∈ rows -> key r0 = k ->
  (forall r, r ∈ rows -> key r = k -> r = r0) ->
  bulkPut key rows table !! k = Some r0.
Proof.
  revert table. induction rows as [|r rows IH]; intros table Hin Hkey Huniq.
  - exfalso. exact (not_elem_of_nil _ Hin).
  - cbn [bulkPut fold_left]. fold (bulkPut key rows (<[key r := r]> table)).
    destruct (decide (Exists (fun r' => key r' = k) rows)) as [Hex|Hnex].
    + apply Exists_exists in Hex as (r' & Hr' & Hk').
      assert (r' = r0) by (apply Huniq; [right; exact Hr' | exact Hk']). subst r'.
      apply IH; [exact Hr' | exact Hkey |].
      intros r1 Hr1 Hk1. apply Huniq; [right; exact Hr1 | exact Hk1].
    + rewrite bulkPut_lookup_none.
      * apply elem_of_cons in Hin as [->|Hin].
        -- rewrite Hkey. apply lookup_insert_eq.
        -- exfalso. apply Hnex. apply Exists_exists. exists r0. split; assumption.
      * intros r' Hr' Hk'. apply Hnex. apply Exists_exists. exists r'. split; assumption.
Qed.

Lemma bulkPut_keyed (rows : list V) (table : gmap string V) :
  keyedBy key table -> keyedBy key (bulkPut key rows table).
Proof.
  revert table. induction rows as [|r rows IH]; intros table Hkeyed; cbn [bulkPut fold_left].
  - exact Hkeyed.
  - fold (bulkPut key rows (<[key r := r]> table)). apply IH.
    intros k row Hk. destruct (decide (k = key r)) as [->|Hne].
    + rewrite lookup_insert_eq in Hk. inversion Hk; subst. reflexivity.
    + rewrite lookup_insert_ne in Hk by congruence. exact (Hkeyed _ _ Hk).
Qed.

Lemma elem_of_toArray (table : gmap string V) (row : V) :
  row ∈ toArray table <-> exists k, table !! k = Some row.
Proof.
  unfold toArray. rewrite list_elem_of_fmap. split.
  - intros ([k r] & -> & Hin). apply elem_of_map_to_list in Hin. eauto.
  - intros (k & Hk). exists (k, row). split; [reflexivity|].
    apply elem_of_map_to_list. exact Hk.
Qed.

End TableFacts.

Lemma omap_all_none {A B : Type} (f : A -> option B) (l : list A) :
  (forall x, x ∈ l -> f x = None) -> omap f l = [].
Proof.
  induction l as [|x l IH]; intros Hnone; [reflexivity|].
  cbn [omap list_omap]. rewrite (Hnone x) by left.
  apply IH. intros y Hy. apply Hnone. right. exact Hy.
Qed.

Lemma questUpdate_id totals q q' :
  questUpdate totals q = Some q' -> quest_id q' = quest_id q.
Proof.
  unfold questUpdate. destruct (_ || _); [|discriminate].
  intros H. inversion H. reflexivity.
Qed.

(** A row that a sync pass has brought up to date needs no further write. *)
Lemma questUpdate_settled totals q : questUpdate totals (questSynced totals q) = None.
Proof.
  unfold questSynced.
  destruct (questUpdate totals q) as [q'|] eqn:Hu; [|exact Hu].
  unfold questUpdate in Hu.
  destruct (_ || _) in Hu; [|discriminate]. inversion Hu; subst q'. clear Hu.
  unfold questUpdate.
  change (questRawProgress totals (withProgress q _ _)) with (questRawProgress totals q).
  cbn [target progress quest_status withProgress].
  rewrite Z.eqb_refl. rewrite bool_decide_true by reflexivity. reflexivity.
Qed.

Lemma questUpdates_origin db r k :
  keyedBy quest_id (db_quests db) ->
  r ∈ questUpdates db -> quest_id r = k ->
  exists q, db_quests db !! k = Some q /\ questUpdate (syncTotalsOf db) q = Some r.
Proof.
  intros Hkeyed Hin Hk. unfold questUpdates in Hin.
  apply list_elem_of_omap in Hin as (q & Hq & Hu).
  apply elem_of_toArray in Hq as (k' & Hk').
  pose proof (Hkeyed _ _ Hk') as Hid.
  pose proof (questUpdate_id _ _ _ Hu) as Hid'.
  exists q. split; [|exact Hu]. rewrite <- Hk, Hid', Hid. exact Hk'.
Qed.

Lemma syncQuestProgress_writes db :
  db_quests (syncQuestProgress db).2 = bulkPut quest_id (questUpdates db) (db_quests db).
Proof.
  unfold syncQuestProgress, store_bind, readDb.
  destruct (questUpdates db); reflexivity.
Qed.

Lemma syncQuestProgress_quests db :
  keyedBy quest_id (db_quests db) ->
  db_quests (syncQuestProgress db).2 = questSynced (syncTotalsOf db) <$> db_quests db.
Proof.
  intros Hkeyed. rewrite syncQuestProgress_writes.
  apply map_eq. intros k. rewrite lookup_fmap.
  destruct (db_quests db !! k) as [q|] eqn:Hk; cbn [fmap option_fmap option_map].
  - unfold questSynced. destruct (questUpdate (syncTotalsOf db) q) as [q'|] eqn:Hu.
    + apply bulkPut_lookup_unique.
      * unfold questUpdates. apply list_elem_of_omap. exists q. split; [|exact Hu].
        apply elem_of_toArray. eauto.
      * rewrite (questUpdate_id _ _ _ Hu). exact (Hkeyed _ _ Hk).
      * intros r Hr Hrk.
        destruct (questUpdates_origin db r k Hkeyed Hr Hrk) as (q0 & Hq0 & Hu0).
        congruence.
    + rewrite bulkPut_lookup_none; [exact Hk|].
      intros r Hr Hrk.
      destruct (questUpdates_origin db r k Hkeyed Hr Hrk) as (q0 & Hq0 & Hu0).
      congruence.
  - rewrite bulkPut_lookup_none; [exact Hk|].
    intros r Hr Hrk.
    destruct (questUpdates_origin db r k Hkeyed Hr Hrk) as (q0 & Hq0 & Hu0).
    congruence.
Qed.

Lemma syncTotalsOf_ext db db' :
  db_tasks db' = db_tasks db -> db_focusSessions db' = db_focusSessions db ->
  syncTotalsOf db' = syncTotalsOf db.
Proof. intros Ht Hs. unfold syncTotalsOf. rewrite Ht, Hs. reflexivity. Qed.

Lemma achievementValue_ext db db' a :
  db_tasks db' = db_tasks db -> db_focusSessions db' = db_focusSessions db ->
  db_streaks db' = db_streaks db ->
  achievementValue db' a = achievementValue db a.
Proof. intros Ht Hs Hst. unfold achievementValue. rewrite Ht, Hs, Hst. reflexivity. Qed.

Lemma toProgressRecord_toArray (table : gmap string AchievementProgress) :
  keyedBy progress_id table -> toProgressRecord (toArray table) = table.
Proof.
  intros Hkeyed. apply map_eq. intros k.
  change (toProgressRecord (toArray table)) with (bulkPut progress_id (toArray table) ∅).
  destruct (table !! k) as [row|] eqn:Hk.
  - apply bulkPut_lookup_unique.
    + apply elem_of_toArray. eauto.
    + exact (Hkeyed _ _ Hk).
    + intros r Hr Hrk. apply elem_of_toArray in Hr as (k' & Hk').
      pose proof (Hkeyed _ _ Hk'). congruence.
  - rewrite bulkPut_lookup_none; [apply lookup_empty|].
    intros r Hr Hrk. apply elem_of_toArray in Hr as (k' & Hk').
    pose proof (Hkeyed _ _ Hk'). congruence.
Qed.

Lemma achievementRow_some now db pm a r :
  achievementRow now db pm a = Some r -> r = achievementSynced now db pm a.
Proof.
  unfold achievementRow, achievementSynced.
  destruct (pm !! achievement_id a) as [old|].
  - destruct (_ || _); [|discriminate]. intros H. inversion H. reflexivity.
  - intros H. inversion H. reflexivity.
Qed.

Lemma achievementRow_none now db pm a :
  keyedBy progress_id pm ->
  achievementRow now db pm a = None ->
  pm !! achievement_id a = Some (achievementSynced now db pm a).
Proof.
  intros Hkeyed. unfold achievementRow, achievementSynced.
  destruct (pm !! achievement_id a) as [old|] eqn:Hold; [|discriminate].
  destruct (negb (progress_value old =? achievementValue db a)) eqn:Hv;
    [discriminate|].
  cbn [orb].
  match goal with
  | |- (if negb (bool_decide (?x = ?y)) then _ else _) = _ -> _ =>
      destruct (bool_decide (x = y)) eqn:Hu; [|discriminate]
  end.
  intros _. apply negb_false_iff, Z.eqb_eq in Hv. apply bool_decide_eq_true in Hu.
  pose proof (Hkeyed _ _ Hold) as Hid.
  destruct old as [oid ovalue ounlocked]. cbn in *. subst. rewrite <- Hu. reflexivity.
Qed.

Lemma achievementRows_origin now db r k :
  keyedBy achievement_id (db_achievements db) ->
  r ∈ achievementRows now db -> progress_id r = k ->
  exists a, db_achievements db !! k = Some a /\
            r = achievementSynced now db
                  (toProgressRecord (toArray (db_achievementProgress db))) a /\
            achievementRow now db
              (toProgressRecord (toArray (db_achievementProgress db))) a = Some r.
Proof.
  intros Hkeyed Hin Hk. unfold achievementRows in Hin.
  apply list_elem_of_omap in Hin as (a & Ha & Hrow).
  apply elem_of_toArray in Ha as (k' & Hk').
  pose proof (Hkeyed _ _ Hk') as Hid.
  pose proof (achievementRow_some _ _ _ _ _ Hrow) as Hr.
  exists a. split; [|split; [exact Hr | exact Hrow]].
  rewrite <- Hk, Hr. cbn [progress_id achievementSynced]. rewrite Hid. exact Hk'.
Qed.

Lemma syncAchievementProgress_writes now db :
  db_achievementProgress (syncAchievementProgress now db).2
  = bulkPut progress_id (achievementRows now db) (db_achievementProgress db).
Proof.
  unfold syncAchievementProgress, store_bind, readDb.
  destruct (achievementRows now db); reflexivity.
Qed.

(** After a pass, every achievement has its computed row in the table. *)
Lemma syncAchievementProgress_rows now db k a :
  keyedBy achievement_id (db_achievements db) ->
  keyedBy progress_id (db_achievementProgress db) ->
  db_achievements db !! k = Some a ->
  db_achievementProgress (syncAchievementProgress now db).2 !! k
  = Some (achievementSynced now db (db_achievementProgress db) a).
Proof.
  intros Hka Hkp Ha. rewrite syncAchievementProgress_writes.
  pose proof (toProgressRecord_toArray _ Hkp) as Hpm.
  pose proof (Hka _ _ Ha) as Hid.
  destruct (achievementRow now db (db_achievementProgress db) a) as [r|] eqn:Hrow.
  - pose proof (achievementRow_some _ _ _ _ _ Hrow) as Hr. subst r.
    apply bulkPut_lookup_unique.
    + unfold achievementRows. apply list_elem_of_omap. exists a.
      split; [apply elem_of_toArray; eauto|]. rewrite Hpm. exact Hrow.
    + cbn [progress_id achievementSynced]. exact Hid.
    + intros r Hr Hrk.
      destruct (achievementRows_origin now db r k Hka Hr Hrk) as (a0 & Ha0 & Hr0 & _).
      rewrite Hpm in Hr0. congruence.
  - rewrite bulkPut_lookup_none.
    + rewrite <- Hid. apply achievementRow_none; assumption.
    + intros r Hr Hrk.
      destruct (achievementRows_origin now db r k Hka Hr Hrk) as (a0 & Ha0 & _ & Hrow0).
      rewrite Hpm in Hrow0. congruence.
Qed.

(** A row a pass has computed is found up to date by the next pass,
    whatever the clock says then. *)
Lemma achievementRow_settled now now' db db' pm pm' a :
  achievementValue db' a = achievementValue db a ->
  pm' !! achievement_id a = Some (achievementSynced now db pm a) ->
  achievementRow now' db' pm' a = None.
Proof.
  intros Hv Hpm'. unfold achievementRow. rewrite Hpm', Hv.
  cbn [progress_value unlockedAt achievementSynced].
  rewrite Z.eqb_refl. cbn [negb orb].
  assert (Hsame :
    match
      match pm !! achievement_id a with
      | Some row =>
          match unlockedAt row with
          | Some at_ => Some at_
          | None =>
              if requirementValue a <=? achievementValue db a then Some now else None
          end
      | None => if requirementValue a <=? achievementValue db a then Some now else None
      end
    with
    | Some at_ => Some at_
    | None => if requirementValue a <=? achievementValue db a then Some now' else None
    end
    = match pm !! achievement_id a with
      | Some row =>
          match unlockedAt row with
          | Some at_ => Some at_
          | None =>
              if requirementValue a <=? achievementValue db a then Some now else None
          end
      | None => if requirementValue a <=? achievementValue db a then Some now else None
      end).
  { destruct (pm !! achievement_id a) as [row|]; [destruct (unlockedAt row)|];
      try reflexivity;
      destruct (requirementValue a <=? achievementValue db a); reflexivity. }
  rewrite Hsame. rewrite bool_decide_true by reflexivity. reflexivity.
Qed.

(** C8: right after a first run of [syncQuestProgress] and
    [syncAchievementProgress], a second run (at any later clock reading)
    finds no quest and no progress row to write, leaves every table as it
    is, and returns the quest rows and progress rows of the first run. *)
Theorem sync_twice_writes_nothing (now1 now2 : string) (db : Db) :
  keyedBy quest_id (db_quests db) ->
  keyedBy achievement_id (db_achievements db) ->
  keyedBy progress_id (db_achievementProgress db) ->
  let db1 := syncOnce now1 db in
  questUpdates db1 = [] /\
  achievementRows now2 db1 = [] /\
  syncOnce now2 db1 = db1 /\
  (syncQuestProgress db1).1 = (syncQuestProgress db).1 /\
  (syncAchievementProgress now2 db1).1
    = (syncAchievementProgress now1 (syncQuestProgress db).2).1.
Proof.
  intros Hkq Hka Hkp db1.
  set (dbq := (syncQuestProgress db).2).
  destruct (syncQuestProgress_frame db) as (_ & Htq & _ & Hsq & Hfq & Haq & Hpq).
  fold dbq in Htq, Hsq, Hfq, Haq, Hpq.
  destruct (syncAchievementProgress_frame now1 dbq) as (_ & Ht1 & _ & Hs1 & Hf1 & Ha1 & Hq1).
  change ((syncAchievementProgress now1 dbq).2) with db1 in Ht1, Hs1, Hf1, Ha1, Hq1.
  assert (Hquests1 : db_quests db1 = questSynced (syncTotalsOf db) <$> db_quests db).
  { rewrite Hq1. apply syncQuestProgress_quests. exact Hkq. }
  assert (Htotals : syncTotalsOf db1 = syncTotalsOf db).
  { apply syncTotalsOf_ext; congruence. }
  assert (Hno_quest : questUpdates db1 = []).
  { unfold questUpdates. apply omap_all_none. intros q Hq.
    apply elem_of_toArray in Hq as (k & Hk).
    rewrite Hquests1, lookup_fmap in Hk.
    destruct (db_quests db !! k) as [q0|]; [|discriminate].
    cbn in Hk. inversion Hk; subst q. rewrite Htotals. apply questUpdate_settled. }
  assert (Hkp_q : keyedBy progress_id (db_achievementProgress dbq)) by (rewrite Hpq; exact Hkp).
  assert (Hka_q : keyedBy achievement_id (db_achievements dbq)) by (rewrite Haq; exact Hka).
  assert (Hkp1 : keyedBy progress_id (db_achievementProgress db1)).
  { unfold db1, syncOnce. fold dbq. rewrite syncAchievementProgress_writes.
    apply bulkPut_keyed. exact Hkp_q. }
  assert (Hno_row : achievementRows now2 db1 = []).
  { unfold achievementRows. apply omap_all_none. intros a Ha.
    apply elem_of_toArray in Ha as (k & Hk).
    rewrite (toProgressRecord_toArray _ Hkp1).
    apply (achievementRow_settled now1 now2 dbq db1 (db_achievementProgress dbq)).
    - apply achievementValue_ext; assumption.
    - rewrite Ha1 in Hk. pose proof (Hka_q _ _ Hk) as Hid. rewrite Hid.
      apply syncAchievementProgress_rows; assumption. }
  assert (Hq_again : syncQuestProgress db1 = (toArray (db_quests db1), db1)).
  { unfold syncQuestProgress, store_bind, readDb. rewrite Hno_quest. reflexivity. }
  assert (Ha_again :
    syncAchievementProgress now2 db1
    = (toProgressRecord (toArray (db_achievementProgress db1)), db1)).
  { unfold syncAchievementProgress, store_bind, readDb. rewrite Hno_row. reflexivity. }
  split; [exact Hno_quest|]. split; [exact Hno_row|]. split.
  { unfold syncOnce. rewrite Hq_again. cbn [snd]. rewrite Ha_again. reflexivity. }
  split.
  { rewrite Hq_again. cbn [fst]. rewrite Hq1.
    unfold dbq, syncQuestProgress, store_bind, readDb.
    destruct (questUpdates db); reflexivity. }
  rewrite Ha_again. cbn [fst].
  unfold db1, syncOnce. fold dbq.
  unfold syncAchievementProgress, store_bind, readDb.
  destruct (achievementRows now1 dbq); reflexivity.
Qed.

(** ** The character stays well formed

    The hypotheses that the reversal theorem puts on the character hold of
    the bootstrap character and are kept by every operation that writes
    the character. *)

Lemma applyXp_loop_nonneg fuel cap lvl xp l' x' :
  applyXp_loop fuel cap lvl xp = (l', x') -> 0 <= xp -> 0 <= x'.
Proof.
  revert lvl xp. induction fuel as [|fuel IH]; intros lvl xp Hrun Hxp; cbn [applyXp_loop] in Hrun.
  - inversion Hrun; subst. exact Hxp.
  - destruct ((xpToNext lvl <=? xp) && (lvl <? cap)) eqn:Hc.
    + apply andb_true_iff in Hc as [Hc _]. apply Z.leb_le in Hc.
      apply (IH _ _ Hrun). lia.
    + inversion Hrun; subst. exact Hxp.
Qed.

Lemma characterOk_base : characterOk baseCharacter.
Proof.
  split; [cbn; lia|]. split; [cbn; lia|]. split.
  - unfold xp_invariant, baseCharacter. cbn [level xpCurrent seasonCap].
    intros _. rewrite xpToNext_1. lia.
  - intros k. cbn. lia.
Qed.

Lemma characterOk_applyXp c g : characterOk c -> 0 <= g -> characterOk (applyXp c g).
Proof.
  intros (Hl & Hx & Hinv & Hs) Hg.
  split; [|split; [|split]].
  - unfold applyXp. destruct (applyXp_loop _ _ _ _) as [l' x'] eqn:Hrun. cbn [level].
    apply applyXp_loop_level in Hrun. lia.
  - unfold applyXp. destruct (applyXp_loop _ _ _ _) as [l' x'] eqn:Hrun. cbn [xpCurrent].
    apply applyXp_loop_nonneg in Hrun; lia.
  - apply applyXp_invariant.
  - intros k. destruct (applyXp_frame c g) as (Hst & _). rewrite Hst. apply Hs.
Qed.

Lemma characterOk_removeXp c loss : characterOk c -> characterOk (removeXp c loss).
Proof.
  intros (Hl & Hx & Hinv & Hs).
  split; [|split; [|split]].
  - unfold removeXp. destruct (removeXp_loop _ _ _) as [l' x'] eqn:Hrun. cbn [level].
    apply removeXp_loop_spec in Hrun; lia.
  - unfold removeXp. destruct (removeXp_loop _ _ _) as [l' x']. cbn [xpCurrent].
    destruct (x' <? 0) eqn:Hneg; [lia | apply Z.ltb_ge in Hneg; exact Hneg].
  - apply removeXp_invariant; assumption.
  - intros k. destruct (removeXp_frame c loss) as (Hst & _). rewrite Hst. apply Hs.
Qed.

Lemma characterOk_applyStatGains c gains : characterOk c -> characterOk (applyStatGains c gains).
Proof.
  intros (Hl & Hx & Hinv & Hs).
  split; [exact Hl|]. split; [exact Hx|]. split; [exact Hinv|].
  intros k. rewrite applyStatGains_stats. specialize (Hs k).
  destruct (gains k) as [d|]; [|exact Hs].
  destruct (d <=? 0) eqn:Hd; [exact Hs|]. apply Z.leb_gt in Hd. lia.
Qed.

Lemma characterOk_revertStatGains c gains : characterOk c -> characterOk (revertStatGains c gains).
Proof.
  intros (Hl & Hx & Hinv & Hs).
  split; [exact Hl|]. split; [exact Hx|]. split; [exact Hinv|].
  intros k. rewrite revertStatGains_stats. specialize (Hs k).
  destruct (gains k) as [d|]; [|exact Hs].
  destruct (d <=? 0); [exact Hs | lia].
Qed.

Lemma characterOk_prestige c : characterOk c -> characterOk (prestige c).
Proof.
  intros (Hl & Hx & Hinv & Hs).
  split; [cbn; lia|]. split; [cbn; lia|]. split; [apply prestige_invariant|].
  intros k. cbn. apply Hs.
Qed.

Section CharacterKept.

Variable dayKey : string -> string.
Variable nextRecurringDeadline : Task -> string -> option string.
Variable recurrenceLabel : Task -> option string.

Lemma keepsCharacterOk_ret {A : Type} (a : A) : keepsCharacterOk (store_ret a).
Proof. intros db Hok. exact Hok. Qed.

Lemma keepsCharacterOk_bind {A B : Type} (m : Store A) (k : A -> Store B) :
  keepsCharacterOk m -> (forall a, keepsCharacterOk (k a)) ->
  keepsCharacterOk (store_bind m k).
Proof.
  intros Hm Hk db Hok. unfold store_bind.
  specialize (Hm db Hok). destruct (m db) as [a db']. cbn [snd] in Hm.
  exact (Hk a db' Hm).
Qed.

Lemma keepsCharacterOk_read {B : Type} (k : Db -> Store B) :
  (forall db, storeCharacterOk db -> storeCharacterOk (k db db).2) ->
  keepsCharacterOk (store_bind readDb k).
Proof. intros Hk db Hok. exact (Hk db Hok). Qed.

(** An operation that leaves the character row alone. *)
Lemma keepsCharacterOk_frame {A : Type} (m : Store A) :
  (forall db, db_character (m db).2 = db_character db) -> keepsCharacterOk m.
Proof. intros Hframe db Hok c Hc. rewrite Hframe in Hc. exact (Hok c Hc). Qed.

Lemma recordTaskCompletion_character now userId task db :
  db_character (recordTaskCompletion dayKey now userId task db).2
  = match db_character db with
    | Some c =>
        let xp := calculateTaskXp (taskXpInputOf db (dayKey now) task c) in
        Some (applyStatGains (applyXp c xp)
                (calculateTaskStatGain xp (task_priority task)
                   (db_categories db !! task_categoryId task)
                   (Z.max 0 (level (applyXp c xp) - level c))))
    | None => None
    end.
Proof.
  unfold recordTaskCompletion, store_bind, readDb.
  destruct (db_character db) as [c|] eqn:Hchar; [reflexivity | exact Hchar].
Qed.

Lemma recordTaskCompletion_keeps now userId task :
  keepsCharacterOk (recordTaskCompletion dayKey now userId task).
Proof.
  intros db Hok c' Hc'. rewrite recordTaskCompletion_character in Hc'.
  destruct (db_character db) as [c|] eqn:Hchar; [|discriminate].
  cbv zeta in Hc'. inversion Hc'; subst c'.
  apply characterOk_applyStatGains, characterOk_applyXp; [apply Hok; exact Hchar|].
  pose proof (calculateTaskXp_positive (taskXpInputOf db (dayKey now) task c)). lia.
Qed.

Lemma recordFocusSessionEnd_keeps now userId session :
  keepsCharacterOk (recordFocusSessionEnd dayKey now userId session).
Proof.
  unfold recordFocusSessionEnd.
  destruct (bool_decide (session_type session = work)); [|apply keepsCharacterOk_ret].
  apply keepsCharacterOk_read. intros db Hok.
  destruct (db_character db) as [c|] eqn:Hchar; [|exact Hok].
  intros c' Hc'. cbn in Hc'. inversion Hc'; subst c'.
  apply characterOk_applyXp; [apply Hok; exact Hchar|].
  unfold calculateFocusXp. lia.
Qed.

Lemma refreshProjections_keeps now : keepsCharacterOk (refreshProjections now).
Proof.
  apply keepsCharacterOk_frame. intros db.
  destruct (refreshProjections now db) as [u db'] eqn:Hrun.
  apply refreshProjections_frame in Hrun as (Hc & _). exact Hc.
Qed.

Lemma spawnNextOccurrence_keeps task now :
  keepsCharacterOk (spawnNextOccurrence nextRecurringDeadline recurrenceLabel task now).
Proof.
  apply keepsCharacterOk_frame. intros db.
  destruct (spawnNextOccurrence _ _ task now db) as [u db'] eqn:Hrun.
  apply spawnNextOccurrence_frame in Hrun as (Hc & _). exact Hc.
Qed.

(** [completeTask] keeps the character well formed. *)
Lemma completeTask_keeps now profile taskId :
  keepsCharacterOk
    (completeTask dayKey nextRecurringDeadline recurrenceLabel now profile taskId).
Proof.
  unfold completeTask.
  destruct profile as [userId|]; [|apply keepsCharacterOk_ret].
  apply keepsCharacterOk_read. intros db.
  destruct (db_tasks db !! taskId) as [task|]; [|apply keepsCharacterOk_ret].
  destruct (bool_decide (task_status task = done)); [apply keepsCharacterOk_ret|].
  apply keepsCharacterOk_bind; [apply recordTaskCompletion_keeps|]. intros reward.
  apply keepsCharacterOk_bind; [apply keepsCharacterOk_frame; reflexivity|]. intros _.
  apply keepsCharacterOk_bind; [apply spawnNextOccurrence_keeps|]. intros _.
  apply keepsCharacterOk_bind; [apply refreshProjections_keeps|]. intros _.
  apply keepsCharacterOk_ret.
Qed.

(** [reopenTask] keeps the character well formed. *)
Lemma reopenTask_keeps now profile taskId :
  keepsCharacterOk (reopenTask dayKey now profile taskId).
Proof.
  unfold reopenTask.
  destruct profile as [userId|]; [|apply keepsCharacterOk_ret].
  apply keepsCharacterOk_read. intros db Hok.
  destruct (db_tasks db !! taskId) as [task|]; [|exact Hok].
  destruct (negb (bool_decide (task_status task = done))); [exact Hok|].
  refine (keepsCharacterOk_bind _ _ _ _ db Hok).
  - destruct (completionReward task) as [stored|]; [|apply keepsCharacterOk_ret].
    destruct (db_character db) as [c|] eqn:Hchar; [|apply keepsCharacterOk_ret].
    intros db' _ c' Hc'. cbn in Hc'. inversion Hc'; subst c'.
    apply characterOk_revertStatGains, characterOk_removeXp, (Hok _ Hchar).
  - intros _.
    apply keepsCharacterOk_bind; [apply keepsCharacterOk_frame; reflexivity|]. intros _.
    apply keepsCharacterOk_bind.
    { destruct (completedAt task); [destruct (truthy _)|];
        apply keepsCharacterOk_frame; reflexivity. }
    intros _.
    apply keepsCharacterOk_bind; [apply keepsCharacterOk_frame; reflexivity|]. intros _.
    apply refreshProjections_keeps.
Qed.

End CharacterKept.

(** ** The category buckets never go negative

    The hypothesis of the bound on the shares: [upsertDailyAggregate], the
    only writer of the aggregates, adds minutes to a bucket only when they
    are positive. *)

Section BucketsKept.

Variable dayKey : string -> string.

Lemma upsertDailyAggregate_nonnegative occurredAt delta category minutes db :
  nonnegativeMinutes (toArray (db_analyticsDaily db)) ->
  nonnegativeMinutes
    (toArray (db_analyticsDaily
                (upsertDailyAggregate dayKey occurredAt delta category minutes db).2)).
Proof.
  unfold nonnegativeMinutes. rewrite !Forall_forall. intros Hnn d Hd.
  apply elem_of_toArray in Hd as (k & Hk).
  unfold upsertDailyAggregate, store_bind, readDb, putAnalyticsDaily in Hk.
  cbn [snd db_analyticsDaily date] in Hk.
  assert (Hold : Forall (fun entry => 0 <= snd entry)
            (categoryFocusMinutes
               match db_analyticsDaily db !! dayKey occurredAt with
               | Some existing => existing
               | None =>
                   {| date := dayKey occurredAt; focusMinutes := 0; completions := 0;
                      xpGained := 0; categoryFocusMinutes := [] |}
               end)).
  { destruct (db_analyticsDaily db !! dayKey occurredAt) as [existing|] eqn:Hex.
    - apply Hnn. apply elem_of_toArray. eauto.
    - constructor. }
  match type of Hk with
  | <[?key := ?row]> _ !! _ = _ =>
      destruct (decide (k = key)) as [->|Hne];
      [ rewrite lookup_insert_eq in Hk | rewrite lookup_insert_ne in Hk by congruence ]
  end.
  - inversion Hk; subst d. cbn [categoryFocusMinutes].
    destruct category as [c|]; [|exact Hold].
    destruct (truthy (Some c) && (0 <? minutes)) eqn:Hadd; [|exact Hold].
    apply andb_true_iff in Hadd as [_ Hpos]. apply Z.ltb_lt in Hpos.
    apply record_add_nonneg; [lia | exact Hold].
  - apply Hnn. apply elem_of_toArray. eauto.
Qed.

End BucketsKept.

(** ** Concrete runs *)

Lemma keyedBy_empty {V : Type} (key : V -> string) : keyedBy key (∅ : gmap string V).
Proof. intros k row H. rewrite lookup_empty in H. discriminate. Qed.

Lemma keyedBy_insert {V : Type} (key : V -> string) (row : V) (table : gmap string V) :
  keyedBy key table -> keyedBy key (<[key row := row]> table).
Proof.
  intros Hkeyed k r Hk. destruct (decide (k = key row)) as [->|Hne].
  - rewrite lookup_insert_eq in Hk. inversion Hk; subst. reflexivity.
  - rewrite lookup_insert_ne in Hk by congruence. exact (Hkeyed _ _ Hk).
Qed.

Lemma complete_then_reopen_restores_witness :
  let dayKey := utcDayKey in
  let now1 := "2026-02-10T08:00:00.000Z"%string in
  let now2 := "2026-02-10T08:05:00.000Z"%string in
  let db1 :=
    (completeTask dayKey (fun _ _ => None) (fun _ => None) now1 (Some "u1"%string)
                  "t1" sampleDb).2 in
  let db2 := (reopenTask dayKey now2 (Some "u1"%string) "t1" db1).2 in
  exists completed reward c1 c2,
    (db_tasks db1 !! "t1"%string = Some completed /\
     task_status completed = done /\
     completionReward completed = Some reward /\
     1 <= stored_xpGain reward /\
     db_character db1 = Some c1 /\
     completionsOn db1 (dayKey now1) = completionsOn sampleDb (dayKey now1) + 1 /\
     xpGainedOn db1 (dayKey now1) = xpGainedOn sampleDb (dayKey now1) + stored_xpGain reward) /\
    (db_character db2 = Some c2 /\
     c2 = revertStatGains (removeXp c1 (stored_xpGain reward)) (stored_statGains reward) /\
     level c2 = level baseCharacter /\
     xpCurrent c2 = xpCurrent baseCharacter /\
     (forall k, stats c2 k = stats baseCharacter k)) /\
    completionsOn db2 (dayKey now1) = completionsOn sampleDb (dayKey now1) /\
    xpGainedOn db2 (dayKey now1) = xpGainedOn sampleDb (dayKey now1).
Proof.
  apply (complete_then_reopen_restores utcDayKey (fun _ _ => None) (fun _ => None)
           "2026-02-10T08:00:00.000Z" "2026-02-10T08:05:00.000Z" "u1" "t1"
           sampleDb sampleTask baseCharacter).
  - vm_compute. reflexivity.
  - reflexivity.
  - reflexivity.
  - reflexivity.
  - simpl. lia.
  - simpl. lia.
  - unfold xp_invariant. intros _. vm_compute. reflexivity.
  - intros k. simpl. lia.
  - apply keyedBy_empty.
  - discriminate.
Defined.

Lemma sync_twice_writes_nothing_witness :
  let db1 := syncOnce "2026-02-10T08:00:00.000Z" sampleDb in
  questUpdates db1 = [] /\
  achievementRows "2026-02-11T09:30:00.000Z" db1 = [] /\
  syncOnce "2026-02-11T09:30:00.000Z" db1 = db1 /\
  (syncQuestProgress db1).1 = (syncQuestProgress sampleDb).1 /\
  (syncAchievementProgress "2026-02-11T09:30:00.000Z" db1).1
    = (syncAchievementProgress "2026-02-10T08:00:00.000Z" (syncQuestProgress sampleDb).2).1.
Proof.
  apply (sync_twice_writes_nothing "2026-02-10T08:00:00.000Z" "2026-02-11T09:30:00.000Z"
           sampleDb).
  - apply (keyedBy_insert quest_id testQuest ∅), keyedBy_empty.
  - apply (keyedBy_insert achievement_id sampleAchievement ∅), keyedBy_empty.
  - apply keyedBy_empty.
Defined.

Example first_sync_writes :
  List.map (fun q => (progress q, quest_status q)) (questUpdates sampleDb) = [(1, active)] /\
  List.map (fun r => (progress_value r, unlockedAt r))
           (achievementRows "2026-02-10T08:00:00.000Z" sampleDb)
  = [(1, Some "2026-02-10T08:00:00.000Z"%string)].
Proof. vm_compute. split; reflexivity. Qed.

Section CompletionInput.

Variable dayKey : string -> string.

(** The XP of a completion is [calculateTaskXp] of the input that
    [taskXpInputOf] builds. *)
Lemma recordTaskCompletion_xp (now userId : string) (task : Task) (db : Db)
    (c : CharacterState) :
  db_character db = Some c ->
  exists reward,
    (recordTaskCompletion dayKey now userId task db).1 = Some reward /\
    xpGain reward = calculateTaskXp (taskXpInputOf db (dayKey now) task c).
Proof.
  intros Hchar. unfold recordTaskCompletion, store_bind, readDb. rewrite Hchar.
  unfold putCharacter, putStreaks, appendEvent, store_bind, readDb, addEvent, store_ret.
  cbn [fst snd].
  destruct (applyTaskAnalytics dayKey task _ _) as [u db'].
  eexists. split; reflexivity.
Qed.

End CompletionInput.

(** C4, at a failing input: a task titled like one that was completed
    forty days earlier.  [recordTaskCompletion] passes 1 as
    [repeatedTitleCount24h], where no same-title completion lies in the
    trailing 24 hours. *)
Theorem repeatedTitleCount24h_counts_old_completions :
  let now := "2026-02-10T08:00:00.000Z"%string in
  let completing := withCompletion sampleTask done (Some now) now None in
  (exists reward,
     (recordTaskCompletion utcDayKey now "u1" completing sampleDb).1 = Some reward /\
     xpGain reward
       = calculateTaskXp (taskXpInputOf sampleDb (utcDayKey now) completing baseCharacter)) /\
  repeatedTitleCount24h (taskXpInputOf sampleDb (utcDayKey now) completing baseCharacter) = 1 /\
  sameTitleCompletionsWithin24h sampleDb (task_title completing) now = 0.
Proof.
  intros now completing. split.
  - apply recordTaskCompletion_xp. reflexivity.
  - vm_compute. split; reflexivity.
Qed.

(** C5, at a failing input: a task with two subtasks, neither marked
    done.  [recordTaskCompletion] passes 2 as [completedSubtasks] (the
    number of subtask ids), where the task has no done subtask; the base
    of the XP is 4 points higher for it. *)
Theorem completedSubtasks_counts_all_subtasks :
  let now := "2026-02-10T08:00:00.000Z"%string in
  let completing := withCompletion sampleTask done (Some now) now None in
  let input := taskXpInputOf sampleDb (utcDayKey now) completing baseCharacter in
  (exists reward,
     (recordTaskCompletion utcDayKey now "u1" completing sampleDb).1 = Some reward /\
     xpGain reward = calculateTaskXp input) /\
  completedSubtasks input = 2 /\
  doneSubtaskCount completing = 0 /\
  taskXpBase input = 32 /\
  taskXpBase
    {| xi_priority := xi_priority input; deadlineSoon := deadlineSoon input;
       completedSubtasks := doneSubtaskCount completing;
       xi_estimateMinutes := xi_estimateMinutes input;
       noveltyFactor := noveltyFactor input;
       sameCategoryCountToday := sameCategoryCountToday input;
       repeatedTitleCount24h := repeatedTitleCount24h input;
       dailyXpBefore := dailyXpBefore input; xi_level := xi_level input;
       categoryMultiplier := categoryMultiplier input |} = 28.
Proof.
  intros now completing input. split.
  - apply recordTaskCompletion_xp. reflexivity.
  - vm_compute. repeat split.
Qed.

(** * Further properties of the program *)

(** ** More on the level curve and on [applyXp] / [removeXp] *)

Lemma iroot_nonneg k x : 0 <= iroot k x.
Proof. unfold iroot. apply iroot_search_lower. Qed.

Lemma iroot_monotone k x y : 1 <= k -> 0 <= x <= y -> iroot k x <= iroot k y.
Proof.
  intros Hk [Hx Hxy].
  destruct (iroot_spec k x Hk Hx) as [Hlo _].
  destruct (iroot_spec k y Hk (Z.le_trans _ _ _ Hx Hxy)) as [_ Hhi].
  assert (Hlt : iroot k x ^ k < (iroot k y + 1) ^ k).
  { eapply Z.le_lt_trans; [exact Hlo|]. eapply Z.le_lt_trans; [exact Hxy | exact Hhi]. }
  pose proof (iroot_nonneg k x). pose proof (iroot_nonneg k y).
  apply Z.pow_lt_mono_l_iff in Hlt; [|clear Hlo Hhi; lia ..].
  clear Hlo Hhi. lia.
Qed.

(** X1.  The level curve is strictly increasing: a higher level always
    costs more XP than a lower one, and no level costs less than 120. *)
Theorem xpToNext_strictly_increasing (a b : Z) :
  0 <= a -> a < b -> 120 <= xpToNext a /\ xpToNext a < xpToNext b.
Proof.
  intros Ha Hab. split; [apply xpToNext_lower; exact Ha|].
  unfold xpToNext.
  assert (Hpow : a ^ 27 <= b ^ 27) by (apply Z.pow_le_mono_l; lia).
  assert (Hroot : iroot 20 (20 ^ 20 * a ^ 27) <= iroot 20 (20 ^ 20 * b ^ 27)).
  { apply iroot_monotone; [lia|]. split.
    - apply Z.mul_nonneg_nonneg; [apply Z.pow_nonneg; lia | apply Z.pow_nonneg; lia].
    - apply Z.mul_le_mono_nonneg_l; [apply Z.pow_nonneg; lia | exact Hpow]. }
  assert (Hdiv : (iroot 20 (20 ^ 20 * a ^ 27) + 1) / 2 <= (iroot 20 (20 ^ 20 * b ^ 27) + 1) / 2).
  { apply Z.div_le_mono; lia. }
  lia.
Qed.

Lemma xpToNext_strictly_increasing_witness :
  120 <= xpToNext 1 /\ xpToNext 1 < xpToNext 2.
Proof. apply (xpToNext_strictly_increasing 1 2); lia. Defined.

Lemma applyXp_loop_accounting fuel cap lvl xp l' x' :
  applyXp_loop fuel cap lvl xp = (l', x') ->
  lvl <= l' /\ l' <= Z.max lvl cap /\
  x' + xpOfLevels (Z.to_nat (l' - lvl)) lvl = xp.
Proof.
  revert lvl xp. induction fuel as [|fuel IH]; intros lvl xp H; cbn [applyXp_loop] in H.
  - inversion H; subst. rewrite Z.sub_diag. change (Z.to_nat 0) with O. cbn [xpOfLevels]. lia.
  - destruct ((xpToNext lvl <=? xp) && (lvl <? cap)) eqn:Hc.
    + apply andb_true_iff in Hc. destruct Hc as [Hc1 Hc2].
      apply Z.leb_le in Hc1. apply Z.ltb_lt in Hc2.
      destruct (IH _ _ H) as (H1 & H2 & H3).
      split; [lia|]. split; [lia|].
      replace (Z.to_nat (l' - lvl)) with (S (Z.to_nat (l' - (lvl + 1)))) by lia.
      cbn [xpOfLevels]. lia.
    + inversion H; subst. rewrite Z.sub_diag. change (Z.to_nat 0) with O. cbn [xpOfLevels]. lia.
Qed.

(** X2.  [applyXp] accounts for every point: the XP the character held
    plus the gain equals the XP left over plus the cost of the levels
    gained; the level never drops and never passes the season cap (or the
    level the character already had); the lifetime total grows by the
    gain. *)
Theorem applyXp_accounting (state : CharacterState) (xpGain : Z) :
  let next := applyXp state xpGain in
  level state <= level next /\
  level next <= Z.max (level state) (seasonCap state) /\
  xpCurrent next + xpBetween (level state) (level next) = xpCurrent state + xpGain /\
  xpLifetime next = xpLifetime state + xpGain /\
  (seasonCap state <= level state ->
   level next = level state /\ xpCurrent next = xpCurrent state + xpGain).
Proof.
  unfold applyXp, xpBetween.
  destruct (applyXp_loop _ _ _ _) as [l' x'] eqn:Hloop. cbn.
  destruct (applyXp_loop_accounting _ _ _ _ _ _ Hloop) as (H1 & H2 & H3).
  split; [exact H1|]. split; [exact H2|]. split; [exact H3|]. split; [reflexivity|].
  intros Hcap. assert (l' = level state) by lia. subst l'.
  rewrite Z.sub_diag in H3. change (Z.to_nat 0) with O in H3. cbn [xpOfLevels] in H3. lia.
Qed.

Lemma applyXp_loop_at_cap fuel cap lvl xp :
  cap <= lvl -> applyXp_loop fuel cap lvl xp = (lvl, xp).
Proof.
  intros Hcap. destruct fuel as [|fuel]; [reflexivity|]. cbn [applyXp_loop].
  replace (lvl <? cap) with false by (symmetry; apply Z.ltb_ge; lia).
  rewrite andb_false_r. reflexivity.
Qed.

Lemma applyXp_loop_fuel fuel1 fuel2 cap lvl xp :
  cap - lvl <= Z.of_nat fuel1 -> cap - lvl <= Z.of_nat fuel2 ->
  applyXp_loop fuel1 cap lvl xp = applyXp_loop fuel2 cap lvl xp.
Proof.
  revert fuel2 lvl xp. induction fuel1 as [|fuel1 IH]; intros fuel2 lvl xp H1 H2.
  - rewrite !applyXp_loop_at_cap by lia. reflexivity.
  - destruct fuel2 as [|fuel2].
    + rewrite !applyXp_loop_at_cap by lia. reflexivity.
    + cbn [applyXp_loop].
      destruct ((xpToNext lvl <=? xp) && (lvl <? cap)); [|reflexivity].
      apply IH; lia.
Qed.

Lemma applyXp_loop_compose fuel cap lvl xp l' x' extra :
  applyXp_loop fuel cap lvl xp = (l', x') ->
  0 <= extra ->
  cap - lvl <= Z.of_nat fuel ->
  forall fuel2, cap - l' <= Z.of_nat fuel2 ->
  applyXp_loop fuel2 cap l' (x' + extra) = applyXp_loop fuel cap lvl (xp + extra).
Proof.
  revert lvl xp. induction fuel as [|fuel IH]; intros lvl xp H Hextra Hfuel fuel2 Hfuel2.
  - cbn [applyXp_loop] in H. inversion H; subst.
    rewrite !applyXp_loop_at_cap by lia. reflexivity.
  - cbn [applyXp_loop] in H.
    destruct ((xpToNext lvl <=? xp) && (lvl <? cap)) eqn:Hc.
    + apply andb_true_iff in Hc. destruct Hc as [Hc1 Hc2].
      apply Z.leb_le in Hc1. apply Z.ltb_lt in Hc2.
      cbn [applyXp_loop].
      replace (xpToNext lvl <=? xp + extra) with true by (symmetry; apply Z.leb_le; lia).
      replace (lvl <? cap) with true by (symmetry; apply Z.ltb_lt; lia).
      cbn [andb].
      replace (xp + extra - xpToNext lvl) with (xp - xpToNext lvl + extra) by lia.
      apply (IH _ _ H); lia.
    + inversion H; subst. apply applyXp_loop_fuel; lia.
Qed.

(** X3.  XP gains compose: granting [a] and then a non-negative [b] leaves
    the character exactly as granting [a + b] at once does. *)
Theorem applyXp_gains_compose (state : CharacterState) (a b : Z) :
  0 <= b -> applyXp (applyXp state a) b = applyXp state (a + b).
Proof.
  intros Hb. unfold applyXp at 2.
  destruct (applyXp_loop _ _ _ (xpCurrent state + a)) as [l1 x1] eqn:H1.
  unfold applyXp. cbn [level xpCurrent xpLifetime seasonCap prestigeRank legacyPoints stats].
  rewrite (applyXp_loop_compose _ _ _ _ _ _ b H1 Hb ltac:(lia)
             (Z.to_nat (seasonCap state - l1)) ltac:(lia)).
  replace (xpCurrent state + a + b) with (xpCurrent state + (a + b)) by lia.
  destruct (applyXp_loop _ _ _ (xpCurrent state + (a + b))) as [l2 x2].
  f_equal. lia.
Qed.

Lemma applyXp_gains_compose_witness :
  applyXp (applyXp baseCharacter 100) 400 = applyXp baseCharacter (100 + 400).
Proof. apply (applyXp_gains_compose baseCharacter 100 400). lia. Defined.

(** X4.  [removeXp] undoes [applyXp]: taking back the XP that was just
    granted returns the whole character, lifetime XP included. *)
Theorem removeXp_undoes_applyXp (c : CharacterState) (xp : Z) :
  1 <= level c -> 0 <= xpCurrent c -> xp_invariant c -> 0 <= xpLifetime c -> 0 <= xp ->
  removeXp (applyXp c xp) xp = c.
Proof.
  intros Hl Hx Hinv Hlife Hxp. destruct c as [l x life cap rank legacy st].
  unfold xp_invariant in Hinv. cbn in *.
  unfold applyXp. cbn [level xpCurrent xpLifetime seasonCap prestigeRank legacyPoints stats].
  destruct (applyXp_loop _ _ _ _) as [l1 x1] eqn:H1.
  unfold removeXp. cbn [level xpCurrent xpLifetime seasonCap prestigeRank legacyPoints stats].
  rewrite (removeXp_applyXp_level_xp l x life cap xp Hl Hx Hinv Hxp l1 x1 H1).
  replace (x <? 0) with false by (symmetry; apply Z.ltb_ge; lia).
  f_equal. lia.
Qed.

Lemma removeXp_undoes_applyXp_witness :
  removeXp (applyXp baseCharacter 400) 400 = baseCharacter.
Proof.
  apply (removeXp_undoes_applyXp baseCharacter 400).
  - simpl. lia.
  - simpl. lia.
  - unfold xp_invariant. intros _. vm_compute. reflexivity.
  - simpl. lia.
  - lia.
Defined.

(** X5.  [removeXp] stops at the floor: the level stays between 1 and the
    level before, current and lifetime XP never go below 0, and a loss
    that is not positive changes neither level nor XP. *)
Theorem removeXp_floor (state : CharacterState) (xpLoss : Z) :
  1 <= level state ->
  let next := removeXp state xpLoss in
  1 <= level next <= level state /\
  0 <= xpCurrent next /\
  0 <= xpLifetime next <= Z.max 0 (xpLifetime state) /\
  (xpLoss <= 0 -> 0 <= xpCurrent state ->
   level next = level state /\ xpCurrent next = xpCurrent state).
Proof.
  intros Hl. unfold removeXp.
  destruct (removeXp_loop _ _ _) as [l' x'] eqn:Hloop.
  cbn [level xpCurrent xpLifetime].
  assert (Hfuel : level state - 1 <= Z.of_nat (Z.to_nat (level state - 1))) by lia.
  destruct (removeXp_loop_spec _ _ _ _ _ Hl Hfuel Hloop) as (H1 & H2 & H3).
  split; [exact H1|]. split; [destruct (x' <? 0) eqn:E; [lia | apply Z.ltb_ge in E; lia]|].
  split; [lia|].
  intros Hloss Hx.
  assert (Hstart : xpCurrent state - Z.max 0 xpLoss = xpCurrent state) by lia.
  rewrite Hstart in Hloop.
  destruct (Z.to_nat (level state - 1)) as [|fuel]; cbn [removeXp_loop] in Hloop.
  - inversion Hloop; subst. split; [reflexivity|].
    replace (xpCurrent state <? 0) with false by (symmetry; apply Z.ltb_ge; lia). reflexivity.
  - replace (xpCurrent state <? 0) with false in Hloop by (symmetry; apply Z.ltb_ge; lia).
    cbn [andb] in Hloop. inversion Hloop; subst. split; [reflexivity|].
    replace (xpCurrent state <? 0) with false by (symmetry; apply Z.ltb_ge; lia). reflexivity.
Qed.

Lemma removeXp_floor_witness :
  let next := removeXp baseCharacter 9000 in
  1 <= level next <= level baseCharacter /\
  0 <= xpCurrent next /\
  0 <= xpLifetime next <= Z.max 0 (xpLifetime baseCharacter) /\
  (9000 <= 0 -> 0 <= xpCurrent baseCharacter ->
   level next = level baseCharacter /\ xpCurrent next = xpCurrent baseCharacter).
Proof. apply (removeXp_floor baseCharacter 9000). simpl. lia. Defined.

(** ** More on stat gains *)

(** X6.  [revertStatGains] undoes [applyStatGains] on a character whose
    stats are at least 1; applying gains never lowers a stat, and
    reverting never raises one nor takes it below 1. *)
Theorem revertStatGains_undoes_applyStatGains (state : CharacterState) (gains : StatDelta) :
  (forall k, 1 <= stats state k) ->
  (forall k, stats (revertStatGains (applyStatGains state gains) gains) k = stats state k) /\
  (forall k, stats state k <= stats (applyStatGains state gains) k) /\
  (forall k, 1 <= stats (revertStatGains state gains) k <= stats state k).
Proof.
  intros Hstats. split; [|split]; intros k; specialize (Hstats k).
  - rewrite revertStatGains_stats, applyStatGains_stats.
    destruct (gains k) as [delta|]; [|reflexivity].
    destruct (delta <=? 0) eqn:E; [reflexivity|]. apply Z.leb_gt in E. lia.
  - rewrite applyStatGains_stats.
    destruct (gains k) as [delta|]; [|lia].
    destruct (delta <=? 0) eqn:E; [lia|]. apply Z.leb_gt in E. lia.
  - rewrite revertStatGains_stats.
    destruct (gains k) as [delta|]; [|lia].
    destruct (delta <=? 0) eqn:E; [lia|]. apply Z.leb_gt in E. lia.
Qed.

Lemma revertStatGains_undoes_applyStatGains_witness :
  let gains := calculateTaskStatGain 120 high (Some healthCategory) 1 in
  (forall k, stats (revertStatGains (applyStatGains baseCharacter gains) gains) k
             = stats baseCharacter k) /\
  (forall k, stats baseCharacter k <= stats (applyStatGains baseCharacter gains) k) /\
  (forall k, 1 <= stats (revertStatGains baseCharacter gains) k <= stats baseCharacter k).
Proof.
  apply (revertStatGains_undoes_applyStatGains baseCharacter
           (calculateTaskStatGain 120 high (Some healthCategory) 1)).
  intros k. simpl. lia.
Defined.

Lemma positiveEntries_set d k v :
  positiveEntries d -> 0 < v -> positiveEntries (sd_set d k v).
Proof.
  intros Hd Hv k' v'. unfold sd_set. destruct (decide (k' = k)).
  - intros H. inversion H; subst. exact Hv.
  - apply Hd.
Qed.

Lemma positiveEntries_get d k : positiveEntries d -> 0 <= sd_get d k.
Proof.
  intros Hd. unfold sd_get. destruct (d k) as [v|] eqn:E; [|lia].
  specialize (Hd _ _ E). lia.
Qed.

Lemma allocate_fold_positive T ws acc :
  positiveEntries (fst acc) ->
  positiveEntries (fst (fold_left (allocate_step T) ws acc)).
Proof.
  revert acc. induction ws as [|e ws IH]; intros acc Hacc; cbn [fold_left]; [exact Hacc|].
  apply IH. unfold allocate_step.
  destruct (Qfloor (inject_Z T * snd e) <=? 0) eqn:E; [exact Hacc|].
  apply Z.leb_gt in E. cbn [fst]. apply positiveEntries_set; [exact Hacc|].
  pose proof (positiveEntries_get _ (fst e) Hacc). lia.
Qed.

Lemma calculateTaskStatGain_entries xpGain priority category levelUps :
  let gains := calculateTaskStatGain xpGain priority category levelUps in
  positiveEntries gains /\
  sd_total gains = basePointsOf xpGain priority + levelBonusOf levelUps.
Proof.
  intros gains. subst gains. unfold calculateTaskStatGain.
  pose proof (basePointsOf_range xpGain priority) as Hbase.
  pose proof (levelBonusOf_range levelUps) as Hbonus.
  set (totalPoints := basePointsOf xpGain priority + levelBonusOf levelUps) in *.
  set (weights := normalizeStatWeights _).
  destruct weights as [|e ws] eqn:Hw.
  - split.
    + apply positiveEntries_set; [intros k v H; discriminate | lia].
    + rewrite sd_total_set. cbn. lia.
  - rewrite <- Hw.
    pose proof (allocate_fold totalPoints weights sd_empty 0) as Hfold.
    pose proof (allocate_fold_positive totalPoints weights (sd_empty, 0)) as Hpos.
    destruct (fold_left (allocate_step totalPoints) weights (sd_empty, 0))
      as [statGains allocated].
    cbv zeta in Hfold. cbn [fst snd] in Hfold, Hpos. destruct Hfold as [Hal Hsg].
    assert (Hp : positiveEntries statGains) by (apply Hpos; intros k v H; discriminate).
    assert (Hsum : sd_total statGains = allocated).
    { rewrite Hal, Z.add_0_l, <- floorShare_total.
      unfold sd_total, all_stats. cbn [fold_right].
      rewrite !Hsg. cbn. lia. }
    destruct (0 <? totalPoints - allocated) eqn:Hrem.
    + apply Z.ltb_lt in Hrem. split.
      * apply positiveEntries_set; [exact Hp|].
        pose proof (positiveEntries_get _ (primaryStat weights) Hp). lia.
      * rewrite sd_total_set. lia.
    + apply Z.ltb_ge in Hrem. split; [exact Hp|].
      assert (allocated <= totalPoints).
      { rewrite Hal, Z.add_0_l. subst weights.
        apply normalizeStatWeights_alloc_le. lia. }
      lia.
Qed.

Lemma applyStatGains_total state gains :
  positiveEntries gains ->
  statTotal (stats (applyStatGains state gains)) = statTotal (stats state) + sd_total gains.
Proof.
  intros Hpos.
  assert (Hk : forall k, stats (applyStatGains state gains) k = stats state k + sd_get gains k).
  { intros k. rewrite applyStatGains_stats. unfold sd_get.
    destruct (gains k) as [v|] eqn:E; [|lia].
    specialize (Hpos _ _ E).
    replace (v <=? 0) with false by (symmetry; apply Z.leb_gt; lia). reflexivity. }
  unfold statTotal, sd_total, all_stats. cbn [fold_right]. rewrite !Hk. lia.
Qed.

(** X7.  The stat points of a completion all land on the character:
    applying the gains [calculateTaskStatGain] computes raises the sum of
    the six stats by exactly the base points plus the level bonus, which
    is between 1 and 6, and every gain it hands out is positive. *)
Theorem task_stat_gain_lands_on_character
    (state : CharacterState) (xpGain : Z) (priority : Priority)
    (category : option Category) (levelUps : Z) :
  let gains := calculateTaskStatGain xpGain priority category levelUps in
  let points := basePointsOf xpGain priority + levelBonusOf levelUps in
  positiveEntries gains /\
  statTotal (stats (applyStatGains state gains)) = statTotal (stats state) + points /\
  1 <= points <= 6.
Proof.
  intros gains points.
  destruct (calculateTaskStatGain_entries xpGain priority category levelUps) as [Hpos Htotal].
  split; [exact Hpos|]. split.
  - subst gains points. rewrite applyStatGains_total by exact Hpos. rewrite Htotal. reflexivity.
  - pose proof (basePointsOf_range xpGain priority).
    pose proof (levelBonusOf_range levelUps). subst points. lia.
Qed.

(** ** Normalised weights *)

Lemma Qpositive_spec q : Qpositive q = true <-> (0 < q)%Q.
Proof.
  unfold Qpositive. rewrite negb_true_iff. split.
  - intros H. apply Qnot_le_lt. intros Hle. apply Qle_bool_iff in Hle. congruence.
  - intros H. destruct (Qle_bool q 0) eqn:E; [|reflexivity].
    apply Qle_bool_iff in E. exfalso. exact (Qlt_not_le _ _ H E).
Qed.

Lemma weightSum_member entries e :
  (forall x, In x entries -> (0 < snd x)%Q) -> In e entries ->
  (snd e <= weightSum entries)%Q.
Proof.
  induction entries as [|x entries IH]; intros Hpos Hin; [destruct Hin|].
  cbn [weightSum fold_right]. fold (weightSum entries).
  assert (Hrest : (0 <= weightSum entries)%Q).
  { apply weightSum_nonneg. intros y Hy. apply Hpos. right. exact Hy. }
  destruct Hin as [->|Hin].
  - rewrite <- (Qplus_0_r (snd e)) at 1. apply Qplus_le_r. exact Hrest.
  - apply Qle_trans with (weightSum entries).
    + apply IH; [|exact Hin]. intros y Hy. apply Hpos. right. exact Hy.
    + rewrite <- (Qplus_0_l (weightSum entries)) at 1. apply Qplus_le_l.
      apply Qlt_le_weak. apply Hpos. left. reflexivity.
Qed.

Lemma weightSum_positive entries :
  entries <> [] -> (forall x, In x entries -> (0 < snd x)%Q) -> (0 < weightSum entries)%Q.
Proof.
  destruct entries as [|x entries]; [congruence|]. intros _ Hpos.
  apply Qlt_le_trans with (snd x); [apply Hpos; left; reflexivity|].
  apply weightSum_member; [exact Hpos | left; reflexivity].
Qed.

Lemma weightSum_scaled entries total :
  ~ (total == 0)%Q ->
  (weightSum (List.map (fun e => (fst e, (snd e / total)%Q)) entries)
   == weightSum entries / total)%Q.
Proof.
  intros Hne. induction entries as [|x entries IH].
  - cbn. field. exact Hne.
  - cbn [List.map weightSum fold_right snd].
    fold (weightSum (List.map (fun e : StatKey * Q => (fst e, (snd e / total)%Q)) entries)).
    fold (weightSum entries). rewrite IH. field. exact Hne.
Qed.

(** X8.  [normalizeStatWeights] keeps exactly the entries of positive
    weight, in their order; the weights it returns are positive, at most
    1 and sum to 1; the result is empty exactly when no weight is
    positive. *)
Theorem normalizeStatWeights_normalized (weights : list (StatKey * Q)) :
  let normal := normalizeStatWeights weights in
  List.map fst normal
    = List.map fst (List.filter (fun entry => Qpositive (snd entry)) weights) /\
  (forall e, In e normal -> (0 < snd e)%Q /\ (snd e <= 1)%Q) /\
  (normal <> [] -> (weightSum normal == 1)%Q) /\
  (normal = [] <-> forall e, In e weights -> (snd e <= 0)%Q).
Proof.
  intros normal. subst normal. unfold normalizeStatWeights.
  remember (List.filter (fun entry => Qpositive (snd entry)) weights) as entries eqn:Hentries.
  assert (Hmem : forall x, In x entries <-> In x weights /\ Qpositive (snd x) = true).
  { intros x. rewrite Hentries. apply filter_In. }
  assert (Hpos : forall x, In x entries -> (0 < snd x)%Q).
  { intros x Hx. apply Qpositive_spec. apply Hmem. exact Hx. }
  assert (Htotal : (fold_left (fun sum entry => sum + snd entry) entries 0
                    == weightSum entries)%Q).
  { rewrite weight_fold_left. ring. }
  assert (Hnone : entries = [] <-> forall e, In e weights -> (snd e <= 0)%Q).
  { split.
    - intros Hnil e He. destruct (Qpositive (snd e)) eqn:E.
      + assert (H : In e entries) by (apply Hmem; split; assumption).
        rewrite Hnil in H. destruct H.
      + unfold Qpositive in E. apply negb_false_iff in E. apply Qle_bool_iff. exact E.
    - intros Hall. destruct entries as [|x rest]; [reflexivity|].
      assert (Hx : In x (x :: rest)) by (left; reflexivity).
      exfalso. apply (Qlt_not_le _ _ (Hpos x Hx)). apply Hall. apply Hmem. exact Hx. }
  clear Hentries.
  destruct (Qle_bool (fold_left (fun sum entry => (sum + snd entry)%Q) entries 0%Q) 0) eqn:Hle.
  - apply Qle_bool_iff in Hle. rewrite Htotal in Hle.
    assert (Hnil : entries = []).
    { destruct entries as [|x rest] eqn:E; [reflexivity|].
      exfalso. apply (Qlt_not_le _ _ (weightSum_positive (x :: rest) ltac:(discriminate) Hpos)).
      exact Hle. }
    rewrite Hnil. cbn [List.map]. split; [reflexivity|]. split; [intros e []|].
    split; [congruence|]. split; [intros _; apply Hnone; exact Hnil | reflexivity].
  - assert (Hgt : (0 < weightSum entries)%Q).
    { apply Qnot_le_lt. intros H. rewrite <- Htotal in H. apply Qle_bool_iff in H. congruence. }
    set (total := fold_left (fun sum entry => (sum + snd entry)%Q) entries 0%Q) in *.
    assert (Htpos : (0 < total)%Q) by (rewrite Htotal; exact Hgt).
    assert (Hne : ~ (total == 0)%Q) by (apply Qnonzero_of_pos; exact Htpos).
    split; [rewrite List.map_map; reflexivity|]. split; [|split; [|split]].
    + intros e He. apply in_map_iff in He. destruct He as (x & <- & Hx). cbn [snd]. split.
      * apply Qlt_shift_div_l; [exact Htpos|]. rewrite Qmult_0_l. apply Hpos. exact Hx.
      * apply Qle_shift_div_r; [exact Htpos|]. rewrite Qmult_1_l, Htotal.
        apply weightSum_member; assumption.
    + intros _. rewrite weightSum_scaled by exact Hne. rewrite <- Htotal. field. exact Hne.
    + intros Hmap. apply map_eq_nil in Hmap. apply Hnone. exact Hmap.
    + intros Hall. apply Hnone in Hall. rewrite Hall. reflexivity.
Qed.

(** ** Focus XP *)

Lemma js_round_monotone (x y : Q) : (x <= y)%Q -> js_round x <= js_round y.
Proof. intros H. unfold js_round. apply Qfloor_resp_le. apply Qplus_le_l. exact H. Qed.

Lemma streakFactor_monotone (s s' : Z) :
  s <= s' ->
  (Qmin (15 # 100) (inject_Z s * (3 # 100)) <= Qmin (15 # 100) (inject_Z s' * (3 # 100)))%Q.
Proof.
  intros H. apply Q.min_le_compat_l. apply Qmult_le_compat_r; [|discriminate].
  rewrite <- Zle_Qle. exact H.
Qed.

Lemma focusXp_monotone (m s s' : Z) :
  0 <= m -> s <= s' -> calculateFocusXp m s <= calculateFocusXp m s'.
Proof.
  intros Hm Hs. unfold calculateFocusXp. apply Z.max_le_compat_l. apply js_round_monotone.
  rewrite (Qmult_comm _ (1 + Qmin (15 # 100) (inject_Z s * (3 # 100)))).
  rewrite (Qmult_comm _ (1 + Qmin (15 # 100) (inject_Z s' * (3 # 100)))).
  apply Qmult_le_compat_r.
  - apply Qplus_le_r. apply streakFactor_monotone. exact Hs.
  - apply Qmult_le_0_compat; [|discriminate].
    change 0%Q with (inject_Z 0). rewrite <- Zle_Qle. exact Hm.
Qed.

Lemma focusXp_capped (m s : Z) : 5 <= s -> calculateFocusXp m s = calculateFocusXp m 5.
Proof.
  intros Hs. unfold calculateFocusXp. f_equal. unfold js_round. apply Qfloor_comp.
  assert (H5 : (Qmin (15 # 100) (inject_Z s * (3 # 100)) == 15 # 100)%Q).
  { apply Q.min_l. apply Qle_trans with (inject_Z 5 * (3 # 100))%Q; [discriminate|].
    apply Qmult_le_compat_r; [|discriminate]. rewrite <- Zle_Qle. exact Hs. }
  rewrite H5. reflexivity.
Qed.

(** X9.  Focus XP grows with the streak but the streak bonus is capped:
    for a session of [m >= 0] minutes the XP lies between the XP without
    a streak and the XP at a streak of 5 (that is between
    [max(1, round(1.2 m))] and [max(1, round(1.38 m))]), it never
    decreases when the streak grows, and a streak beyond 5 pays what a
    streak of 5 pays. *)
Theorem calculateFocusXp_streak_bonus (m s : Z) :
  0 <= m -> 0 <= s ->
  Z.max 1 (js_round (inject_Z m * (12 # 10))) <= calculateFocusXp m s /\
  calculateFocusXp m s <= Z.max 1 (js_round (inject_Z m * (138 # 100))) /\
  (forall s', s <= s' -> calculateFocusXp m s <= calculateFocusXp m s') /\
  (5 <= s -> calculateFocusXp m s = calculateFocusXp m 5).
Proof.
  intros Hm Hs.
  assert (H0 : calculateFocusXp m 0 = Z.max 1 (js_round (inject_Z m * (12 # 10)))).
  { unfold calculateFocusXp. f_equal. unfold js_round. apply Qfloor_comp.
    assert (Hmin : (Qmin (15 # 100) (inject_Z 0 * (3 # 100)) == 0)%Q).
    { rewrite Q.min_r by discriminate. reflexivity. }
    rewrite Hmin. ring. }
  assert (H5 : calculateFocusXp m 5 = Z.max 1 (js_round (inject_Z m * (138 # 100)))).
  { unfold calculateFocusXp. f_equal. unfold js_round. apply Qfloor_comp.
    assert (Hmin : (Qmin (15 # 100) (inject_Z 5 * (3 # 100)) == 15 # 100)%Q).
    { rewrite Q.min_l by discriminate. reflexivity. }
    rewrite Hmin. ring. }
  split; [rewrite <- H0; apply focusXp_monotone; assumption|].
  split.
  - rewrite <- H5. destruct (Z.le_gt_cases s 5) as [Hle|Hgt].
    + apply focusXp_monotone; assumption.
    + rewrite (focusXp_capped m s) by lia. lia.
  - split; [intros s' Hs'; apply focusXp_monotone; assumption | apply focusXp_capped].
Qed.

Lemma calculateFocusXp_streak_bonus_witness :
  Z.max 1 (js_round (inject_Z 25 * (12 # 10))) <= calculateFocusXp 25 3 /\
  calculateFocusXp 25 3 <= Z.max 1 (js_round (inject_Z 25 * (138 # 100))) /\
  (forall s', 3 <= s' -> calculateFocusXp 25 3 <= calculateFocusXp 25 s') /\
  (5 <= 3 -> calculateFocusXp 25 3 = calculateFocusXp 25 5).
Proof. apply (calculateFocusXp_streak_bonus 25 3); lia. Defined.

(** ** Task XP and the anti-grinding penalties *)

Lemma Int_part_monotone (x y : R) : (x <= y)%R -> Int_part x <= Int_part y.
Proof.
  intros Hxy. destruct (base_Int_part x) as [Hx1 Hx2]. destruct (base_Int_part y) as [Hy1 Hy2].
  destruct (Z_le_gt_dec (Int_part x) (Int_part y)) as [H|H]; [exact H|].
  exfalso. assert (Hge : Int_part y + 1 <= Int_part x) by lia.
  apply IZR_le in Hge. rewrite plus_IZR in Hge. lra.
Qed.

Lemma taskXpBase_positive input : 0 <= completedSubtasks input -> 20 <= taskXpBase input.
Proof.
  intros H. unfold taskXpBase.
  assert (0 <= priorityBonusMap (xi_priority input)) by (destruct (xi_priority input); cbn; lia).
  destruct (deadlineSoon input); lia.
Qed.

Lemma factor_nonneg (f : option Q) :
  factorNonnegative f -> (0 <= match f with Some q => Q2R q | None => 1 end)%R.
Proof.
  destruct f as [q|]; cbn; intros H; [|lra].
  replace 0%R with (Q2R 0) by (unfold Q2R; cbn; lra). apply Qle_Rle. exact H.
Qed.

Lemma sameCategory_penalty_monotone (c c' : Z) :
  0 <= c <= c' ->
  (0 < 1 / (1 + 0.12 * IZR c') <= 1 / (1 + 0.12 * IZR c))%R.
Proof.
  intros [Hc Hcc']. apply IZR_le in Hc. apply IZR_le in Hcc'.
  assert (H1 : (0 < 1 + 0.12 * IZR c)%R) by lra.
  assert (H2 : (0 < 1 + 0.12 * IZR c')%R) by lra.
  split.
  - unfold Rdiv. rewrite Rmult_1_l. apply Rinv_0_lt_compat. exact H2.
  - unfold Rdiv. rewrite !Rmult_1_l. apply Rinv_le_contravar; lra.
Qed.

Lemma ln_08_negative : (ln 0.8 < 0)%R.
Proof. rewrite <- ln_1. apply ln_increasing; lra. Qed.

Lemma repeatedTitle_penalty_monotone (r r' : Z) :
  r <= r' ->
  (0 < Rpower 0.8 (IZR r') <= Rpower 0.8 (IZR r))%R.
Proof.
  intros Hrr'. apply IZR_le in Hrr'. unfold Rpower. split; [apply exp_pos|].
  pose proof ln_08_negative as Hln.
  destruct (Rle_lt_or_eq_dec _ _ Hrr') as [Hlt|Heq].
  - left. apply exp_increasing. nra.
  - rewrite Heq. right. reflexivity.
Qed.

Lemma taskXpRaw_monotone (input : TaskXpInput) (c c' r r' : Z) :
  0 <= c <= c' -> r <= r' ->
  0 <= completedSubtasks input ->
  factorNonnegative (noveltyFactor input) ->
  factorNonnegative (categoryMultiplier input) ->
  (taskXpRaw (withCounts input c' r') <= taskXpRaw (withCounts input c r))%R.
Proof.
  intros Hc Hr Hsub Hnov Hmul. unfold taskXpRaw, withCounts.
  cbn [xi_priority deadlineSoon completedSubtasks xi_estimateMinutes noveltyFactor
       sameCategoryCountToday repeatedTitleCount24h dailyXpBefore xi_level
       categoryMultiplier].
  change (taskXpBase _) with (taskXpBase input).
  set (durationFactor := Rmax 0.6 (Rmin 1.8 (ln (1 + IZR (xi_estimateMinutes input) / 15)))).
  set (novelty := match noveltyFactor input with Some f => Q2R f | None => 1%R end).
  set (multiplier := match categoryMultiplier input with Some m => Q2R m | None => 1%R end).
  assert (Hbase : (20 <= IZR (taskXpBase input))%R).
  { apply IZR_le. apply taskXpBase_positive. exact Hsub. }
  assert (Hdur : (0.6 <= durationFactor)%R) by apply Rmax_l.
  assert (Hn : (0 <= novelty)%R) by (apply factor_nonneg; exact Hnov).
  assert (Hm : (0 <= multiplier)%R) by (apply factor_nonneg; exact Hmul).
  set (core := (IZR (taskXpBase input) * durationFactor * novelty * multiplier)%R).
  assert (Hcore : (0 <= core)%R).
  { unfold core. repeat apply Rmult_le_pos; lra. }
  set (short := if xi_estimateMinutes input <? 5 then (core * 0.35)%R else core).
  assert (Hshort : (0 <= short)%R).
  { unfold short. destruct (xi_estimateMinutes input <? 5); [apply Rmult_le_pos; lra | exact Hcore]. }
  destruct (sameCategory_penalty_monotone c c' Hc) as [Hf1 Hf2].
  destruct (repeatedTitle_penalty_monotone r r' Hr) as [Hg1 Hg2].
  assert (Hmain :
    (short * (1 / (1 + 0.12 * IZR c')) * Rpower 0.8 (IZR r')
     <= short * (1 / (1 + 0.12 * IZR c)) * Rpower 0.8 (IZR r))%R).
  { apply Rmult_le_compat.
    - apply Rmult_le_pos; lra.
    - lra.
    - apply Rmult_le_compat_l; lra.
    - exact Hg2. }
  destruct (dailySoftCap (xi_level input) <? dailyXpBefore input).
  - apply Rmult_le_compat_r; [lra | exact Hmain].
  - exact Hmain.
Qed.

(** X10.  The anti-grinding penalties only ever lower the XP of a task:
    with everything else equal, more completions in the same category
    today, or more earlier completions under the same title, never pay
    more XP; and the XP is at least 1 however large the counts are. *)
Theorem calculateTaskXp_penalties_monotone (input : TaskXpInput) (c c' r r' : Z) :
  0 <= c <= c' -> r <= r' ->
  0 <= completedSubtasks input ->
  factorNonnegative (noveltyFactor input) ->
  factorNonnegative (categoryMultiplier input) ->
  1 <= calculateTaskXp (withCounts input c' r') <= calculateTaskXp (withCounts input c r).
Proof.
  intros Hc Hr Hsub Hnov Hmul. unfold calculateTaskXp. split; [lia|].
  apply Z.max_le_compat_l. apply Int_part_monotone.
  apply Rplus_le_compat_r. apply taskXpRaw_monotone; assumption.
Qed.

Lemma calculateTaskXp_penalties_monotone_witness :
  let input :=
    {| xi_priority := medium; deadlineSoon := false; completedSubtasks := 0;
       xi_estimateMinutes := 30; noveltyFactor := None;
       sameCategoryCountToday := 0; repeatedTitleCount24h := 0;
       dailyXpBefore := 0; xi_level := 1; categoryMultiplier := None |} in
  1 <= calculateTaskXp (withCounts input 4 3) <= calculateTaskXp (withCounts input 0 0).
Proof.
  apply (calculateTaskXp_penalties_monotone
           {| xi_priority := medium; deadlineSoon := false; completedSubtasks := 0;
              xi_estimateMinutes := 30; noveltyFactor := None;
              sameCategoryCountToday := 0; repeatedTitleCount24h := 0;
              dailyXpBefore := 0; xi_level := 1; categoryMultiplier := None |}
           0 4 0 3).
  - lia.
  - lia.
  - simpl. lia.
  - simpl. exact I.
  - simpl. exact I.
Defined.

(** X11.  The daily soft cap never applies to a recorded completion:
    [recordTaskCompletion] always passes 0 as [dailyXpBefore], which is
    below [dailySoftCap] at every level from 1 on, so the XP it pays is
    the XP of the same input at any other day total up to the cap. *)
Theorem soft_cap_never_applies_to_completions
    (db : Db) (today : string) (task : Task) (character : CharacterState) :
  1 <= level character ->
  let input := taskXpInputOf db today task character in
  dailyXpBefore input = 0 /\
  (dailySoftCap (xi_level input) <? dailyXpBefore input) = false /\
  forall earned, earned <= dailySoftCap (level character) ->
    calculateTaskXp
      {| xi_priority := xi_priority input; deadlineSoon := deadlineSoon input;
         completedSubtasks := completedSubtasks input;
         xi_estimateMinutes := xi_estimateMinutes input;
         noveltyFactor := noveltyFactor input;
         sameCategoryCountToday := sameCategoryCountToday input;
         repeatedTitleCount24h := repeatedTitleCount24h input;
         dailyXpBefore := earned; xi_level := xi_level input;
         categoryMultiplier := categoryMultiplier input |}
    = calculateTaskXp input.
Proof.
  intros Hlevel input. split; [reflexivity|].
  assert (Hcap : (dailySoftCap (level character) <? 0) = false).
  { apply Z.ltb_ge. unfold dailySoftCap. lia. }
  split; [exact Hcap|].
  intros earned Hearned. unfold calculateTaskXp, taskXpRaw.
  cbn [xi_priority deadlineSoon completedSubtasks xi_estimateMinutes noveltyFactor
       sameCategoryCountToday repeatedTitleCount24h dailyXpBefore xi_level
       categoryMultiplier].
  change (xi_level input) with (level character).
  change (dailyXpBefore input) with 0.
  rewrite Hcap.
  replace (dailySoftCap (level character) <? earned) with false
    by (symmetry; apply Z.ltb_ge; exact Hearned).
  reflexivity.
Qed.

Lemma soft_cap_never_applies_to_completions_witness :
  let input := taskXpInputOf sampleDb "2026-02-10" sampleTask baseCharacter in
  dailyXpBefore input = 0 /\
  (dailySoftCap (xi_level input) <? dailyXpBefore input) = false /\
  forall earned, earned <= dailySoftCap (level baseCharacter) ->
    calculateTaskXp
      {| xi_priority := xi_priority input; deadlineSoon := deadlineSoon input;
         completedSubtasks := completedSubtasks input;
         xi_estimateMinutes := xi_estimateMinutes input;
         noveltyFactor := noveltyFactor input;
         sameCategoryCountToday := sameCategoryCountToday input;
         repeatedTitleCount24h := repeatedTitleCount24h input;
         dailyXpBefore := earned; xi_level := xi_level input;
         categoryMultiplier := categoryMultiplier input |}
    = calculateTaskXp input.
Proof.
  apply (soft_cap_never_applies_to_completions sampleDb "2026-02-10" sampleTask baseCharacter).
  simpl. lia.
Defined.

(** ** More on streaks *)

Lemma updateDayStreak_unparsable current last today :
  parseISO today = None -> updateDayStreak current last today = 1.
Proof.
  intros Hp. unfold updateDayStreak. destruct last as [[|c l]|]; try reflexivity.
  rewrite Hp. reflexivity.
Qed.

Lemma updateDayStreak_same_day current last today :
  updateDayStreak (updateDayStreak current last today) (Some today) today
  = updateDayStreak current last today.
Proof.
  destruct (parseISO today) as [d|] eqn:Hp.
  - destruct today as [|c t]; [rewrite parseISO_empty in Hp; discriminate|].
    unfold updateDayStreak at 1. rewrite Hp. cbn [differenceInCalendarDays].
    rewrite Z.sub_diag. reflexivity.
  - rewrite (updateDayStreak_unparsable _ (Some today) today Hp).
    apply eq_sym, updateDayStreak_unparsable. exact Hp.
Qed.

(** X12.  A second activity on the same day never changes the streak:
    [updateTaskStreak] and [updateFocusStreak] are idempotent on their
    day argument, whatever the text of the day is. *)
Theorem streak_update_idempotent (streak : StreakState) (today : string) :
  updateTaskStreak (updateTaskStreak streak today) today = updateTaskStreak streak today /\
  updateFocusStreak (updateFocusStreak streak today) today = updateFocusStreak streak today.
Proof.
  split.
  - unfold updateTaskStreak. cbn [taskDays focusDays lastTaskDay lastFocusDay].
    rewrite updateDayStreak_same_day. reflexivity.
  - unfold updateFocusStreak. cbn [taskDays focusDays lastTaskDay lastFocusDay].
    rewrite updateDayStreak_same_day. reflexivity.
Qed.

Lemma updateDayStreak_bounds current last today :
  streakCounted current last ->
  1 <= updateDayStreak current last today <= Z.max 1 (current + 1).
Proof.
  intros Hc. unfold updateDayStreak.
  destruct last as [[|c l]|]; try lia.
  assert (1 <= current) by (apply Hc; reflexivity).
  destruct (differenceInCalendarDays _ _) as [delta|]; [|lia].
  destruct (delta =? 0); [lia|]. destruct (delta =? 1); lia.
Qed.

Lemma streak_run_from (days : list string) (streak : StreakState) (z : Z) (d0 : string) :
  lastTaskDay streak = Some d0 -> parseISO d0 = Some z ->
  (forall i d, days !! i = Some d -> parseISO d = Some (z + 1 + Z.of_nat i)) ->
  taskDays (fold_left updateTaskStreak days streak)
  = taskDays streak + Z.of_nat (List.length days).
Proof.
  revert streak z d0. induction days as [|d days IH]; intros streak z d0 Hlast Hp0 Hdays.
  - cbn. lia.
  - cbn [fold_left List.length].
    assert (Hd : parseISO d = Some (z + 1)).
    { rewrite (Hdays O d eq_refl). f_equal. lia. }
    rewrite (IH (updateTaskStreak streak d) (z + 1) d).
    + unfold updateTaskStreak at 1. cbn [taskDays].
      rewrite Hlast. destruct d0 as [|c0 t0]; [rewrite parseISO_empty in Hp0; discriminate|].
      unfold updateDayStreak. rewrite Hd, Hp0. cbn [differenceInCalendarDays].
      replace (z + 1 - z) with 1 by lia. cbn. lia.
    + reflexivity.
    + exact Hd.
    + intros i d' Hi. rewrite (Hdays (S i) d' Hi). f_equal. lia.
Qed.

Lemma last_default_irrelevant {A : Type} (x : A) (l : list A) (a b : A) :
  List.last (x :: l) a = List.last (x :: l) b.
Proof.
  revert x. induction l as [|y l IH]; intros x; [reflexivity|].
  change (List.last (y :: l) a = List.last (y :: l) b). apply IH.
Qed.

Lemma streak_run_last (days : list string) (streak : StreakState) (d0 : string) :
  lastTaskDay streak = Some d0 ->
  lastTaskDay (fold_left updateTaskStreak days streak) = Some (List.last days d0).
Proof.
  revert streak d0. induction days as [|d days IH]; intros streak d0 Hlast; [exact Hlast|].
  cbn [fold_left]. rewrite (IH (updateTaskStreak streak d) d eq_refl).
  destruct days as [|d' days']; [reflexivity|].
  f_equal. change (List.last (d :: d' :: days') d0) with (List.last (d' :: days') d0).
  apply last_default_irrelevant.
Qed.

Lemma streak_run_focus (days : list string) (streak : StreakState) :
  focusDays (fold_left updateTaskStreak days streak) = focusDays streak.
Proof.
  revert streak. induction days as [|d days IH]; intros streak; [reflexivity|].
  cbn [fold_left]. rewrite IH. reflexivity.
Qed.

(** X13.  A run of activity on consecutive calendar days counts every
    day: starting from the empty streak row, recording a task completion
    on each day of a non-empty list of consecutive days leaves
    [taskDays] equal to the number of days, and the last day recorded. *)
Theorem streak_counts_consecutive_days (first : string) (rest : list string) (z : Z) :
  parseISO first = Some z ->
  (forall i d, rest !! i = Some d -> parseISO d = Some (z + 1 + Z.of_nat i)) ->
  let final := fold_left updateTaskStreak (first :: rest) emptyStreak in
  taskDays final = Z.of_nat (List.length (first :: rest)) /\
  lastTaskDay final = Some (List.last rest first) /\
  focusDays final = 0.
Proof.
  intros Hfirst Hrest final. subst final. cbn [fold_left].
  split; [|split].
  - rewrite (streak_run_from rest (updateTaskStreak emptyStreak first) z first eq_refl Hfirst Hrest).
    cbn [List.length]. unfold updateTaskStreak, emptyStreak, updateDayStreak. cbn. lia.
  - apply streak_run_last. reflexivity.
  - rewrite streak_run_focus. reflexivity.
Qed.

Lemma streak_counts_consecutive_days_witness :
  let final :=
    fold_left updateTaskStreak ["2026-02-27"; "2026-02-28"; "2026-03-01"]%string emptyStreak in
  taskDays final = Z.of_nat (List.length ["2026-02-27"; "2026-02-28"; "2026-03-01"]%string) /\
  lastTaskDay final = Some (List.last ["2026-02-28"; "2026-03-01"]%string "2026-02-27"%string) /\
  focusDays final = 0.
Proof.
  apply (streak_counts_consecutive_days "2026-02-27" ["2026-02-28"; "2026-03-01"]%string 20511).
  - vm_compute. reflexivity.
  - intros [|[|[|i]]] d H; inversion H; vm_compute; reflexivity.
Defined.

(** After recording activity a streak is never below 1 and never
    grows by more than one day: for a streak row whose counters are at
    least 1 whenever they have a last day (as the empty row and every
    updated row are), both updates return such a row again. *)
Lemma streak_update_bounds (streak : StreakState) (today : string) :
  streakCounted (taskDays streak) (lastTaskDay streak) ->
  streakCounted (focusDays streak) (lastFocusDay streak) ->
  let byTask := updateTaskStreak streak today in
  let byFocus := updateFocusStreak streak today in
  1 <= taskDays byTask <= Z.max 1 (taskDays streak + 1) /\
  1 <= focusDays byFocus <= Z.max 1 (focusDays streak + 1) /\
  streakCounted (taskDays byTask) (lastTaskDay byTask) /\
  streakCounted (focusDays byTask) (lastFocusDay byTask) /\
  streakCounted (taskDays byFocus) (lastTaskDay byFocus) /\
  streakCounted (focusDays byFocus) (lastFocusDay byFocus).
Proof.
  intros Ht Hf byTask byFocus.
  pose proof (updateDayStreak_bounds _ _ today Ht) as H1.
  pose proof (updateDayStreak_bounds _ _ today Hf) as H2.
  subst byTask byFocus. unfold updateTaskStreak, updateFocusStreak.
  cbn [taskDays focusDays lastTaskDay lastFocusDay].
  split; [exact H1|]. split; [exact H2|]. split; [intros _; lia|].
  split; [exact Hf|]. split; [exact Ht|]. intros _; lia.
Qed.

Lemma streak_update_bounds_witness :
  let byTask := updateTaskStreak emptyStreak "2026-02-10" in
  let byFocus := updateFocusStreak emptyStreak "2026-02-10" in
  1 <= taskDays byTask <= Z.max 1 (taskDays emptyStreak + 1) /\
  1 <= focusDays byFocus <= Z.max 1 (focusDays emptyStreak + 1) /\
  streakCounted (taskDays byTask) (lastTaskDay byTask) /\
  streakCounted (focusDays byTask) (lastFocusDay byTask) /\
  streakCounted (taskDays byFocus) (lastTaskDay byFocus) /\
  streakCounted (focusDays byFocus) (lastFocusDay byFocus).
Proof.
  apply (streak_update_bounds emptyStreak "2026-02-10").
  - intros H. vm_compute in H. discriminate.
  - intros H. vm_compute in H. discriminate.
Defined.

(** ** The views' helpers *)

Lemma js_round_Z (z : Z) : js_round (inject_Z z) = z.
Proof.
  unfold js_round. apply eq_sym, Z.le_antisymm.
  - rewrite <- (Qfloor_Z z) at 1. apply Qfloor_resp_le.
    rewrite <- (Qplus_0_r (inject_Z z)) at 1. apply Qplus_le_r. discriminate.
  - assert (H : Qfloor (inject_Z z + (1 # 2)) < z + 1); [|lia].
    rewrite Zlt_Qlt. apply Qle_lt_trans with (inject_Z z + (1 # 2))%Q; [apply Qfloor_le|].
    rewrite inject_Z_plus. apply Qplus_lt_r. reflexivity.
Qed.

Lemma Qdiv_monotone (a b t : Z) :
  0 < t -> a <= b -> (inject_Z a / inject_Z t * 100 <= inject_Z b / inject_Z t * 100)%Q.
Proof.
  intros Ht Hab. apply Qmult_le_compat_r; [|discriminate].
  unfold Qdiv. apply Qmult_le_compat_r.
  - rewrite <- Zle_Qle. exact Hab.
  - apply Qinv_le_0_compat. change 0%Q with (inject_Z 0). rewrite <- Zle_Qle. lia.
Qed.

Lemma progressPercent_monotone value value' target :
  value <= value' -> progressPercent value target <= progressPercent value' target.
Proof.
  intros Hv. unfold progressPercent. destruct (target <=? 0) eqn:Et; [lia|].
  apply Z.leb_gt in Et. apply Z.max_le_compat_l. apply Z.min_le_compat_l.
  apply js_round_monotone. apply Qdiv_monotone; assumption.
Qed.

Lemma progressPercent_at (k target : Z) :
  0 < target ->
  progressPercent (k * target) target = Z.max 0 (Z.min 100 (k * 100)).
Proof.
  intros Ht. unfold progressPercent.
  replace (target <=? 0) with false by (symmetry; apply Z.leb_gt; exact Ht).
  f_equal. f_equal. rewrite <- (js_round_Z (k * 100)). unfold js_round.
  apply Qfloor_comp. rewrite !inject_Z_mult. field.
  apply Qnonzero_of_pos. apply inject_Z_pos. exact Ht.
Qed.

(** X15.  The progress bar of a quest or an achievement is a whole
    percentage between 0 and 100: it is 0 for a target that is not
    positive or a value that is not positive, 100 as soon as the value
    reaches a positive target, and it never decreases when the value
    grows. *)
Theorem progressPercent_range (value target : Z) :
  0 <= progressPercent value target <= 100 /\
  (target <= 0 -> progressPercent value target = 0) /\
  (0 < target -> value <= 0 -> progressPercent value target = 0) /\
  (0 < target -> target <= value -> progressPercent value target = 100) /\
  (forall value', value <= value' ->
     progressPercent value target <= progressPercent value' target).
Proof.
  split; [|split; [|split; [|split]]].
  - unfold progressPercent. destruct (target <=? 0); lia.
  - intros Ht. unfold progressPercent.
    replace (target <=? 0) with true by (symmetry; apply Z.leb_le; exact Ht). reflexivity.
  - intros Ht Hv. apply Z.le_antisymm.
    + pose proof (progressPercent_monotone value 0 target Hv) as H.
      pose proof (progressPercent_at 0 target Ht) as Hat. rewrite Z.mul_0_l in Hat.
      rewrite Hat in H. lia.
    + unfold progressPercent. destruct (target <=? 0); lia.
  - intros Ht Hv. apply Z.le_antisymm.
    + unfold progressPercent. destruct (target <=? 0); lia.
    + pose proof (progressPercent_monotone target value target Hv) as H.
      pose proof (progressPercent_at 1 target Ht) as Hat. rewrite Z.mul_1_l in Hat.
      rewrite Hat in H. lia.
  - intros value'. apply progressPercent_monotone.
Qed.

(** The heat level of a day is one of 0 .. 4, is 0 exactly for a
    day without focus minutes, and never decreases when the minutes
    grow. *)
Lemma heatLevel_monotone (minutes : Z) :
  0 <= heatLevel minutes <= 4 /\
  (heatLevel minutes = 0 <-> minutes <= 0) /\
  (forall more, minutes <= more -> heatLevel minutes <= heatLevel more).
Proof.
  unfold heatLevel. split; [|split].
  - destruct (minutes <=? 0), (minutes <? 20), (minutes <? 45), (minutes <? 90); lia.
  - destruct (minutes <=? 0) eqn:E0; [apply Z.leb_le in E0; split; intros; [exact E0 | reflexivity]|].
    apply Z.leb_gt in E0.
    destruct (minutes <? 20), (minutes <? 45), (minutes <? 90); split; intros; lia.
  - intros more Hmore.
    destruct (minutes <=? 0) eqn:E0, (minutes <? 20) eqn:E1, (minutes <? 45) eqn:E2,
             (minutes <? 90) eqn:E3,
             (more <=? 0) eqn:F0, (more <? 20) eqn:F1, (more <? 45) eqn:F2,
             (more <? 90) eqn:F3;
      try lia;
      repeat match goal with
             | H : (_ <=? _) = true |- _ => apply Z.leb_le in H
             | H : (_ <=? _) = false |- _ => apply Z.leb_gt in H
             | H : (_ <? _) = true |- _ => apply Z.ltb_lt in H
             | H : (_ <? _) = false |- _ => apply Z.ltb_ge in H
             end; lia.
Qed.

Lemma substring_prefix (s t : string) :
  String.substring 0 (String.length s) (s ++ t) = s.
Proof.
  induction s as [|c s IH].
  - destruct t; reflexivity.
  - change (String c (String.substring 0 (String.length s) (s ++ t)) = String c s).
    f_equal. exact IH.
Qed.

(** A date typed into the deadline field survives the round trip
    through the stored deadline: for a ten-character date,
    [inputDateFromISO(isoFromInputDate(value))] is the date again, the
    stored text is the date followed by [T18:00:00.000Z], and an empty
    field is stored as no deadline and shown as an empty field. *)
Lemma input_date_round_trip (value : string) :
  String.length value = 10%nat ->
  isoFromInputDate value = Some (value ++ "T18:00:00.000Z")%string /\
  inputDateFromISO (isoFromInputDate value) = value /\
  isoFromInputDate EmptyString = None /\
  inputDateFromISO (isoFromInputDate EmptyString) = EmptyString.
Proof.
  intros Hlen. destruct value as [|c value]; [discriminate|].
  split; [reflexivity|]. split; [|split; reflexivity].
  change (String.substring 0 10 (String c value ++ "T18:00:00.000Z") = String c value).
  rewrite <- Hlen. apply substring_prefix.
Qed.

Lemma input_date_round_trip_witness :
  isoFromInputDate "2026-02-10" = Some ("2026-02-10" ++ "T18:00:00.000Z")%string /\
  inputDateFromISO (isoFromInputDate "2026-02-10") = "2026-02-10"%string /\
  isoFromInputDate EmptyString = None /\
  inputDateFromISO (isoFromInputDate EmptyString) = EmptyString.
Proof. apply (input_date_round_trip "2026-02-10"). reflexivity. Defined.

(** X16.  The task filters split the tasks cleanly: every task is either
    completed or active, every active task is in exactly one of "today"
    and "upcoming" (a task without a deadline counts as today's), no
    completed task shows under either, and any other filter text shows
    every task. *)
Theorem taskInFilter_partition (isToday : string -> bool) (task : Task) :
  taskInFilter isToday task "completed" = negb (taskInFilter isToday task "active") /\
  taskInFilter isToday task "active"
    = xorb (taskInFilter isToday task "today") (taskInFilter isToday task "upcoming") /\
  (taskInFilter isToday task "completed" = true ->
   taskInFilter isToday task "today" = false /\
   taskInFilter isToday task "upcoming" = false) /\
  (deadlineAt task = None -> taskInFilter isToday task "upcoming" = false) /\
  (forall filter : string,
     filter <> "completed"%string -> filter <> "active"%string ->
     filter <> "today"%string -> filter <> "upcoming"%string ->
     taskInFilter isToday task filter = true).
Proof.
  split; [|split; [|split; [|split]]].
  5: { intros filter Hcompleted Hactive Htoday Hupcoming. unfold taskInFilter.
       apply String.eqb_neq in Hcompleted, Hactive, Htoday, Hupcoming.
       rewrite Hcompleted, Hactive, Htoday, Hupcoming. reflexivity. }
  all: unfold taskInFilter; cbn [String.eqb Ascii.eqb Bool.eqb];
    destruct (bool_decide (task_status task = done));
    destruct (deadlineAt task) as [[|c t]|]; cbn [truthy negb andb xorb];
    try destruct (isToday _); cbn; repeat split; intros; try reflexivity; try discriminate.
Qed.

(** ** Completion rate on focus days *)

Lemma filter_length_le_Z {A : Type} (p : A -> bool) (l : list A) :
  Z.of_nat (List.length (List.filter p l)) <= Z.of_nat (List.length l).
Proof. apply Nat2Z.inj_le. apply List.filter_length_le. Qed.

Lemma ratio_percent_full (n : Z) :
  0 < n -> js_round (inject_Z n / inject_Z n * 100) = 100.
Proof.
  intros Hn. rewrite <- (js_round_Z 100) at 2. unfold js_round. apply Qfloor_comp.
  assert (Hq : (inject_Z n / inject_Z n * 100 == inject_Z 100)%Q).
  { field. apply Qnonzero_of_pos. apply inject_Z_pos. exact Hn. }
  rewrite Hq. reflexivity.
Qed.

Lemma ratio_percent_range (k n : Z) :
  0 < n -> 0 <= k <= n -> 0 <= js_round (inject_Z k / inject_Z n * 100) <= 100.
Proof.
  intros Hn [Hk Hkn]. split.
  - rewrite <- (js_round_Z 0). apply js_round_monotone.
    apply Qle_trans with (inject_Z 0 / inject_Z n * 100)%Q;
      [unfold Qdiv; rewrite Qmult_0_l; discriminate|].
    apply Qdiv_monotone; assumption.
  - pose proof (ratio_percent_full n Hn) as Hfull.
    pose proof (js_round_monotone _ _ (Qdiv_monotone k n n Hn Hkn)) as Hmono.
    rewrite Hfull in Hmono. exact Hmono.
Qed.

(** X17.  [completionRateOnFocusDays] is a whole percentage between 0 and
    100; it is 0 when no day has focus minutes and 100 when every focus
    day has a completion. *)
Theorem completionRateOnFocusDays_range (db : Db) :
  let focusDays :=
    List.filter (fun d => 0 <? focusMinutes d) (toArray (db_analyticsDaily db)) in
  0 <= completionRateOnFocusDays db <= 100 /\
  (focusDays = [] -> completionRateOnFocusDays db = 0) /\
  (focusDays <> [] -> Forall (fun d => 0 < completions d) focusDays ->
   completionRateOnFocusDays db = 100).
Proof.
  intros focusDays. unfold completionRateOnFocusDays. fold focusDays.
  destruct focusDays as [|d rest] eqn:E; [split; [lia|]; split; [reflexivity | congruence]|].
  rewrite <- E.
  assert (Hn : 0 < Z.of_nat (List.length focusDays)) by (rewrite E; cbn [List.length]; lia).
  clear E. split; [|split; [intros H; rewrite H in Hn; cbn in Hn; lia|]].
  - apply ratio_percent_range; [exact Hn|].
    split; [lia | apply filter_length_le_Z].
  - intros _ Hall.
    assert (Hfilter : List.filter (fun d => 0 <? completions d) focusDays = focusDays).
    { clear Hn. induction focusDays as [|x l IH]; [reflexivity|].
      inversion Hall; subst. cbn [List.filter].
      replace (0 <? completions x) with true by (symmetry; apply Z.ltb_lt; assumption).
      f_equal. apply IH. assumption. }
    rewrite Hfilter. apply ratio_percent_full. exact Hn.
Qed.

(** ** Invariants of the store across its operations *)

Section Respects.

Context (R : Db -> Db -> Prop).
Hypothesis R_refl : forall db, R db db.
Hypothesis R_trans : forall a b c, R a b -> R b c -> R a c.

Lemma respects_ret {A : Type} (a : A) : respects R (store_ret a).
Proof. intros db. apply R_refl. Qed.

Lemma respects_bind {A B : Type} (m : Store A) (k : A -> Store B) :
  respects R m -> (forall a, respects R (k a)) -> respects R (store_bind m k).
Proof.
  intros Hm Hk db. unfold store_bind. specialize (Hm db).
  destruct (m db) as [a db']. cbn [snd] in Hm.
  exact (R_trans _ _ _ Hm (Hk a db')).
Qed.

Lemma respects_read {B : Type} (k : Db -> Store B) :
  (forall db, respects R (k db)) -> respects R (store_bind readDb k).
Proof. intros Hk db. exact (Hk db db). Qed.

End Respects.

Lemma keepsProperty_refl (P : Db -> Prop) db : keepsProperty P db db.
Proof. intros H. exact H. Qed.

Lemma keepsProperty_trans (P : Db -> Prop) a b c :
  keepsProperty P a b -> keepsProperty P b c -> keepsProperty P a c.
Proof. intros Hab Hbc H. exact (Hbc (Hab H)). Qed.

Lemma logExtended_refl db : logExtended db db.
Proof. intros H. split; [exists []; rewrite app_nil_r; reflexivity | exact H]. Qed.

Lemma logExtended_trans a b c : logExtended a b -> logExtended b c -> logExtended a c.
Proof.
  intros Hab Hbc Ha. destruct (Hab Ha) as [[l1 H1] Hb]. destruct (Hbc Hb) as [[l2 H2] Hc].
  split; [|exact Hc]. exists (l1 ++ l2). rewrite H2, H1, app_assoc. reflexivity.
Qed.

(** Walk through an operation of the store: its binds, reads and case
    distinctions, leaving the steps that write. *)
Ltac store_walk refl trans :=
  unfold keepsKeyed, extendsLog, keepsWellFormed;
  repeat match goal with
         | |- respects _ (store_ret _) => apply (respects_ret _ refl)
         | |- respects _ (store_bind readDb _) => apply respects_read; intros ?
         | |- respects _ (store_bind _ _) => apply (respects_bind _ trans); [ | intros ? ]
         | |- respects _ (match ?x with _ => _ end) => destruct x eqn:?
         end.

Lemma keyedBy_delete {V : Type} (key : V -> string) (k : string) (table : gmap string V) :
  keyedBy key table -> keyedBy key (delete k table).
Proof.
  intros Hkeyed k' row H. apply lookup_delete_Some in H as [_ H]. exact (Hkeyed _ _ H).
Qed.

Lemma keyedBy_seedTable {V : Type} (key : V -> string) (rows : list V)
    (table : gmap string V) :
  keyedBy key table -> keyedBy key (seedTable key rows table).
Proof.
  intros H. unfold seedTable. destruct (Nat.eqb (size table) 0); [|exact H].
  apply bulkPut_keyed. exact H.
Qed.


(** *** The tables stay keyed *)

Section Keyed.

Variable dayKey : string -> string.
Variable nextRecurringDeadline : Task -> string -> option string.
Variable recurrenceLabel : Task -> option string.

Ltac keyed_walk :=
  store_walk (keepsProperty_refl storeKeyed) (keepsProperty_trans storeKeyed).

(** A step that writes none of the keyed tables. *)
Ltac keyed_frame :=
  let H := fresh in intros ? H; exact H.

Lemma keyed_putCharacter c : keepsKeyed (putCharacter c).
Proof. keyed_frame. Qed.

Lemma keyed_putStreaks s : keepsKeyed (putStreaks s).
Proof. keyed_frame. Qed.

Lemma keyed_appendEvent now userId type fields :
  keepsKeyed (appendEvent now userId type fields).
Proof. keyed_frame. Qed.

Lemma keyed_writeTasks f :
  (forall t, keyedBy task_id t -> keyedBy task_id (f t)) -> keepsKeyed (writeTasks f).
Proof.
  intros Hf db (H1 & H2 & H3 & H4 & H5 & H6 & H7).
  repeat split; cbn; auto.
Qed.

Lemma keyed_writeQuests f :
  (forall t, keyedBy quest_id t -> keyedBy quest_id (f t)) -> keepsKeyed (writeQuests f).
Proof.
  intros Hf db (H1 & H2 & H3 & H4 & H5 & H6 & H7).
  repeat split; cbn; auto.
Qed.

Lemma keyed_writeCategories f :
  (forall t, keyedBy category_id t -> keyedBy category_id (f t)) ->
  keepsKeyed (writeCategories f).
Proof.
  intros Hf db (H1 & H2 & H3 & H4 & H5 & H6 & H7).
  repeat split; cbn; auto.
Qed.

Lemma keyed_writeAchievements f :
  (forall t, keyedBy achievement_id t -> keyedBy achievement_id (f t)) ->
  keepsKeyed (writeAchievements f).
Proof.
  intros Hf db (H1 & H2 & H3 & H4 & H5 & H6 & H7).
  repeat split; cbn; auto.
Qed.

Lemma keyed_writeFocusSessions f :
  (forall t, keyedBy session_id t -> keyedBy session_id (f t)) ->
  keepsKeyed (writeFocusSessions f).
Proof.
  intros Hf db (H1 & H2 & H3 & H4 & H5 & H6 & H7).
  repeat split; cbn; auto.
Qed.

Lemma keyed_writeAchievementProgress f :
  (forall t, keyedBy progress_id t -> keyedBy progress_id (f t)) ->
  keepsKeyed (writeAchievementProgress f).
Proof.
  intros Hf db (H1 & H2 & H3 & H4 & H5 & H6 & H7).
  repeat split; cbn; auto.
Qed.

Lemma keyed_putAnalyticsDaily a : keepsKeyed (putAnalyticsDaily a).
Proof.
  intros db (H1 & H2 & H3 & H4 & H5 & H6 & H7).
  repeat split; cbn; auto. apply keyedBy_insert. exact H7.
Qed.

Lemma keyed_upsertDailyAggregate occurredAt delta category minutes :
  keepsKeyed (upsertDailyAggregate dayKey occurredAt delta category minutes).
Proof. unfold upsertDailyAggregate. keyed_walk. apply keyed_putAnalyticsDaily. Qed.

Lemma keyed_recordTaskCompletion now userId task :
  keepsKeyed (recordTaskCompletion dayKey now userId task).
Proof.
  unfold recordTaskCompletion, applyTaskAnalytics. keyed_walk;
    first [ apply keyed_putCharacter | apply keyed_putStreaks | apply keyed_appendEvent
          | apply keyed_upsertDailyAggregate ].
Qed.

Lemma keyed_recordFocusSessionEnd now userId session :
  keepsKeyed (recordFocusSessionEnd dayKey now userId session).
Proof.
  unfold recordFocusSessionEnd, applyFocusAnalytics. keyed_walk;
    first [ apply keyed_putCharacter | apply keyed_putStreaks | apply keyed_appendEvent
          | apply keyed_upsertDailyAggregate ].
Qed.

Lemma keyed_syncQuestProgress : keepsKeyed syncQuestProgress.
Proof.
  unfold syncQuestProgress. keyed_walk.
  apply keyed_writeQuests. intros ?. apply bulkPut_keyed.
Qed.

Lemma keyed_syncAchievementProgress now : keepsKeyed (syncAchievementProgress now).
Proof.
  unfold syncAchievementProgress. keyed_walk.
  apply keyed_writeAchievementProgress. intros ?. apply bulkPut_keyed.
Qed.

Lemma keyed_refreshProjections now : keepsKeyed (refreshProjections now).
Proof.
  unfold refreshProjections. keyed_walk;
    [apply keyed_syncQuestProgress | apply keyed_syncAchievementProgress].
Qed.

Lemma keyed_spawnNextOccurrence task now :
  keepsKeyed (spawnNextOccurrence nextRecurringDeadline recurrenceLabel task now).
Proof.
  unfold spawnNextOccurrence. keyed_walk.
  apply keyed_writeTasks. intros ?.
  apply (keyedBy_insert task_id (nextOccurrence _ _ task now (makeId _))).
Qed.

Lemma keyed_completeTask now profile taskId :
  keepsKeyed (completeTask dayKey nextRecurringDeadline recurrenceLabel now profile taskId).
Proof.
  unfold completeTask. keyed_walk;
    first [ apply keyed_recordTaskCompletion | apply keyed_spawnNextOccurrence
          | apply keyed_refreshProjections
          | apply keyed_writeTasks; intros ?;
            apply (keyedBy_insert task_id (withCompletion _ _ _ _ _)) ].
Qed.

Lemma keyed_reopenTask now profile taskId :
  keepsKeyed (reopenTask dayKey now profile taskId).
Proof.
  unfold reopenTask. keyed_walk;
    first [ apply keyed_putCharacter | apply keyed_upsertDailyAggregate
          | apply keyed_appendEvent | apply keyed_refreshProjections
          | apply keyed_writeTasks; intros ?;
            apply (keyedBy_insert task_id (withCompletion _ _ _ _ _)) ].
Qed.

Lemma keyed_createTask now profile input : keepsKeyed (createTask now profile input).
Proof.
  unfold createTask. keyed_walk;
    first [ apply keyed_appendEvent
          | apply keyed_writeTasks; intros ?;
            apply (keyedBy_insert task_id (newTask _ _ _)) ].
Qed.

Lemma keyed_deleteTask now profile taskId : keepsKeyed (deleteTask now profile taskId).
Proof.
  unfold deleteTask. keyed_walk;
    first [ apply keyed_appendEvent | apply keyed_refreshProjections
          | apply keyed_writeTasks; intros ?; apply keyedBy_delete ].
Qed.

Lemma keyed_createQuest now profile questInput :
  keepsKeyed (createQuest now profile questInput).
Proof.
  unfold createQuest. keyed_walk;
    first [ apply keyed_appendEvent | apply keyed_syncQuestProgress
          | apply keyed_writeQuests; intros ?;
            apply (keyedBy_insert quest_id (customQuest _ _)) ].
Qed.

Lemma keyed_updateQuest now profile questId patch :
  keepsKeyed (updateQuest now profile questId patch).
Proof.
  unfold updateQuest. keyed_walk;
    first [ apply keyed_appendEvent
          | apply keyed_writeQuests; intros ?;
            apply (keyedBy_insert quest_id (patchedQuest _ _)) ].
Qed.

Lemma keyed_resetLifetimeXp : keepsKeyed resetLifetimeXp.
Proof. unfold resetLifetimeXp. keyed_walk. apply keyed_putCharacter. Qed.

Lemma keyed_addFocusSession now profile session applyRewards :
  keepsKeyed (addFocusSession dayKey now profile session applyRewards).
Proof.
  unfold addFocusSession. keyed_walk;
    first [ apply keyed_upsertDailyAggregate | apply keyed_recordFocusSessionEnd
          | apply keyed_refreshProjections
          | apply keyed_writeFocusSessions; intros ?;
            apply (keyedBy_insert session_id session) ].
Qed.

Lemma keyed_bootstrapData : keepsKeyed bootstrapData.
Proof.
  unfold bootstrapData. keyed_walk;
    first [ apply keyed_putCharacter | apply keyed_putStreaks
          | apply keyed_writeCategories; intros ?; apply keyedBy_seedTable
          | apply keyed_writeAchievements; intros ?; apply keyedBy_seedTable
          | apply keyed_writeQuests; intros ?; apply keyedBy_seedTable ].
Qed.

Lemma keyed_init now : keepsKeyed (init now).
Proof.
  unfold init. keyed_walk;
    [apply keyed_bootstrapData | apply keyed_syncQuestProgress
     | apply keyed_syncAchievementProgress].
Qed.

End Keyed.

(** *** The event log only grows *)

Section LogGrows.

Variable dayKey : string -> string.
Variable nextRecurringDeadline : Task -> string -> option string.
Variable recurrenceLabel : Task -> option string.

Ltac log_walk := store_walk logExtended_refl logExtended_trans.

(** A step that does not write the log. *)
Lemma log_frame {A : Type} (m : Store A) :
  (forall db, db_eventLog (m db).2 = db_eventLog db) -> extendsLog m.
Proof.
  intros Hframe db Hnodup. unfold eventIds in *. rewrite Hframe.
  split; [exists []; rewrite app_nil_r; reflexivity | exact Hnodup].
Qed.

Lemma log_appendEvent now userId type fields :
  extendsLog (appendEvent now userId type fields).
Proof.
  intros db Hnodup. unfold appendEvent, store_bind, readDb, addEvent, store_ret.
  cbn [snd db_eventLog]. split; [eexists; reflexivity|].
  unfold eventIds in *. cbn [db_eventLog]. rewrite List.map_app. cbn [List.map eventId].
  apply NoDup_app. split; [exact Hnodup|]. split.
  - intros x Hx Hx'. apply list_elem_of_singleton in Hx'. subst x.
    apply (is_fresh (list_to_set (List.map eventId (db_eventLog db)) : gset string)).
    apply elem_of_list_to_set. exact Hx.
  - apply NoDup_singleton.
Qed.

Ltac log_leaf :=
  first [ apply log_appendEvent | apply log_frame; reflexivity ].

Lemma log_upsertDailyAggregate occurredAt delta category minutes :
  extendsLog (upsertDailyAggregate dayKey occurredAt delta category minutes).
Proof. unfold upsertDailyAggregate. log_walk. log_leaf. Qed.

Lemma log_recordTaskCompletion now userId task :
  extendsLog (recordTaskCompletion dayKey now userId task).
Proof.
  unfold recordTaskCompletion, applyTaskAnalytics. log_walk;
    first [ apply log_upsertDailyAggregate | log_leaf ].
Qed.

Lemma log_recordFocusSessionEnd now userId session :
  extendsLog (recordFocusSessionEnd dayKey now userId session).
Proof.
  unfold recordFocusSessionEnd, applyFocusAnalytics. log_walk;
    first [ apply log_upsertDailyAggregate | log_leaf ].
Qed.

Lemma log_syncQuestProgress : extendsLog syncQuestProgress.
Proof. unfold syncQuestProgress. log_walk. log_leaf. Qed.

Lemma log_syncAchievementProgress now : extendsLog (syncAchievementProgress now).
Proof. unfold syncAchievementProgress. log_walk. log_leaf. Qed.

Lemma log_refreshProjections now : extendsLog (refreshProjections now).
Proof.
  unfold refreshProjections. log_walk;
    [apply log_syncQuestProgress | apply log_syncAchievementProgress].
Qed.

Lemma log_spawnNextOccurrence task now :
  extendsLog (spawnNextOccurrence nextRecurringDeadline recurrenceLabel task now).
Proof. unfold spawnNextOccurrence. log_walk. log_leaf. Qed.

Ltac log_ops :=
  first [ apply log_recordTaskCompletion | apply log_recordFocusSessionEnd
        | apply log_spawnNextOccurrence | apply log_refreshProjections
        | apply log_syncQuestProgress | apply log_syncAchievementProgress
        | apply log_upsertDailyAggregate | log_leaf ].

Lemma log_completeTask now profile taskId :
  extendsLog (completeTask dayKey nextRecurringDeadline recurrenceLabel now profile taskId).
Proof. unfold completeTask. log_walk; log_ops. Qed.

Lemma log_reopenTask now profile taskId :
  extendsLog (reopenTask dayKey now profile taskId).
Proof. unfold reopenTask. log_walk; log_ops. Qed.

Lemma log_createTask now profile input : extendsLog (createTask now profile input).
Proof. unfold createTask. log_walk; log_ops. Qed.

Lemma log_deleteTask now profile taskId : extendsLog (deleteTask now profile taskId).
Proof. unfold deleteTask. log_walk; log_ops. Qed.

Lemma log_createQuest now profile questInput :
  extendsLog (createQuest now profile questInput).
Proof. unfold createQuest. log_walk; log_ops. Qed.

Lemma log_updateQuest now profile questId patch :
  extendsLog (updateQuest now profile questId patch).
Proof. unfold updateQuest. log_walk; log_ops. Qed.

Lemma log_resetLifetimeXp : extendsLog resetLifetimeXp.
Proof. unfold resetLifetimeXp. log_walk; log_ops. Qed.

Lemma log_addFocusSession now profile session applyRewards :
  extendsLog (addFocusSession dayKey now profile session applyRewards).
Proof. unfold addFocusSession. log_walk; log_ops. Qed.

Lemma log_bootstrapData : extendsLog bootstrapData.
Proof. unfold bootstrapData. log_walk; log_ops. Qed.

Lemma log_init now : extendsLog (init now).
Proof.
  unfold init. log_walk; first [apply log_bootstrapData | log_ops].
Qed.

End LogGrows.

(** *** The character stays well formed *)

Section CharacterStaysOk.

Variable dayKey : string -> string.

Lemma characterOk_resetLifetimeXp : keepsCharacterOk resetLifetimeXp.
Proof.
  unfold resetLifetimeXp. apply keepsCharacterOk_read. intros db Hok.
  destruct (db_character db) as [c|] eqn:Hchar; [|exact Hok].
  intros c' Hc'. cbn in Hc'. inversion Hc'; subst c'.
  destruct (Hok c Hchar) as (H1 & H2 & H3 & H4).
  split; [exact H1|]. split; [exact H2|]. split; [exact H3 | exact H4].
Qed.

Lemma characterOk_bootstrapData : keepsCharacterOk bootstrapData.
Proof.
  unfold bootstrapData.
  apply keepsCharacterOk_bind; [apply keepsCharacterOk_frame; reflexivity|]. intros _.
  apply keepsCharacterOk_bind; [apply keepsCharacterOk_frame; reflexivity|]. intros _.
  apply keepsCharacterOk_bind; [apply keepsCharacterOk_frame; reflexivity|]. intros _.
  apply keepsCharacterOk_bind.
  - apply keepsCharacterOk_read. intros db Hok.
    destruct (db_character db) as [c|] eqn:Hchar; [exact Hok|].
    intros c' Hc'. cbn in Hc'. inversion Hc'; subst c'. apply characterOk_base.
  - intros _. apply keepsCharacterOk_read. intros db Hok.
    destruct (db_streaks db); exact Hok.
Qed.

Lemma characterOk_addFocusSession now profile session applyRewards :
  keepsCharacterOk (addFocusSession dayKey now profile session applyRewards).
Proof.
  unfold addFocusSession.
  destruct profile as [userId|]; [|apply keepsCharacterOk_ret].
  apply keepsCharacterOk_read. intros db.
  destruct (db_focusSessions db !! session_id session); [apply keepsCharacterOk_ret|].
  apply keepsCharacterOk_bind; [apply keepsCharacterOk_frame; reflexivity|]. intros _.
  destruct applyRewards as [[|]|].
  - apply keepsCharacterOk_bind; [apply recordFocusSessionEnd_keeps|]. intros _.
    apply keepsCharacterOk_bind; [apply refreshProjections_keeps|]. intros _.
    apply keepsCharacterOk_ret.
  - apply keepsCharacterOk_bind; [|intros _; apply keepsCharacterOk_ret].
    destruct (bool_decide (session_type session = work));
      [apply keepsCharacterOk_frame; reflexivity | apply keepsCharacterOk_ret].
  - apply keepsCharacterOk_bind; [apply recordFocusSessionEnd_keeps|]. intros _.
    apply keepsCharacterOk_bind; [apply refreshProjections_keeps|]. intros _.
    apply keepsCharacterOk_ret.
Qed.

Lemma characterOk_deleteTask now profile taskId :
  keepsCharacterOk (deleteTask now profile taskId).
Proof.
  unfold deleteTask.
  destruct profile as [userId|]; [|apply keepsCharacterOk_ret].
  apply keepsCharacterOk_read. intros db.
  destruct (db_tasks db !! taskId); [|apply keepsCharacterOk_ret].
  apply keepsCharacterOk_bind; [apply keepsCharacterOk_frame; reflexivity|]. intros _.
  apply keepsCharacterOk_bind; [apply keepsCharacterOk_frame; reflexivity|]. intros _.
  apply refreshProjections_keeps.
Qed.

End CharacterStaysOk.

(** X19.  The event log is append-only: starting from a log whose event
    ids are distinct, first launch, [init] and every operation of the
    store leave every logged event in its place, add their events at the
    end, and keep the ids distinct. *)
Theorem store_operations_extend_event_log
    (dayKey : string -> string) (nextRecurringDeadline : Task -> string -> option string)
    (recurrenceLabel : Task -> option string) (now : string) (profile : option string) :
  NoDup (eventIds emptyDb) /\
  (forall userId type fields, extendsLog (appendEvent now userId type fields)) /\
  extendsLog bootstrapData /\
  extendsLog (init now) /\
  (forall input, extendsLog (createTask now profile input)) /\
  (forall taskId,
     extendsLog (completeTask dayKey nextRecurringDeadline recurrenceLabel now profile taskId)) /\
  (forall taskId, extendsLog (reopenTask dayKey now profile taskId)) /\
  (forall taskId, extendsLog (deleteTask now profile taskId)) /\
  (forall questInput, extendsLog (createQuest now profile questInput)) /\
  (forall questId patch, extendsLog (updateQuest now profile questId patch)) /\
  (forall session applyRewards,
     extendsLog (addFocusSession dayKey now profile session applyRewards)) /\
  extendsLog resetLifetimeXp.
Proof.
  split; [apply NoDup_nil_2|].
  split; [intros; apply log_appendEvent|].
  split; [apply log_bootstrapData|]. split; [apply log_init|].
  split; [intros; apply log_createTask|]. split; [intros; apply log_completeTask|].
  split; [intros; apply log_reopenTask|]. split; [intros; apply log_deleteTask|].
  split; [intros; apply log_createQuest|]. split; [intros; apply log_updateQuest|].
  split; [intros; apply log_addFocusSession | apply log_resetLifetimeXp].
Qed.

(** ** What the operations of the store do *)

Lemma sameOn_refl {T : Type} (part : Db -> T) db : sameOn part db db.
Proof. reflexivity. Qed.

Lemma sameOn_trans {T : Type} (part : Db -> T) a b c :
  sameOn part a b -> sameOn part b c -> sameOn part a c.
Proof. unfold sameOn. intros Hab Hbc. rewrite Hbc. exact Hab. Qed.

(** Walk through an operation that leaves a part of the store alone. *)
Ltac frame_walk part :=
  store_walk (sameOn_refl part) (sameOn_trans part);
  try (intros ?; reflexivity).

(** From a run [m db = (a, db')] of an operation that respects [R]. *)
Ltac respected L Hrun :=
  let X := fresh "Hstep" in
  match type of Hrun with
  | ?m ?db = _ =>
      pose proof (L db) as X; rewrite Hrun in X; cbn [snd] in X; unfold sameOn in X
  end.

Section Effects.

Variable dayKey : string -> string.
Variable nextRecurringDeadline : Task -> string -> option string.
Variable recurrenceLabel : Task -> option string.

Lemma tasks_upsertDailyAggregate occurredAt delta category minutes :
  respects (sameOn db_tasks) (upsertDailyAggregate dayKey occurredAt delta category minutes).
Proof. unfold upsertDailyAggregate. frame_walk db_tasks. Qed.

Lemma tasks_recordTaskCompletion now userId task :
  respects (sameOn db_tasks) (recordTaskCompletion dayKey now userId task).
Proof.
  unfold recordTaskCompletion, applyTaskAnalytics. frame_walk db_tasks.
Qed.

Lemma tasks_syncQuestProgress : respects (sameOn db_tasks) syncQuestProgress.
Proof. unfold syncQuestProgress. frame_walk db_tasks. Qed.

Lemma tasks_syncAchievementProgress now :
  respects (sameOn db_tasks) (syncAchievementProgress now).
Proof. unfold syncAchievementProgress. frame_walk db_tasks. Qed.

Lemma tasks_refreshProjections now : respects (sameOn db_tasks) (refreshProjections now).
Proof.
  unfold refreshProjections. frame_walk db_tasks;
    first [apply tasks_syncQuestProgress | apply tasks_syncAchievementProgress].
Qed.

(** X20.  An operation whose precondition is not met returns without
    writing anything: with no profile loaded, for a task id that is not
    stored, for completing a task that is done already or reopening one
    that is not done; and adding a focus session under an id that is
    taken is rejected and writes nothing. *)
Theorem store_operations_ignore_unmet_preconditions
    (now userId taskId : string) (db : Db) :
  (completeTask dayKey nextRecurringDeadline recurrenceLabel now None taskId db = (None, db) /\
   reopenTask dayKey now None taskId db = (tt, db) /\
   deleteTask now None taskId db = (tt, db) /\
   (forall input, createTask now None input db = (tt, db)) /\
   (forall questInput, createQuest now None questInput db = (tt, db)) /\
   (forall questId patch, updateQuest now None questId patch db = (tt, db)) /\
   (forall session applyRewards,
      addFocusSession dayKey now None session applyRewards db = (Some tt, db))) /\
  (db_tasks db !! taskId = None ->
   completeTask dayKey nextRecurringDeadline recurrenceLabel now (Some userId) taskId db
     = (None, db) /\
   reopenTask dayKey now (Some userId) taskId db = (tt, db) /\
   deleteTask now (Some userId) taskId db = (tt, db)) /\
  (forall task, db_tasks db !! taskId = Some task ->
     (task_status task = done ->
      completeTask dayKey nextRecurringDeadline recurrenceLabel now (Some userId) taskId db
        = (None, db)) /\
     (task_status task = todo -> reopenTask dayKey now (Some userId) taskId db = (tt, db))) /\
  (forall questId patch, db_quests db !! questId = None ->
     updateQuest now (Some userId) questId patch db = (tt, db)) /\
  (forall session applyRewards stored,
     db_focusSessions db !! session_id session = Some stored ->
     addFocusSession dayKey now (Some userId) session applyRewards db = (None, db)).
Proof.
  split; [repeat split|]. split; [|split; [|split]].
  - intros Hnone. unfold completeTask, reopenTask, deleteTask, store_bind, readDb.
    rewrite Hnone. repeat split.
  - intros task Htask. unfold completeTask, reopenTask, store_bind, readDb. rewrite Htask.
    split; intros Hs; rewrite Hs; reflexivity.
  - intros questId patch Hnone. unfold updateQuest, store_bind, readDb. rewrite Hnone.
    reflexivity.
  - intros session applyRewards stored Hstored. unfold addFocusSession, store_bind, readDb.
    rewrite Hstored. reflexivity.
Qed.

Lemma store_bind_run {A B : Type} (m : Store A) (k : A -> Store B) (db : Db) :
  store_bind m k db = k (m db).1 (m db).2.
Proof. unfold store_bind. destruct (m db); reflexivity. Qed.

(** The steps of [completeTask] on a stored task that is not done. *)
Lemma completeTask_run now userId taskId db task :
  db_tasks db !! taskId = Some task -> task_status task = todo ->
  let updated := withCompletion task done (Some now) now (completionReward task) in
  let recorded := recordTaskCompletion dayKey now userId updated db in
  let completed :=
    withCompletion updated done (Some now) now
      match recorded.1 with
      | Some r =>
          if 0 <? xpGain r
          then Some {| stored_xpGain := xpGain r; stored_statGains := statGains r |}
          else None
      | None => None
      end in
  let written := (writeTasks (insert (task_id completed) completed) recorded.2).2 in
  let spawned :=
    (spawnNextOccurrence nextRecurringDeadline recurrenceLabel completed now written).2 in
  completeTask dayKey nextRecurringDeadline recurrenceLabel now (Some userId) taskId db
  = (recorded.1, (refreshProjections now spawned).2).
Proof.
  intros Htask Hstatus. cbv zeta. unfold completeTask.
  rewrite store_bind_run. cbn [readDb fst snd]. rewrite Htask, Hstatus.
  rewrite bool_decide_false by discriminate.
  rewrite !store_bind_run. reflexivity.
Qed.

Lemma completeTask_tasks now userId taskId db task :
  db_tasks db !! taskId = Some task -> task_id task = taskId -> task_status task = todo ->
  exists stored,
    let completed :=
      withCompletion (withCompletion task done (Some now) now (completionReward task))
        done (Some now) now stored in
    db_tasks (completeTask dayKey nextRecurringDeadline recurrenceLabel now (Some userId)
                taskId db).2
    = db_tasks
        (spawnNextOccurrence nextRecurringDeadline recurrenceLabel completed now
           (writeTasks (insert taskId completed) db).2).2.
Proof.
  intros Htask Hid Hstatus.
  rewrite (completeTask_run now userId taskId db task Htask Hstatus). cbn [snd].
  rewrite (tasks_refreshProjections now _ : db_tasks _ = db_tasks _).
  eexists. cbv zeta. unfold spawnNextOccurrence.
  change (task_id (withCompletion ?t ?s ?c ?u ?r)) with (task_id t).
  change (recurrence (withCompletion ?t ?s ?c ?u ?r)) with (recurrence t).
  change (task_id (withCompletion ?t ?s ?c ?u ?r)) with (task_id t).
  change (recurrence (withCompletion ?t ?s ?c ?u ?r)) with (recurrence t).
  rewrite Hid.
  destruct (recurrence task).
  - rewrite !store_bind_run. unfold readDb, writeTasks. cbn [fst snd db_tasks].
    rewrite (tasks_recordTaskCompletion now userId _ db : db_tasks _ = db_tasks _).
    reflexivity.
  - unfold store_ret, writeTasks. cbn [snd db_tasks].
    rewrite (tasks_recordTaskCompletion now userId _ db : db_tasks _ = db_tasks _).
    reflexivity.
Qed.

Lemma completeTask_marks_done now userId taskId db task :
  db_tasks db !! taskId = Some task -> task_id task = taskId ->
  exists completed,
    db_tasks (completeTask dayKey nextRecurringDeadline recurrenceLabel now (Some userId)
                taskId db).2 !! taskId = Some completed /\
    task_status completed = done.
Proof.
  intros Htask Hid. destruct (task_status task) eqn:Hstatus.
  - destruct (completeTask_tasks now userId taskId db task Htask Hid Hstatus)
      as (stored & Htasks).
    cbv zeta in Htasks. rewrite Htasks. eexists. split.
    + destruct (spawnNextOccurrence _ _ _ _ _) as [u db2] eqn:H2.
      apply (spawnNextOccurrence_frame _ _ _ _ _ _ _ H2).
      cbn [db_tasks writeTasks snd]. apply lookup_insert_eq.
    + reflexivity.
  - exists task. unfold completeTask, store_bind, readDb. rewrite Htask.
    rewrite bool_decide_true by exact Hstatus. split; [exact Htask | exact Hstatus].
Qed.

(** X22.  A task pays its reward once: completing a stored task a second
    time (a double click) returns no reward and leaves the store exactly
    as the first completion left it. *)
Theorem completeTask_pays_once (now1 now2 userId taskId : string) (db : Db) (task : Task) :
  db_tasks db !! taskId = Some task -> task_id task = taskId ->
  let first :=
    completeTask dayKey nextRecurringDeadline recurrenceLabel now1 (Some userId) taskId db in
  completeTask dayKey nextRecurringDeadline recurrenceLabel now2 (Some userId) taskId first.2
  = (None, first.2).
Proof.
  intros Htask Hid first.
  destruct (completeTask_marks_done now1 userId taskId db task Htask Hid)
    as (completed & Hstored & Hdone).
  fold first in Hstored.
  unfold completeTask at 1, store_bind, readDb. rewrite Hstored, Hdone.
  rewrite bool_decide_true by reflexivity. reflexivity.
Qed.

Lemma tasks_reopenTask_other now userId taskId db task other :
  db_tasks db !! taskId = Some task -> task_id task = taskId -> other <> taskId ->
  db_tasks (reopenTask dayKey now (Some userId) taskId db).2 !! other = db_tasks db !! other.
Proof.
  intros Htask Hid Hother. unfold reopenTask.
  rewrite store_bind_run. cbn [readDb fst snd]. rewrite Htask.
  destruct (negb (bool_decide (task_status task = done))); [reflexivity|].
  rewrite !store_bind_run.
  rewrite (tasks_refreshProjections now _ : db_tasks _ = db_tasks _).
  unfold store_ret at 1. cbn [snd].
  unfold appendEvent. rewrite !store_bind_run. unfold store_ret at 1, addEvent, readDb.
  cbn [fst snd db_tasks].
  assert (Hups : forall (m : Store unit) dbA,
            respects (sameOn db_tasks) m -> db_tasks (m dbA).2 = db_tasks dbA).
  { intros m dbA Hm. exact (Hm dbA). }
  rewrite Hups.
  2:{ destruct (completedAt task) as [at_|]; [destruct (truthy (Some at_))|].
      - apply tasks_upsertDailyAggregate.
      - intros ?; reflexivity.
      - intros ?; reflexivity. }
  unfold writeTasks at 1. cbn [snd db_tasks].
  rewrite lookup_insert_ne by (cbn [task_id withCompletion]; congruence).
  rewrite Hups; [reflexivity|].
  destruct (completionReward task); [destruct (db_character db)|]; intros ?; reflexivity.
Qed.

Lemma cloneSubtasks_shape (original : list TaskSubtask) :
  List.map subtask_title (cloneSubtasks original) = List.map subtask_title original /\
  Forall (fun s => subtask_done s = false) (cloneSubtasks original).
Proof.
  unfold cloneSubtasks.
  assert (Hlen : List.length
                   (fresh_list (List.length original)
                      (list_to_set (List.map subtask_id original) : gset string))
                 = List.length original) by apply length_fresh_list.
  revert Hlen. generalize (fresh_list (List.length original)
                             (list_to_set (List.map subtask_id original) : gset string)).
  induction original as [|s original IH]; intros ids Hlen.
  - destruct ids; [|discriminate]. split; [reflexivity | constructor].
  - destruct ids as [|i ids]; [discriminate|]. cbn [List.combine List.map].
    destruct (IH ids ltac:(cbn in Hlen; lia)) as [Ht Hd].
    cbn [subtask_title fst snd]. split; [rewrite Ht; reflexivity|].
    constructor; [reflexivity | exact Hd].
Qed.

(** X23.  Completing a task stores it as done, and a recurring task
    spawns its next occurrence: exactly one task is added, under an id
    that was free, open ([todo]) with no completion data, with the title,
    category, priority and recurrence rule of the completed task, the
    deadline [nextRecurringDeadline] gives, and the same subtasks in
    order, each of them not done; no other task changes.  A task without
    a recurrence rule adds no task.  Reopening the completed task later
    leaves the spawned task in the store. *)
Theorem completeTask_spawns_next_occurrence
    (now later userId taskId : string) (db : Db) (task : Task) :
  db_tasks db !! taskId = Some task -> task_id task = taskId -> task_status task = todo ->
  let db1 :=
    (completeTask dayKey nextRecurringDeadline recurrenceLabel now (Some userId) taskId db).2 in
  exists completed,
    task_status completed = done /\ completedAt completed = Some now /\
    task_title completed = task_title task /\
    match recurrence task with
    | None => db_tasks db1 = <[taskId := completed]> (db_tasks db)
    | Some rule =>
        exists newId next,
          db_tasks db !! newId = None /\ newId <> taskId /\
          db_tasks db1 = <[newId := next]> (<[taskId := completed]> (db_tasks db)) /\
          task_id next = newId /\ task_status next = todo /\
          completedAt next = None /\ completionReward next = None /\
          task_title next = task_title task /\
          task_categoryId next = task_categoryId task /\
          task_priority next = task_priority task /\
          recurrence next = Some rule /\
          deadlineAt next = nextRecurringDeadline completed now /\
          createdAt next = now /\
          (exists cloned,
             subtasks next = Some cloned /\
             subtaskIds next = List.map subtask_id cloned /\
             List.map subtask_title cloned
               = List.map subtask_title
                   (match subtasks task with Some l => l | None => [] end) /\
             Forall (fun s => subtask_done s = false) cloned) /\
          db_tasks (reopenTask dayKey later (Some userId) taskId db1).2 !! newId = Some next
    end.
Proof.
  intros Htask Hid Hstatus db1.
  destruct (completeTask_tasks now userId taskId db task Htask Hid Hstatus)
    as (reward & Hdb1).
  fold db1 in Hdb1. cbv zeta in Hdb1.
  set (completed :=
         withCompletion (withCompletion task done (Some now) now (completionReward task))
           done (Some now) now reward) in *.
  exists completed. split; [reflexivity|]. split; [reflexivity|]. split; [reflexivity|].
  unfold spawnNextOccurrence in Hdb1.
  change (recurrence completed) with (recurrence task) in Hdb1.
  destruct (recurrence task) as [rule|] eqn:Hrule.
  - unfold store_bind, readDb, writeTasks in Hdb1. cbn [snd db_tasks] in Hdb1.
    set (newId := makeId (<[taskId := completed]> (db_tasks db))) in *.
    assert (Hfresh : newId ∉ dom (<[taskId := completed]> (db_tasks db)))
      by apply is_fresh.
    assert (Hne : newId <> taskId).
    { intros ->. apply Hfresh. apply elem_of_dom. rewrite lookup_insert_eq. eauto. }
    assert (Hfree : db_tasks db !! newId = None).
    { apply not_elem_of_dom. intros Hin. apply Hfresh.
      apply elem_of_dom. rewrite lookup_insert_ne by congruence.
      apply elem_of_dom. exact Hin. }
    exists newId, (nextOccurrence nextRecurringDeadline recurrenceLabel completed now newId).
    split; [exact Hfree|]. split; [exact Hne|]. split; [exact Hdb1|].
    split; [reflexivity|]. split; [reflexivity|]. split; [reflexivity|].
    split; [reflexivity|]. split; [reflexivity|]. split; [reflexivity|].
    split; [reflexivity|]. split; [exact Hrule|]. split; [reflexivity|].
    split; [reflexivity|]. split.
    + eexists. split; [reflexivity|]. split; [reflexivity|].
      apply (cloneSubtasks_shape (match subtasks task with Some l => l | None => [] end)).
    + destruct (completeTask_marks_done now userId taskId db task Htask Hid)
        as (stored & Hstored & _).
      fold db1 in Hstored.
      rewrite (tasks_reopenTask_other later userId taskId db1 stored newId Hstored).
      * rewrite Hdb1. apply lookup_insert_eq.
      * rewrite Hdb1 in Hstored. rewrite lookup_insert_ne in Hstored by congruence.
        rewrite lookup_insert_eq in Hstored. inversion Hstored. exact Hid.
      * exact Hne.
  - unfold store_ret, writeTasks in Hdb1. cbn [snd db_tasks] in Hdb1. exact Hdb1.
Qed.

End Effects.

Lemma completeTask_pays_once_witness :
  let first :=
    completeTask utcDayKey (fun _ _ => None) (fun _ => None) "2026-02-10T08:00:00.000Z"
      (Some "u1"%string) "t1" sampleDb in
  completeTask utcDayKey (fun _ _ => None) (fun _ => None) "2026-02-10T08:00:02.000Z"
    (Some "u1"%string) "t1" first.2
  = (None, first.2).
Proof.
  apply (completeTask_pays_once utcDayKey (fun _ _ => None) (fun _ => None)
           "2026-02-10T08:00:00.000Z" "2026-02-10T08:00:02.000Z" "u1" "t1"
           sampleDb sampleTask).
  - vm_compute. reflexivity.
  - reflexivity.
Defined.

Lemma completeTask_spawns_next_occurrence_witness :
  let now := "2026-02-10T08:00:00.000Z"%string in
  let later := "2026-02-10T09:00:00.000Z"%string in
  let db1 :=
    (completeTask utcDayKey (fun _ _ => None) (fun _ => None) now (Some "u1"%string)
       "t1" sampleDb).2 in
  exists completed,
    task_status completed = done /\ completedAt completed = Some now /\
    task_title completed = task_title sampleTask /\
    match recurrence sampleTask with
    | None => db_tasks db1 = <["t1"%string := completed]> (db_tasks sampleDb)
    | Some rule =>
        exists newId next,
          db_tasks sampleDb !! newId = None /\ newId <> "t1"%string /\
          db_tasks db1 = <[newId := next]> (<["t1"%string := completed]> (db_tasks sampleDb)) /\
          task_id next = newId /\ task_status next = todo /\
          completedAt next = None /\ completionReward next = None /\
          task_title next = task_title sampleTask /\
          task_categoryId next = task_categoryId sampleTask /\
          task_priority next = task_priority sampleTask /\
          recurrence next = Some rule /\
          deadlineAt next = (fun _ _ => None) completed now /\
          createdAt next = now /\
          (exists cloned,
             subtasks next = Some cloned /\
             subtaskIds next = List.map subtask_id cloned /\
             List.map subtask_title cloned
               = List.map subtask_title
                   (match subtasks sampleTask with Some l => l | None => [] end) /\
             Forall (fun s => subtask_done s = false) cloned) /\
          db_tasks (reopenTask utcDayKey later (Some "u1"%string) "t1" db1).2 !! newId
            = Some next
    end.
Proof.
  apply (completeTask_spawns_next_occurrence utcDayKey (fun _ _ => None) (fun _ => None)
           "2026-02-10T08:00:00.000Z" "2026-02-10T09:00:00.000Z" "u1" "t1"
           sampleDb sampleTask).
  - vm_compute. reflexivity.
  - reflexivity.
  - reflexivity.
Defined.

(** ** Daily aggregates and focus sessions *)

Lemma sumMinutes_record_add key value map :
  sumMinutes (record_add key value map) = sumMinutes map + value.
Proof.
  induction map as [|[k v] map IH]; cbn [record_add sumMinutes fold_right snd]; [lia|].
  destruct (String.eqb k key); cbn [sumMinutes fold_right snd].
  - fold (sumMinutes map). lia.
  - fold (sumMinutes (record_add key value map)). fold (sumMinutes map). rewrite IH. lia.
Qed.

Lemma record_get_record_add key value map bucket :
  record_get bucket (record_add key value map)
  = if String.eqb key bucket then Some (orZero (record_get bucket map) + value)
    else record_get bucket map.
Proof.
  induction map as [|[k v] map IH]; cbn [record_add record_get orZero].
  - destruct (String.eqb key bucket); reflexivity.
  - destruct (String.eqb_spec k key) as [->|Hk]; cbn [record_get orZero].
    + destruct (String.eqb key bucket); reflexivity.
    + rewrite IH. destruct (String.eqb_spec key bucket) as [Hkey|Hb].
      * subst bucket. apply String.eqb_neq in Hk. rewrite Hk. reflexivity.
      * destruct (String.eqb k bucket); reflexivity.
Qed.

Section Aggregates.

Variable dayKey : string -> string.

(** What [upsertDailyAggregate] does to the row of the day and to the rest
    of the store. *)
Lemma upsertDailyAggregate_day
    (occurredAt : string) (delta : AggregateDelta) (category : option string)
    (minutes : Z) (db : Db) :
  keyedBy date (db_analyticsDaily db) ->
  let day := dayKey occurredAt in
  let db1 := (upsertDailyAggregate dayKey occurredAt delta category minutes db).2 in
  focusMinutesOn db1 day = focusMinutesOn db day + orZero (delta_focusMinutes delta) /\
  completionsOn db1 day = completionsOn db day + orZero (delta_completions delta) /\
  xpGainedOn db1 day = xpGainedOn db day + orZero (delta_xpGained delta) /\
  categoryMinutesOn db1 day
    = categoryMinutesOn db day + (if truthy category && (0 <? minutes) then minutes else 0) /\
  (forall other, other <> day ->
     db_analyticsDaily db1 !! other = db_analyticsDaily db !! other) /\
  db_character db1 = db_character db /\ db_streaks db1 = db_streaks db /\
  db_tasks db1 = db_tasks db /\ db_focusSessions db1 = db_focusSessions db /\
  db_quests db1 = db_quests db /\ db_eventLog db1 = db_eventLog db.
Proof.
  intros Hkeyed day db1. subst db1.
  unfold upsertDailyAggregate, store_bind, readDb, putAnalyticsDaily.
  cbn [snd db_analyticsDaily db_character db_streaks db_tasks db_focusSessions db_quests
       db_eventLog date].
  fold day.
  assert (Hdate : date match db_analyticsDaily db !! day with
                       | Some existing => existing
                       | None => {| date := day; focusMinutes := 0; completions := 0;
                                    xpGained := 0; categoryFocusMinutes := [] |}
                       end = day).
  { destruct (db_analyticsDaily db !! day) as [existing|] eqn:Hex; [|reflexivity].
    exact (Hkeyed _ _ Hex). }
  rewrite Hdate.
  unfold focusMinutesOn, completionsOn, xpGainedOn, categoryMinutesOn.
  cbn [db_analyticsDaily]. rewrite !lookup_insert_eq.
  cbn [focusMinutes completions xpGained categoryFocusMinutes].
  split; [destruct (db_analyticsDaily db !! day); reflexivity|].
  split; [destruct (db_analyticsDaily db !! day); reflexivity|].
  split; [destruct (db_analyticsDaily db !! day); reflexivity|].
  split.
  - destruct category as [[|c0 c]|]; cbn [truthy andb];
      try (destruct (db_analyticsDaily db !! day); cbn; lia).
    destruct (0 <? minutes).
    + rewrite sumMinutes_record_add. destruct (db_analyticsDaily db !! day); reflexivity.
    + destruct (db_analyticsDaily db !! day); cbn; lia.
  - split; [|repeat split].
    intros other Hother. apply lookup_insert_ne. congruence.
Qed.

(** The buckets of the day after [upsertDailyAggregate]: the bucket of the
    category given grows by the minutes, every other bucket is as it was. *)
Lemma upsertDailyAggregate_bucket
    (occurredAt : string) (delta : AggregateDelta) (category : option string)
    (minutes : Z) (db : Db) (bucket : string) :
  keyedBy date (db_analyticsDaily db) ->
  let day := dayKey occurredAt in
  let db1 := (upsertDailyAggregate dayKey occurredAt delta category minutes db).2 in
  categoryBucketOn db1 day bucket
  = if truthy category && (0 <? minutes) && bool_decide (category = Some bucket)
    then Some (orZero (categoryBucketOn db day bucket) + minutes)
    else categoryBucketOn db day bucket.
Proof.
  intros Hkeyed day db1. subst db1.
  unfold upsertDailyAggregate, store_bind, readDb, putAnalyticsDaily.
  cbn [snd db_analyticsDaily date]. fold day.
  assert (Hdate : date match db_analyticsDaily db !! day with
                       | Some existing => existing
                       | None => {| date := day; focusMinutes := 0; completions := 0;
                                    xpGained := 0; categoryFocusMinutes := [] |}
                       end = day).
  { destruct (db_analyticsDaily db !! day) as [existing|] eqn:Hex; [|reflexivity].
    exact (Hkeyed _ _ Hex). }
  rewrite Hdate. unfold categoryBucketOn. cbn [db_analyticsDaily].
  rewrite lookup_insert_eq. cbn [categoryFocusMinutes].
  assert (Hold : record_get bucket
                   (categoryFocusMinutes
                      match db_analyticsDaily db !! day with
                      | Some existing => existing
                      | None => {| date := day; focusMinutes := 0; completions := 0;
                                   xpGained := 0; categoryFocusMinutes := [] |}
                      end)
                 = match db_analyticsDaily db !! day with
                   | Some a => record_get bucket (categoryFocusMinutes a)
                   | None => None
                   end).
  { destruct (db_analyticsDaily db !! day); reflexivity. }
  destruct category as [c|]; [|cbn [truthy andb]; exact Hold].
  destruct (truthy (Some c) && (0 <? minutes)); cbn [andb]; [|exact Hold].
  rewrite record_get_record_add.
  destruct (String.eqb_spec c bucket) as [->|Hne].
  - rewrite bool_decide_eq_true_2 by reflexivity. rewrite Hold. reflexivity.
  - rewrite bool_decide_eq_false_2 by congruence. exact Hold.
Qed.


(** X25.  A finished work session pays focus XP once: with a character
    in the store, [recordFocusSessionEnd] grants
    [calculateFocusXp(durationMin, focusDays)] (at least 1) through
    [applyXp], updates the focus streak for today, appends one
    [FocusSessionEnded] event carrying the session id, the minutes and
    the XP, and adds the minutes and the XP (and no completion) to the
    day of the session.  A session that is not a work session changes
    nothing. *)
Theorem recordFocusSessionEnd_effect
    (now userId : string) (session : FocusSession) (db : Db) (c : CharacterState) :
  db_character db = Some c ->
  session_type session = work ->
  keyedBy date (db_analyticsDaily db) ->
  let streak := match db_streaks db with Some s => s | None => emptyStreak end in
  let xp := calculateFocusXp (durationMin session) (focusDays streak) in
  let day := dayKey (sessionInstant session) in
  let db1 := (recordFocusSessionEnd dayKey now userId session db).2 in
  1 <= xp /\
  db_character db1 = Some (applyXp c xp) /\
  db_streaks db1 = Some (updateFocusStreak streak (dayKey now)) /\
  (exists event,
     db_eventLog db1 = db_eventLog db ++ [event] /\
     eventType event = FocusSessionEnded /\ occurredAt event = now /\
     payload event !! "sessionId"%string = Some (JsString (session_id session)) /\
     payload event !! "minutes"%string = Some (JsNumber (durationMin session)) /\
     payload event !! "xp"%string = Some (JsNumber xp)) /\
  focusMinutesOn db1 day = focusMinutesOn db day + durationMin session /\
  xpGainedOn db1 day = xpGainedOn db day + xp /\
  completionsOn db1 day = completionsOn db day /\
  db_tasks db1 = db_tasks db /\ db_quests db1 = db_quests db /\
  (forall other : FocusSession, session_type other <> work ->
     recordFocusSessionEnd dayKey now userId other db = (tt, db)).
Proof.
  intros Hchar Hwork Hkeyed streak xp day db1.
  split; [subst xp; unfold calculateFocusXp; lia|].
  assert (Hrun : exists fields,
            fields !! "sessionId"%string = Some (JsString (session_id session)) /\
            fields !! "minutes"%string = Some (JsNumber (durationMin session)) /\
            fields !! "xp"%string = Some (JsNumber xp) /\
            recordFocusSessionEnd dayKey now userId session db
            = applyFocusAnalytics dayKey session xp
                (appendEvent now userId FocusSessionEnded fields
                   (putStreaks (updateFocusStreak streak (dayKey now))
                      (putCharacter (applyXp c xp) db).2).2).2).
  { eexists. split; [|split; [|split]].
    4:{ unfold recordFocusSessionEnd. rewrite Hwork.
        rewrite bool_decide_true by reflexivity.
        rewrite store_bind_run. cbn [readDb fst snd]. rewrite Hchar.
        rewrite !store_bind_run. reflexivity. }
    all: destruct (session_taskId session), (session_categoryId session);
      apply lookup_union_Some_raw; left; apply lookup_union_Some_raw; left; reflexivity. }
  destruct Hrun as (fields & Hid & Hmin & Hxp & Hrun).
  subst db1. rewrite Hrun. unfold applyFocusAnalytics. fold (sessionInstant session).
  set (dbA := (appendEvent now userId FocusSessionEnded fields
                 (putStreaks (updateFocusStreak streak (dayKey now))
                    (putCharacter (applyXp c xp) db).2).2).2).
  assert (HkeyedA : keyedBy date (db_analyticsDaily dbA)) by exact Hkeyed.
  pose proof (upsertDailyAggregate_day (sessionInstant session)
                {| delta_focusMinutes := Some (durationMin session);
                   delta_completions := None; delta_xpGained := Some xp |}
                (session_categoryId session) (durationMin session) dbA HkeyedA) as Hrow.
  cbv zeta in Hrow. fold day in Hrow.
  destruct Hrow as (Hf & Hc & Hx & _ & _ & Hchar' & Hstreak' & Htasks' & _ & Hquests' & Hlog').
  cbn [delta_focusMinutes delta_xpGained delta_completions orZero] in Hf, Hx, Hc.
  split; [rewrite Hchar'; reflexivity|]. split; [rewrite Hstreak'; reflexivity|]. split.
  { eexists. split; [rewrite Hlog'; reflexivity|]. cbn [eventType occurredAt payload].
    split; [reflexivity|]. split; [reflexivity|].
    split; [exact Hid|]. split; [exact Hmin | exact Hxp]. }
  split; [exact Hf|]. split; [exact Hx|]. split; [rewrite Hc; unfold completionsOn; cbn; lia|].
  split; [rewrite Htasks'; reflexivity|]. split; [rewrite Hquests'; reflexivity|].
  intros other Hother. unfold recordFocusSessionEnd.
  rewrite bool_decide_false by exact Hother. reflexivity.
Qed.

End Aggregates.

(** ** Quests and achievements after a sync pass *)

Lemma withProgress_same quest :
  withProgress quest (progress quest) (quest_status quest) = quest.
Proof. destruct quest. reflexivity. Qed.

Lemma questSynced_resynced totals quest :
  questSynced totals quest = questResynced totals quest.
Proof.
  unfold questSynced, questResynced, questUpdate. cbv zeta.
  set (p := Z.min (target quest) (questRawProgress totals quest)).
  set (s := if target quest <=? p then complete else active).
  destruct (negb (p =? progress quest) || negb (bool_decide (s = quest_status quest))) eqn:E;
    [reflexivity|].
  apply orb_false_iff in E as [Ep Es].
  apply negb_false_iff in Ep, Es. apply Z.eqb_eq in Ep. apply bool_decide_eq_true in Es.
  rewrite Ep, Es. apply eq_sym, withProgress_same.
Qed.

Lemma refreshProjections_frames now db :
  let db' := (refreshProjections now db).2 in
  db_character db' = db_character db /\ db_streaks db' = db_streaks db /\
  db_tasks db' = db_tasks db /\ db_categories db' = db_categories db /\
  db_focusSessions db' = db_focusSessions db /\ db_achievements db' = db_achievements db /\
  db_analyticsDaily db' = db_analyticsDaily db /\ db_eventLog db' = db_eventLog db /\
  db_quests db' = db_quests (syncQuestProgress db).2.
Proof.
  cbv zeta. unfold refreshProjections, syncAchievementProgress.
  rewrite !store_bind_run. unfold store_ret, readDb. cbn [fst snd].
  destruct (achievementRows now (syncQuestProgress db).2);
    unfold store_ret, writeAchievementProgress; cbn [fst snd db_character db_streaks db_tasks
      db_categories db_focusSessions db_achievements db_analyticsDaily db_eventLog db_quests];
    unfold syncQuestProgress; rewrite !store_bind_run; unfold readDb; cbn [fst snd];
    destruct (questUpdates db);
    unfold store_ret, writeQuests; rewrite ?store_bind_run; cbn;
    repeat split.
Qed.

(** X28.  After a sync pass every quest row is the same quest with its
    progress and status recomputed from the stored tasks and sessions:
    progress is the raw count capped at the target, and the quest is
    complete exactly when the raw count reaches the target, whatever
    progress and status the row held before (a quest marked complete by
    hand is active again after the next pass if its objective is not
    met).  No quest is added or removed. *)
Theorem syncQuestProgress_recomputes (db : Db) (k : string) :
  keyedBy quest_id (db_quests db) ->
  let totals := syncTotalsOf db in
  let db1 := (syncQuestProgress db).2 in
  db_quests db1 !! k = questResynced totals <$> db_quests db !! k /\
  (forall quest, db_quests db !! k = Some quest ->
     exists synced,
       db_quests db1 !! k = Some synced /\
       quest_id synced = quest_id quest /\ target synced = target quest /\
       quest_title synced = quest_title quest /\ reward synced = reward quest /\
       progress synced = Z.min (target quest) (questRawProgress totals quest) /\
       progress synced <= target synced /\
       (quest_status synced = complete <-> target quest <= questRawProgress totals quest)).
Proof.
  intros Hkeyed totals db1.
  assert (Hlookup : db_quests db1 !! k = questResynced totals <$> db_quests db !! k).
  { subst db1. rewrite (syncQuestProgress_quests db Hkeyed). rewrite lookup_fmap.
    destruct (db_quests db !! k) as [q|]; [|reflexivity]. cbn.
    rewrite questSynced_resynced. reflexivity. }
  split; [exact Hlookup|]. intros quest Hq. rewrite Hq in Hlookup. cbn in Hlookup.
  exists (questResynced totals quest). split; [exact Hlookup|].
  unfold questResynced, withProgress. cbv zeta.
  cbn [quest_id target quest_title reward progress quest_status].
  split; [reflexivity|]. split; [reflexivity|]. split; [reflexivity|].
  split; [reflexivity|]. split; [reflexivity|]. split; [lia|].
  destruct (target quest <=? Z.min (target quest) (questRawProgress totals quest)) eqn:E.
  - apply Z.leb_le in E. split; [intros _; lia | reflexivity].
  - apply Z.leb_gt in E. split; [discriminate | intros H; lia].
Qed.

Lemma syncQuestProgress_recomputes_witness :
  let totals := syncTotalsOf sampleDb in
  let db1 := (syncQuestProgress sampleDb).2 in
  db_quests db1 !! "q1"%string = questResynced totals <$> db_quests sampleDb !! "q1"%string /\
  (forall quest, db_quests sampleDb !! "q1"%string = Some quest ->
     exists synced,
       db_quests db1 !! "q1"%string = Some synced /\
       quest_id synced = quest_id quest /\ target synced = target quest /\
       quest_title synced = quest_title quest /\ reward synced = reward quest /\
       progress synced = Z.min (target quest) (questRawProgress totals quest) /\
       progress synced <= target synced /\
       (quest_status synced = complete <-> target quest <= questRawProgress totals quest)).
Proof.
  apply (syncQuestProgress_recomputes sampleDb "q1").
  apply (keyedBy_insert quest_id testQuest ∅), keyedBy_empty.
Defined.

(** X29.  An unlocked achievement stays unlocked: after a sync pass the
    progress row of every achievement holds the current value of its
    requirement; an unlock time that was stored is kept as it is, even
    when the value has dropped below the requirement again, and an
    achievement without one is unlocked now exactly when the value
    reaches the requirement. *)
Theorem achievement_unlock_is_sticky
    (now : string) (db : Db) (k : string) (achievement : Achievement) :
  keyedBy achievement_id (db_achievements db) ->
  keyedBy progress_id (db_achievementProgress db) ->
  db_achievements db !! k = Some achievement ->
  let value := achievementValue db achievement in
  exists row,
    db_achievementProgress (syncAchievementProgress now db).2 !! k = Some row /\
    progress_id row = k /\
    progress_value row = value /\
    (forall old at_,
       db_achievementProgress db !! k = Some old -> unlockedAt old = Some at_ ->
       unlockedAt row = Some at_) /\
    ((forall old, db_achievementProgress db !! k = Some old -> unlockedAt old = None) ->
     unlockedAt row = if requirementValue achievement <=? value then Some now else None).
Proof.
  intros Hka Hkp Ha value.
  pose proof (syncAchievementProgress_rows now db k achievement Hka Hkp Ha) as Hrow.
  assert (Hid : achievement_id achievement = k) by exact (Hka _ _ Ha).
  eexists. split; [exact Hrow|]. unfold achievementSynced.
  cbn [progress_id progress_value unlockedAt]. rewrite Hid.
  split; [reflexivity|]. split; [reflexivity|]. split.
  - intros old at_ Hold Hat. rewrite Hold, Hat. reflexivity.
  - intros Hnone. destruct (db_achievementProgress db !! k) as [old|] eqn:Hold; [|reflexivity].
    rewrite (Hnone old eq_refl). reflexivity.
Qed.

Lemma achievement_unlock_is_sticky_witness :
  let now := "2026-02-10T08:00:00.000Z"%string in
  let value := achievementValue sampleDb sampleAchievement in
  exists row,
    db_achievementProgress (syncAchievementProgress now sampleDb).2 !! "a1"%string = Some row /\
    progress_id row = "a1"%string /\
    progress_value row = value /\
    (forall old at_,
       db_achievementProgress sampleDb !! "a1"%string = Some old -> unlockedAt old = Some at_ ->
       unlockedAt row = Some at_) /\
    ((forall old, db_achievementProgress sampleDb !! "a1"%string = Some old ->
                  unlockedAt old = None) ->
     unlockedAt row = if requirementValue sampleAchievement <=? value then Some now else None).
Proof.
  apply (achievement_unlock_is_sticky "2026-02-10T08:00:00.000Z" sampleDb "a1"
           sampleAchievement).
  - apply (keyedBy_insert achievement_id sampleAchievement ∅), keyedBy_empty.
  - apply keyedBy_empty.
  - vm_compute. reflexivity.
Defined.

(** ** Deleting a task, adding a focus session *)

Section MoreEffects.

Variable dayKey : string -> string.

(** X27.  Deleting a task removes its row and nothing else of the
    player's record: the character (XP, level, stats), the streaks and
    the daily aggregates stay as they were, so the reward of a completed
    task is not taken back; one [TaskDeleted] event is appended; and the
    quests are synced against the remaining tasks. *)
Theorem deleteTask_effect (now userId taskId : string) (db : Db) (task : Task) :
  db_tasks db !! taskId = Some task ->
  keyedBy quest_id (db_quests db) ->
  let db1 := (deleteTask now (Some userId) taskId db).2 in
  db_tasks db1 = delete taskId (db_tasks db) /\
  db_tasks db1 !! taskId = None /\
  db_character db1 = db_character db /\ db_streaks db1 = db_streaks db /\
  db_analyticsDaily db1 = db_analyticsDaily db /\
  db_focusSessions db1 = db_focusSessions db /\
  (exists event,
     db_eventLog db1 = db_eventLog db ++ [event] /\
     eventType event = TaskDeleted /\ occurredAt event = now /\
     payload event !! "taskId"%string = Some (JsString taskId)) /\
  (forall k, db_quests db1 !! k = questResynced (syncTotalsOf db1) <$> db_quests db !! k).
Proof.
  intros Htask Hkeyed db1.
  assert (Hrun : deleteTask now (Some userId) taskId db
                 = refreshProjections now
                     (appendEvent now userId TaskDeleted
                        {[ "taskId"%string := JsString taskId ]}
                        (writeTasks (delete taskId) db).2).2).
  { unfold deleteTask. rewrite store_bind_run. cbn [readDb fst snd]. rewrite Htask.
    rewrite !store_bind_run. reflexivity. }
  subst db1. rewrite Hrun.
  set (dbB := (appendEvent now userId TaskDeleted {[ "taskId"%string := JsString taskId ]}
                 (writeTasks (delete taskId) db).2).2).
  destruct (refreshProjections_frames now dbB)
    as (Hc & Hs & Ht & _ & Hf & _ & Ha & Hl & Hq).
  split; [rewrite Ht; reflexivity|].
  split; [rewrite Ht; apply lookup_delete_eq|].
  split; [rewrite Hc; reflexivity|]. split; [rewrite Hs; reflexivity|].
  split; [rewrite Ha; reflexivity|]. split; [rewrite Hf; reflexivity|].
  split.
  { eexists. split; [rewrite Hl; reflexivity|]. cbn [eventType occurredAt payload].
    split; [reflexivity|]. split; [reflexivity|]. apply lookup_singleton_eq. }
  intros k. rewrite Hq.
  assert (HkeyedB : keyedBy quest_id (db_quests dbB)) by exact Hkeyed.
  rewrite (syncQuestProgress_quests dbB HkeyedB). rewrite lookup_fmap.
  rewrite (syncTotalsOf_ext dbB (refreshProjections now dbB).2 Ht Hf).
  change (db_quests dbB) with (db_quests db).
  destruct (db_quests db !! k) as [q|]; [|reflexivity]. cbn.
  rewrite questSynced_resynced. reflexivity.
Qed.

(** X26.  A focus session added without rewards is stored and counted,
    but pays nothing: the character, the streaks, the event log and the
    quests stay as they were; a work session adds its minutes to the day
    of the session, and to the bucket of its own category and no other
    bucket when it has a category and positive minutes; a break adds
    nothing. *)
Theorem addFocusSession_without_rewards
    (now userId : string) (session : FocusSession) (db : Db) :
  db_focusSessions db !! session_id session = None ->
  keyedBy date (db_analyticsDaily db) ->
  let day := dayKey (sessionInstant session) in
  let run := addFocusSession dayKey now (Some userId) session (Some false) db in
  run.1 = Some tt /\
  db_focusSessions run.2 = <[session_id session := session]> (db_focusSessions db) /\
  db_character run.2 = db_character db /\ db_streaks run.2 = db_streaks db /\
  db_eventLog run.2 = db_eventLog db /\ db_quests run.2 = db_quests db /\
  db_tasks run.2 = db_tasks db /\
  xpGainedOn run.2 day = xpGainedOn db day /\
  completionsOn run.2 day = completionsOn db day /\
  (session_type session = work ->
   focusMinutesOn run.2 day = focusMinutesOn db day + durationMin session /\
   categoryMinutesOn run.2 day
     = categoryMinutesOn db day
       + (if truthy (session_categoryId session) && (0 <? durationMin session)
          then durationMin session else 0) /\
   forall bucket,
     categoryBucketOn run.2 day bucket
     = if truthy (session_categoryId session) && (0 <? durationMin session)
          && bool_decide (session_categoryId session = Some bucket)
       then Some (orZero (categoryBucketOn db day bucket) + durationMin session)
       else categoryBucketOn db day bucket) /\
  (session_type session <> work -> db_analyticsDaily run.2 = db_analyticsDaily db).
Proof.
  intros Hfree Hkeyed day run. subst run. unfold addFocusSession.
  rewrite store_bind_run. cbn [readDb fst snd]. rewrite Hfree.
  rewrite !store_bind_run. unfold store_ret at 1. cbn [fst snd].
  set (dbA := (writeFocusSessions (insert (session_id session) session) db).2).
  split; [reflexivity|].
  destruct (bool_decide (session_type session = work)) eqn:Ework.
  - apply bool_decide_eq_true in Ework. fold (sessionInstant session).
    assert (HkeyedA : keyedBy date (db_analyticsDaily dbA)) by exact Hkeyed.
    pose proof (upsertDailyAggregate_day dayKey (sessionInstant session)
                  {| delta_focusMinutes := Some (durationMin session);
                     delta_completions := None; delta_xpGained := None |}
                  (session_categoryId session) (durationMin session) dbA HkeyedA) as Hrow.
    cbv zeta in Hrow. fold day in Hrow.
    destruct Hrow as (Hf & Hc & Hx & Hcat & _ & Hchar & Hstreak & Htasks & Hsess & Hq & Hlog).
    cbn [delta_focusMinutes delta_xpGained delta_completions orZero] in Hf, Hx, Hc.
    unfold store_ret. cbn [snd].
    split; [rewrite Hsess; reflexivity|]. split; [rewrite Hchar; reflexivity|].
    split; [rewrite Hstreak; reflexivity|]. split; [rewrite Hlog; reflexivity|].
    split; [rewrite Hq; reflexivity|]. split; [rewrite Htasks; reflexivity|].
    split; [rewrite Hx; unfold xpGainedOn; cbn; lia|].
    split; [rewrite Hc; unfold completionsOn; cbn; lia|].
    split; [|intros Hne; contradiction].
    intros _. split; [exact Hf|]. split; [exact Hcat|]. intros bucket.
    exact (upsertDailyAggregate_bucket dayKey (sessionInstant session)
             {| delta_focusMinutes := Some (durationMin session);
                delta_completions := None; delta_xpGained := None |}
             (session_categoryId session) (durationMin session) dbA bucket HkeyedA).
  - apply bool_decide_eq_false in Ework. unfold store_ret. cbn [snd].
    do 8 (split; [reflexivity|]).
    split; [intros Hwork; contradiction | intros _; reflexivity].
Qed.

End MoreEffects.

Lemma deleteTask_effect_witness :
  let now := "2026-02-10T08:00:00.000Z"%string in
  let db1 := (deleteTask now (Some "u1"%string) "t0" sampleDb).2 in
  db_tasks db1 = delete "t0"%string (db_tasks sampleDb) /\
  db_tasks db1 !! "t0"%string = None /\
  db_character db1 = db_character sampleDb /\ db_streaks db1 = db_streaks sampleDb /\
  db_analyticsDaily db1 = db_analyticsDaily sampleDb /\
  db_focusSessions db1 = db_focusSessions sampleDb /\
  (exists event,
     db_eventLog db1 = db_eventLog sampleDb ++ [event] /\
     eventType event = TaskDeleted /\ occurredAt event = now /\
     payload event !! "taskId"%string = Some (JsString "t0")) /\
  (forall k, db_quests db1 !! k
             = questResynced (syncTotalsOf db1) <$> db_quests sampleDb !! k).
Proof.
  apply (deleteTask_effect "2026-02-10T08:00:00.000Z" "u1" "t0" sampleDb staleTask).
  - vm_compute. reflexivity.
  - apply (keyedBy_insert quest_id testQuest ∅), keyedBy_empty.
Defined.

Lemma addFocusSession_without_rewards_witness :
  let day := utcDayKey (sessionInstant sampleSession) in
  let run :=
    addFocusSession utcDayKey "2026-02-10T08:25:01.000Z" (Some "u1"%string) sampleSession
      (Some false) sampleDb in
  run.1 = Some tt /\
  db_focusSessions run.2
    = <[session_id sampleSession := sampleSession]> (db_focusSessions sampleDb) /\
  db_character run.2 = db_character sampleDb /\ db_streaks run.2 = db_streaks sampleDb /\
  db_eventLog run.2 = db_eventLog sampleDb /\ db_quests run.2 = db_quests sampleDb /\
  db_tasks run.2 = db_tasks sampleDb /\
  xpGainedOn run.2 day = xpGainedOn sampleDb day /\
  completionsOn run.2 day = completionsOn sampleDb day /\
  (session_type sampleSession = work ->
   focusMinutesOn run.2 day = focusMinutesOn sampleDb day + durationMin sampleSession /\
   categoryMinutesOn run.2 day
     = categoryMinutesOn sampleDb day
       + (if truthy (session_categoryId sampleSession) && (0 <? durationMin sampleSession)
          then durationMin sampleSession else 0) /\
   forall bucket,
     categoryBucketOn run.2 day bucket
     = if truthy (session_categoryId sampleSession) && (0 <? durationMin sampleSession)
          && bool_decide (session_categoryId sampleSession = Some bucket)
       then Some (orZero (categoryBucketOn sampleDb day bucket) + durationMin sampleSession)
       else categoryBucketOn sampleDb day bucket) /\
  (session_type sampleSession <> work ->
   db_analyticsDaily run.2 = db_analyticsDaily sampleDb).
Proof.
  apply (addFocusSession_without_rewards utcDayKey "2026-02-10T08:25:01.000Z" "u1"
           sampleSession sampleDb).
  - reflexivity.
  - apply keyedBy_empty.
Defined.

Lemma recordFocusSessionEnd_effect_witness :
  let now := "2026-02-10T08:25:01.000Z"%string in
  let streak := match db_streaks sampleDb with Some s => s | None => emptyStreak end in
  let xp := calculateFocusXp (durationMin sampleSession) (focusDays streak) in
  let day := utcDayKey (sessionInstant sampleSession) in
  let db1 := (recordFocusSessionEnd utcDayKey now "u1" sampleSession sampleDb).2 in
  1 <= xp /\
  db_character db1 = Some (applyXp baseCharacter xp) /\
  db_streaks db1 = Some (updateFocusStreak streak (utcDayKey now)) /\
  (exists event,
     db_eventLog db1 = db_eventLog sampleDb ++ [event] /\
     eventType event = FocusSessionEnded /\ occurredAt event = now /\
     payload event !! "sessionId"%string = Some (JsString (session_id sampleSession)) /\
     payload event !! "minutes"%string = Some (JsNumber (durationMin sampleSession)) /\
     payload event !! "xp"%string = Some (JsNumber xp)) /\
  focusMinutesOn db1 day = focusMinutesOn sampleDb day + durationMin sampleSession /\
  xpGainedOn db1 day = xpGainedOn sampleDb day + xp /\
  completionsOn db1 day = completionsOn sampleDb day /\
  db_tasks db1 = db_tasks sampleDb /\ db_quests db1 = db_quests sampleDb /\
  (forall other : FocusSession, session_type other <> work ->
     recordFocusSessionEnd utcDayKey now "u1" other sampleDb = (tt, sampleDb)).
Proof.
  apply (recordFocusSessionEnd_effect utcDayKey "2026-02-10T08:25:01.000Z" "u1"
           sampleSession sampleDb baseCharacter).
  - reflexivity.
  - reflexivity.
  - apply keyedBy_empty.
Defined.


(** *** Quest targets stay positive, the character stays well formed *)

Section WellFormed.

Variable dayKey : string -> string.
Variable nextRecurringDeadline : Task -> string -> option string.
Variable recurrenceLabel : Task -> option string.

Lemma bulkPut_lookup_cases {V : Type} (key : V -> string) (rows : list V)
    (table : gmap string V) (k : string) (v : V) :
  bulkPut key rows table !! k = Some v -> v ∈ rows \/ table !! k = Some v.
Proof.
  revert table. induction rows as [|r rows IH]; intros table H; cbn [bulkPut fold_left] in H.
  - right. exact H.
  - fold (bulkPut key rows (<[key r := r]> table)) in H.
    destruct (IH _ H) as [Hin|Hl].
    + left. right. exact Hin.
    + destruct (decide (k = key r)) as [->|Hne].
      * rewrite lookup_insert_eq in Hl. inversion Hl; subst. left. left.
      * rewrite lookup_insert_ne in Hl by congruence. right. exact Hl.
Qed.

Ltac targets_walk :=
  store_walk (keepsProperty_refl questTargetsOk) (keepsProperty_trans questTargetsOk).

(** A step that does not write the quests. *)
Ltac targets_frame := let H := fresh in intros ? H; exact H.

Lemma targets_syncQuestProgress : respects (keepsProperty questTargetsOk) syncQuestProgress.
Proof.
  intros db Hok k quest Hk. rewrite syncQuestProgress_writes in Hk.
  apply bulkPut_lookup_cases in Hk as [Hin|Hold]; [|exact (Hok _ _ Hold)].
  unfold questUpdates in Hin. apply list_elem_of_omap in Hin as (q0 & Hq0 & Hupd).
  apply elem_of_toArray in Hq0 as (k0 & Hk0).
  assert (Htarget : target quest = target q0).
  { unfold questUpdate in Hupd.
    destruct (negb _ || negb _); [|discriminate]. inversion Hupd. reflexivity. }
  rewrite Htarget. exact (Hok _ _ Hk0).
Qed.

Lemma targets_refreshProjections now :
  respects (keepsProperty questTargetsOk) (refreshProjections now).
Proof.
  unfold refreshProjections. targets_walk.
  - apply targets_syncQuestProgress.
  - unfold syncAchievementProgress. targets_walk; targets_frame.
Qed.

Lemma targets_insert (quest : Quest) k :
  1 <= target quest ->
  respects (keepsProperty questTargetsOk) (writeQuests (insert k quest)).
Proof.
  intros Hq db Hok k' q' Hk'. cbn in Hk'.
  destruct (decide (k' = k)) as [->|Hne].
  - rewrite lookup_insert_eq in Hk'. inversion Hk'; subst. exact Hq.
  - rewrite lookup_insert_ne in Hk' by congruence. exact (Hok _ _ Hk').
Qed.

Lemma targets_seed :
  respects (keepsProperty questTargetsOk)
    (writeQuests (seedTable quest_id defaultQuestTemplates)).
Proof.
  intros db Hok k q Hk. cbn in Hk. unfold seedTable in Hk.
  destruct (Nat.eqb (size (db_quests db)) 0); [|exact (Hok _ _ Hk)].
  apply bulkPut_lookup_cases in Hk as [Hin|Hold]; [|exact (Hok _ _ Hold)].
  unfold defaultQuestTemplates in Hin.
  repeat (apply elem_of_cons in Hin as [->|Hin]; [cbn; lia|]).
  apply elem_of_nil in Hin. destruct Hin.
Qed.

Lemma targets_recordTaskCompletion now userId task :
  respects (keepsProperty questTargetsOk) (recordTaskCompletion dayKey now userId task).
Proof.
  unfold recordTaskCompletion, applyTaskAnalytics, upsertDailyAggregate, appendEvent.
  targets_walk; targets_frame.
Qed.

Lemma targets_recordFocusSessionEnd now userId session :
  respects (keepsProperty questTargetsOk) (recordFocusSessionEnd dayKey now userId session).
Proof.
  unfold recordFocusSessionEnd, applyFocusAnalytics, upsertDailyAggregate, appendEvent.
  targets_walk; targets_frame.
Qed.

Ltac targets_ops :=
  first [ apply targets_recordTaskCompletion | apply targets_recordFocusSessionEnd
        | apply targets_refreshProjections | apply targets_syncQuestProgress
        | apply targets_seed
        | apply targets_insert; cbn; lia
        | targets_frame ].

Lemma targets_completeTask now profile taskId :
  respects (keepsProperty questTargetsOk)
    (completeTask dayKey nextRecurringDeadline recurrenceLabel now profile taskId).
Proof.
  unfold completeTask, spawnNextOccurrence. targets_walk; targets_ops.
Qed.

Lemma targets_reopenTask now profile taskId :
  respects (keepsProperty questTargetsOk) (reopenTask dayKey now profile taskId).
Proof.
  unfold reopenTask, upsertDailyAggregate, appendEvent. targets_walk; targets_ops.
Qed.

Lemma targets_createTask now profile input :
  respects (keepsProperty questTargetsOk) (createTask now profile input).
Proof. unfold createTask, appendEvent. targets_walk; targets_ops. Qed.

Lemma targets_deleteTask now profile taskId :
  respects (keepsProperty questTargetsOk) (deleteTask now profile taskId).
Proof. unfold deleteTask, appendEvent. targets_walk; targets_ops. Qed.

Lemma targets_createQuest now profile questInput :
  respects (keepsProperty questTargetsOk) (createQuest now profile questInput).
Proof. unfold createQuest, appendEvent. targets_walk; targets_ops. Qed.

Lemma targets_updateQuest now profile questId patch :
  respects (keepsProperty questTargetsOk) (updateQuest now profile questId patch).
Proof. unfold updateQuest, appendEvent. targets_walk; targets_ops. Qed.

Lemma targets_resetLifetimeXp : respects (keepsProperty questTargetsOk) resetLifetimeXp.
Proof. unfold resetLifetimeXp. targets_walk; targets_ops. Qed.

Lemma targets_addFocusSession now profile session applyRewards :
  respects (keepsProperty questTargetsOk)
    (addFocusSession dayKey now profile session applyRewards).
Proof. unfold addFocusSession, upsertDailyAggregate. targets_walk; targets_ops. Qed.

Lemma targets_bootstrapData : respects (keepsProperty questTargetsOk) bootstrapData.
Proof. unfold bootstrapData. targets_walk; targets_ops. Qed.

Lemma targets_init now : respects (keepsProperty questTargetsOk) (init now).
Proof.
  unfold init. targets_walk;
    first [ apply targets_bootstrapData | apply targets_syncQuestProgress
          | unfold syncAchievementProgress; targets_walk; targets_frame ].
Qed.

(** The character: the operations that never write it. *)
Ltac character_walk :=
  store_walk (keepsProperty_refl storeCharacterOk) (keepsProperty_trans storeCharacterOk).

Lemma character_refreshProjections now :
  respects (keepsProperty storeCharacterOk) (refreshProjections now).
Proof. exact (refreshProjections_keeps now). Qed.

Lemma character_createTask now profile input :
  respects (keepsProperty storeCharacterOk) (createTask now profile input).
Proof. unfold createTask, appendEvent. character_walk; targets_frame. Qed.

Lemma character_createQuest now profile questInput :
  respects (keepsProperty storeCharacterOk) (createQuest now profile questInput).
Proof.
  unfold createQuest, appendEvent, syncQuestProgress. character_walk; targets_frame.
Qed.

Lemma character_updateQuest now profile questId patch :
  respects (keepsProperty storeCharacterOk) (updateQuest now profile questId patch).
Proof. unfold updateQuest, appendEvent. character_walk; targets_frame. Qed.

Lemma character_init now : respects (keepsProperty storeCharacterOk) (init now).
Proof.
  unfold init. character_walk;
    first [ exact characterOk_bootstrapData
          | unfold syncQuestProgress, syncAchievementProgress; character_walk; targets_frame ].
Qed.

Lemma wellFormed_split {A : Type} (m : Store A) :
  keepsKeyed m -> keepsCharacterOk m -> respects (keepsProperty questTargetsOk) m ->
  keepsWellFormed m.
Proof.
  intros Hk Hc Ht db (H1 & H2 & H3). split; [exact (Hk db H1)|].
  split; [exact (Hc db H2) | exact (Ht db H3)].
Qed.

(** X18.  The store stays well formed: every table keyed by the id of
    its rows, the character row well formed (level at least 1, current
    XP not negative and below the threshold of the level, every stat at
    least 1) and every quest with a target of at least 1.  The empty
    store is well formed, first launch makes a well-formed store with a
    character, and [init] and every operation of the store return a
    well-formed store when they start from one.  (These are the
    hypotheses of the round-trip and idempotence properties.) *)
Theorem store_operations_keep_store_well_formed
    (now : string) (profile : option string) :
  storeWellFormed emptyDb /\
  storeWellFormed (bootstrapData emptyDb).2 /\
  db_character (bootstrapData emptyDb).2 = Some baseCharacter /\
  keepsWellFormed bootstrapData /\
  keepsWellFormed (init now) /\
  (forall input, keepsWellFormed (createTask now profile input)) /\
  (forall taskId,
     keepsWellFormed
       (completeTask dayKey nextRecurringDeadline recurrenceLabel now profile taskId)) /\
  (forall taskId, keepsWellFormed (reopenTask dayKey now profile taskId)) /\
  (forall taskId, keepsWellFormed (deleteTask now profile taskId)) /\
  (forall questInput, keepsWellFormed (createQuest now profile questInput)) /\
  (forall questId patch, keepsWellFormed (updateQuest now profile questId patch)) /\
  (forall session applyRewards,
     keepsWellFormed (addFocusSession dayKey now profile session applyRewards)) /\
  keepsWellFormed resetLifetimeXp.
Proof.
  assert (Hboot : keepsWellFormed bootstrapData).
  { apply wellFormed_split;
      [apply keyed_bootstrapData | apply characterOk_bootstrapData
       | apply targets_bootstrapData]. }
  assert (Hempty : storeWellFormed emptyDb).
  { split; [repeat split; apply keyedBy_empty|]. split.
    - intros c Hc. discriminate.
    - intros k q Hq. change ((∅ : gmap string Quest) !! k = Some q) in Hq.
      rewrite lookup_empty in Hq. discriminate. }
  split; [exact Hempty|]. split; [exact (Hboot emptyDb Hempty)|]. split; [reflexivity|].
  split; [exact Hboot|].
  split; [apply wellFormed_split;
            [apply keyed_init | apply character_init | apply targets_init]|].
  split; [intros; apply wellFormed_split;
            [apply keyed_createTask | apply character_createTask
             | apply targets_createTask]|].
  split; [intros; apply wellFormed_split;
            [apply keyed_completeTask | apply completeTask_keeps
             | apply targets_completeTask]|].
  split; [intros; apply wellFormed_split;
            [apply keyed_reopenTask | apply reopenTask_keeps | apply targets_reopenTask]|].
  split; [intros; apply wellFormed_split;
            [apply keyed_deleteTask | apply characterOk_deleteTask
             | apply targets_deleteTask]|].
  split; [intros; apply wellFormed_split;
            [apply keyed_createQuest | apply character_createQuest
             | apply targets_createQuest]|].
  split; [intros; apply wellFormed_split;
            [apply keyed_updateQuest | apply character_updateQuest
             | apply targets_updateQuest]|].
  split; [intros; apply wellFormed_split;
            [apply keyed_addFocusSession | apply characterOk_addFocusSession
             | apply targets_addFocusSession]|].
  apply wellFormed_split;
    [apply keyed_resetLifetimeXp | apply characterOk_resetLifetimeXp
     | apply targets_resetLifetimeXp].
Qed.

End WellFormed.

(** ** First launch *)

Lemma bulkPut_nonempty {V : Type} (key : V -> string) (rows : list V)
    (table : gmap string V) :
  rows <> [] -> bulkPut key rows table <> ∅.
Proof.
  intros Hrows. destruct (exists_last Hrows) as (l & r & ->).
  unfold bulkPut. rewrite fold_left_app. cbn [fold_left]. apply insert_non_empty.
Qed.

Lemma seedTable_kept {V : Type} (key : V -> string) (rows : list V)
    (table : gmap string V) :
  table <> ∅ -> seedTable key rows table = table.
Proof.
  intros Hne. unfold seedTable.
  destruct (Nat.eqb (size table) 0) eqn:E; [|reflexivity].
  apply Nat.eqb_eq in E. apply map_size_empty_iff in E. contradiction.
Qed.

Lemma seedTable_empty {V : Type} (key : V -> string) (rows : list V) :
  seedTable key rows ∅ = bulkPut key rows ∅.
Proof. unfold seedTable. rewrite map_size_empty. reflexivity. Qed.

Lemma seedTable_again {V : Type} (key : V -> string) (rows : list V)
    (table : gmap string V) :
  rows <> [] -> seedTable key rows (seedTable key rows table) = seedTable key rows table.
Proof.
  intros Hrows. apply seedTable_kept. unfold seedTable.
  destruct (Nat.eqb (size table) 0) eqn:E.
  - apply bulkPut_nonempty. exact Hrows.
  - intros ->. rewrite map_size_empty in E. discriminate.
Qed.

(** X21.  First launch seeds once and never overwrites: [bootstrapData]
    leaves a character and a streak row in the store (the base character
    and the empty streak where there was none, the stored rows
    otherwise), fills the categories, achievements and quests only when
    their table is empty, and writes no other table; running it again
    changes nothing.  On the empty store it leaves the 6 default
    categories, the 64 default achievements and the 2 quest templates,
    each under its own id. *)
Theorem bootstrapData_seeds_once (db : Db) :
  let db1 := (bootstrapData db).2 in
  db_character db1
    = Some (match db_character db with Some c => c | None => baseCharacter end) /\
  db_streaks db1 = Some (match db_streaks db with Some s => s | None => emptyStreak end) /\
  (db_categories db <> ∅ -> db_categories db1 = db_categories db) /\
  (db_achievements db <> ∅ -> db_achievements db1 = db_achievements db) /\
  (db_quests db <> ∅ -> db_quests db1 = db_quests db) /\
  (db_tasks db1 = db_tasks db /\ db_focusSessions db1 = db_focusSessions db /\
   db_achievementProgress db1 = db_achievementProgress db /\
   db_analyticsDaily db1 = db_analyticsDaily db /\ db_eventLog db1 = db_eventLog db) /\
  (bootstrapData db1).2 = db1 /\
  (let first := (bootstrapData emptyDb).2 in
   size (db_categories first) = List.length defaultCategories /\
   size (db_achievements first) = List.length defaultAchievements /\
   size (db_quests first) = List.length defaultQuestTemplates /\
   List.length defaultCategories = 6%nat /\
   List.length defaultAchievements = 64%nat /\
   List.length defaultQuestTemplates = 2%nat).
Proof.
  assert (Hshape : (bootstrapData db).2
            = mkDb (Some (match db_character db with Some c => c | None => baseCharacter end))
                   (Some (match db_streaks db with Some s => s | None => emptyStreak end))
                   (db_tasks db)
                   (seedTable category_id defaultCategories (db_categories db))
                   (db_focusSessions db)
                   (seedTable quest_id defaultQuestTemplates (db_quests db))
                   (seedTable achievement_id defaultAchievements (db_achievements db))
                   (db_achievementProgress db) (db_analyticsDaily db) (db_eventLog db)).
  { unfold bootstrapData. rewrite !store_bind_run.
    unfold readDb, writeCategories, writeAchievements, writeQuests. cbn [fst snd].
    cbn [db_character db_streaks].
    destruct (db_character db), (db_streaks db); reflexivity. }
  cbv zeta. rewrite Hshape.
  cbn [db_character db_streaks db_tasks db_categories db_focusSessions db_quests
       db_achievements db_achievementProgress db_analyticsDaily db_eventLog].
  split; [reflexivity|]. split; [reflexivity|].
  split; [apply seedTable_kept|]. split; [apply seedTable_kept|].
  split; [apply seedTable_kept|]. split; [repeat split|]. split.
  - unfold bootstrapData. rewrite !store_bind_run.
    unfold readDb, writeCategories, writeAchievements, writeQuests, putCharacter,
      putStreaks, store_ret.
    cbn [fst snd db_character db_streaks db_tasks db_categories db_focusSessions db_quests
         db_achievements db_achievementProgress db_analyticsDaily db_eventLog].
    rewrite !seedTable_again by discriminate. reflexivity.
  - vm_compute. repeat split.
Qed.

(** ** Quest generator *)

Lemma focus_total_monotone (days days' : list DailyAggregate) (a b : Z) :
  Forall2 (fun d d' => focusMinutes d <= focusMinutes d') days days' -> a <= b ->
  fold_left (fun sum d => sum + focusMinutes d) days a
  <= fold_left (fun sum d => sum + focusMinutes d) days' b.
Proof.
  intros H. revert a b. induction H as [|d d' l l' Hd Hl IH]; intros a b Hab;
    cbn [fold_left]; [exact Hab|].
  apply IH. lia.
Qed.

(** X14.  The daily quest generator returns three fresh daily quests
    (focus, completions, balance) under the ids [dq-focus],
    [dq-complete], [dq-balance]: each is active with progress 0 below its
    target, the focus target is at least 25 minutes, no target shrinks
    when the days of the signal hold more focus minutes, and the title of
    the balance quest names the first neglected stat ([discipline] when
    none is given).  Their ids, those of the weekly quests and those of
    the seeded templates are all distinct. *)
Theorem generateDailyQuests_shape (signals : QuestSignals) :
  let quests := generateDailyQuests signals in
  let neglected :=
    match neglectedStats signals with first :: _ => first | [] => discipline end in
  List.map quest_id quests = ["dq-focus"; "dq-complete"; "dq-balance"]%string /\
  List.map objectiveType quests = [focus_minutes; task_completions; category_balance] /\
  Forall (fun q => quest_kind q = daily /\ quest_status q = active /\ progress q = 0 /\
                   progress q < target q /\ 1 <= reward_xp (reward q)) quests /\
  (exists focusTarget, List.map target quests = [focusTarget; 3; 1] /\ 25 <= focusTarget) /\
  (forall richer : QuestSignals,
     Forall2 (fun d d' => focusMinutes d <= focusMinutes d')
             (last14Days signals) (last14Days richer) ->
     Forall2 Z.le (List.map target quests) (List.map target (generateDailyQuests richer))) /\
  List.map quest_title quests
    = ["Shadow Concentration"; "Clear the Gate";
       "Reinforce " ++ statName neglected]%string /\
  includes (statName neglected) ("Reinforce " ++ statName neglected) = true /\
  NoDup (List.map quest_id (quests ++ generateWeeklyQuests ++ defaultQuestTemplates)).
Proof.
  intros quests neglected. subst quests. unfold generateDailyQuests. cbv zeta.
  cbn [List.map quest_id objectiveType target quest_title].
  split; [reflexivity|]. split; [reflexivity|]. split.
  { repeat (apply Forall_cons; split;
              [cbn [quest_kind quest_status progress target reward reward_xp];
               split; [reflexivity|]; split; [reflexivity|]; split; [reflexivity|]; lia|]).
    apply Forall_nil_2. }
  split; [eexists; split; [reflexivity|]; lia|].
  split.
  { intros richer Hricher. constructor; [|repeat constructor; lia].
    apply Z.max_le_compat_l. apply js_round_monotone.
    apply Qmult_le_compat_r; [|discriminate].
    rewrite <- (Forall2_length _ _ _ Hricher). unfold Qdiv. apply Qmult_le_compat_r.
    - rewrite <- Zle_Qle. apply focus_total_monotone; [exact Hricher | lia].
    - apply Qinv_le_0_compat. change 0%Q with (inject_Z 0). rewrite <- Zle_Qle. lia. }
  split; [reflexivity|]. split.
  { subst neglected. destruct (neglectedStats signals) as [|[] rest]; vm_compute; reflexivity. }
  cbn [app List.map quest_id generateWeeklyQuests defaultQuestTemplates].
  repeat (apply NoDup_cons; split;
          [rewrite ?elem_of_cons, elem_of_nil; intros H;
           repeat (destruct H as [H|H]; [discriminate|]); exact H|]).
  apply NoDup_nil_2.
Qed.

(** ** More on the snapshot *)

Lemma string_leb_total (a b : string) : string_leb a b = true \/ string_leb b a = true.
Proof.
  unfold string_leb. rewrite (String.compare_antisym b a).
  destruct (String.compare a b); cbn; auto.
Qed.

Lemma string_leb_trans (a b c : string) :
  string_leb a b = true -> string_leb b c = true -> string_leb a c = true.
Proof.
  unfold string_leb. intros Hab Hbc.
  destruct (String.compare a b) eqn:Eab; try discriminate.
  - apply String.compare_eq_iff in Eab. subst b. exact Hbc.
  - destruct (String.compare b c) eqn:Ebc; try discriminate.
    + apply String.compare_eq_iff in Ebc. subst c. rewrite Eab. reflexivity.
    + apply String_as_OT.cmp_lt in Eab, Ebc.
      pose proof (String_as_OT.lt_trans _ _ _ Eab Ebc) as Hac.
      apply String_as_OT.cmp_lt in Hac. unfold String_as_OT.cmp in Hac.
      rewrite Hac. reflexivity.
Qed.

(** The head of a list sorted from latest to earliest is a latest one. *)
Lemma latest_first (events : list AppEvent) :
  match stable_sort (fun a b => string_leb (occurredAt b) (occurredAt a)) events with
  | [] => events = []
  | h :: _ =>
      In h events /\
      forall e, In e events -> string_leb (occurredAt e) (occurredAt h) = true
  end.
Proof.
  induction events as [|x l IH]; [reflexivity|].
  cbn [stable_sort fold_right].
  fold (stable_sort (fun a b : AppEvent => string_leb (occurredAt b) (occurredAt a)) l).
  destruct (stable_sort (fun a b : AppEvent => string_leb (occurredAt b) (occurredAt a)) l)
    as [|h t]; cbn [insert_sorted].
  - subst l. split; [left; reflexivity|].
    intros e [<-|[]]. destruct (string_leb_total (occurredAt x) (occurredAt x)); assumption.
  - destruct IH as [Hin Hmax].
    destruct (string_leb (occurredAt h) (occurredAt x)) eqn:Hle.
    + split; [left; reflexivity|].
      intros e [<-|He].
      * destruct (string_leb_total (occurredAt x) (occurredAt x)); assumption.
      * eapply string_leb_trans; [apply Hmax; exact He | exact Hle].
    + split; [right; exact Hin|].
      intros e [<-|He]; [|apply Hmax; exact He].
      destruct (string_leb_total (occurredAt x) (occurredAt h)) as [H|H];
        [exact H | congruence].
Qed.

Lemma questRatio_le_1 q : (questRatio q <= 1)%Q.
Proof. unfold questRatio. apply Q.le_min_l. Qed.

Lemma questRatio_nonneg q : 0 <= progress q -> (0 <= questRatio q)%Q.
Proof.
  intros Hp. unfold questRatio. apply Q.min_glb; [discriminate|].
  unfold Qdiv. apply Qmult_le_0_compat.
  - change 0%Q with (inject_Z 0). rewrite <- Zle_Qle. exact Hp.
  - apply Qinv_le_0_compat. change 0%Q with (inject_Z 0). rewrite <- Zle_Qle. lia.
Qed.

Lemma questRatio_sum (quests : list Quest) (init : Q) :
  (fold_left (fun sum q => sum + questRatio q) quests init
   <= init + inject_Z (Z.of_nat (List.length quests)))%Q /\
  (Forall (fun q => 0 <= progress q) quests ->
   (init <= fold_left (fun sum q => sum + questRatio q) quests init)%Q).
Proof.
  revert init. induction quests as [|q quests IH]; intros init; cbn [fold_left List.length].
  - split; [|intros _; apply Qle_refl].
    change (Z.of_nat 0) with 0. rewrite Qplus_0_r. apply Qle_refl.
  - destruct (IH (init + questRatio q)%Q) as [Hup Hlow]. split.
    + eapply Qle_trans; [exact Hup|].
      rewrite Nat2Z.inj_succ, <- Z.add_1_l, inject_Z_plus.
      rewrite <- Qplus_assoc. apply Qplus_le_r. apply Qplus_le_l. apply questRatio_le_1.
    + intros Hall. inversion Hall; subst.
      eapply Qle_trans; [|apply Hlow; assumption].
      rewrite <- (Qplus_0_r init) at 1. apply Qplus_le_r. apply questRatio_nonneg. assumption.
Qed.

(** X30.  Two more figures of the snapshot.  The active-quest progress
    is a whole percentage of at most 100 (a quest past its target counts
    as 100%), is 0 without quests and is not negative when no quest has
    negative progress.  The badge shown is that of a latest
    [BadgeUnlocked] event of the range: an event of the input, of that
    type, inside the range, and no such event is later; when the input
    has no such event no badge is shown. *)
Theorem snapshot_quest_progress_and_last_badge (now : Z) (input : SnapshotInput) :
  let snapshot := buildSnapshotFromData now input in
  let inRange e :=
    bool_decide (eventType e = BadgeUnlocked)
    && isInRange (occurredAt e) (input_range input) in
  activeQuestProgressPercent snapshot <= 100 /\
  (input_quests input = [] -> activeQuestProgressPercent snapshot = 0) /\
  (Forall (fun q => 0 <= progress q) (input_quests input) ->
   0 <= activeQuestProgressPercent snapshot) /\
  match lastBadgeOf (input_events input) (input_range input) with
  | Some badge =>
      In badge (input_events input) /\ inRange badge = true /\
      lastBadgeUnlocked snapshot = payload badge !! "achievementId"%string /\
      forall e, In e (input_events input) -> inRange e = true ->
                string_leb (occurredAt e) (occurredAt badge) = true
  | None =>
      lastBadgeUnlocked snapshot = None /\
      forall e, In e (input_events input) -> inRange e = false
  end.
Proof.
  intros snapshot inRange. subst snapshot. unfold buildSnapshotFromData.
  cbn [activeQuestProgressPercent lastBadgeUnlocked].
  split; [|split; [|split]].
  - unfold questProgressPercent. destruct (input_quests input) as [|q quests] eqn:E; [lia|].
    rewrite <- E.
    assert (Hn : 0 < Z.of_nat (List.length (input_quests input)))
      by (rewrite E; cbn [List.length]; lia).
    destruct (questRatio_sum (input_quests input) 0) as [Hup _].
    rewrite Qplus_0_l in Hup.
    rewrite <- (js_round_Z 100). apply js_round_monotone.
    apply Qle_trans with (inject_Z (Z.of_nat (List.length (input_quests input)))
                          * (100 / inject_Z (Z.of_nat (List.length (input_quests input)))))%Q.
    + apply Qmult_le_compat_r; [exact Hup|].
      unfold Qdiv. apply Qmult_le_0_compat; [discriminate|].
      apply Qinv_le_0_compat. change 0%Q with (inject_Z 0). rewrite <- Zle_Qle. lia.
    + apply Qle_lteq. right. field. apply Qnonzero_of_pos. apply inject_Z_pos. exact Hn.
  - intros Hnil. rewrite Hnil. reflexivity.
  - intros Hall. unfold questProgressPercent.
    destruct (input_quests input) as [|q quests] eqn:E; [lia|]. rewrite <- E in *.
    destruct (questRatio_sum (input_quests input) 0) as [_ Hlow].
    rewrite <- (js_round_Z 0). apply js_round_monotone.
    apply Qmult_le_0_compat; [apply Hlow; exact Hall|].
    unfold Qdiv. apply Qmult_le_0_compat; [discriminate|].
    apply Qinv_le_0_compat. change 0%Q with (inject_Z 0). rewrite <- Zle_Qle. lia.
  - unfold lastBadgeOf. fold inRange.
    pose proof (latest_first (List.filter inRange (input_events input))) as Hsort.
    destruct (stable_sort _ (List.filter inRange (input_events input))) as [|h t] eqn:Es.
    + cbn [head]. split; [reflexivity|]. intros e He.
      destruct (inRange e) eqn:Ein; [|reflexivity].
      assert (Hf : In e (List.filter inRange (input_events input)))
        by (apply filter_In; split; assumption).
      rewrite Hsort in Hf. destruct Hf.
    + cbn [head]. destruct Hsort as [Hin Hmax]. apply filter_In in Hin as [Hin Hr].
      split; [exact Hin|]. split; [exact Hr|]. split; [reflexivity|].
      intros e He Her. apply Hmax. apply filter_In. split; assumption.
Qed.
